(** * FriendFlow: poll lifecycle, vote ledger, PlanBot and realtime handlers

    A shallow embedding of the TypeScript sources

      - lib/pollHelpers.ts   (createPoll, activatePoll, getActivePoll, castVote, ...)
      - lib/planbot.ts       (parseDateTime, lockDecision, handlePlanbotCommand, ...)
      - pages/group-chat.tsx (the realtime subscription handlers)

    The Appwrite database is modelled as a record of collections, every
    collection a list of documents in creation order.  Each call on
    [databases] goes through one gateway function that consults an
    environment oracle to decide whether the call is rejected; a rejected
    call throws and leaves the collections untouched.  Asynchronous code is
    sequentialised: an [await]ed call is a step of a state-and-exception
    monad. *)

From Stdlib Require Import ZArith Ascii String.
From stdpp Require Import base strings list gmap pretty.

Local Open Scope string_scope.
Local Open Scope list_scope.

(** ** Case data of the Unicode Character Database, version 14.0

    [lower]: the simple lower-case mappings, as [(first, last, step, offset)]:
    the code points [first], [first + step], ..., [last] map to themselves
    plus [offset].  [cased]: the code points that are Cased and not
    Case_Ignorable.  [caseIgnorable]: the Case_Ignorable code points.  The
    two sets are what the Final_Sigma condition of SpecialCasing looks at. *)

Module Unicode.
Local Open Scope Z_scope.

Definition lower : list (Z * Z * Z * Z) :=
  [(0x41, 0x5A, 1, 32); (0xC0, 0xD6, 1, 32); (0xD8, 0xDE, 1, 32);
   (0x100, 0x12E, 2, 1); (0x132, 0x136, 2, 1); (0x139, 0x147, 2, 1);
   (0x14A, 0x176, 2, 1); (0x178, 0x178, 1, (-121)); (0x179, 0x17D, 2, 1);
   (0x181, 0x181, 1, 210); (0x182, 0x184, 2, 1); (0x186, 0x186, 1, 206);
   (0x187, 0x187, 1, 1); (0x189, 0x18A, 1, 205); (0x18B, 0x18B, 1, 1);
   (0x18E, 0x18E, 1, 79); (0x18F, 0x18F, 1, 202); (0x190, 0x190, 1, 203);
   (0x191, 0x191, 1, 1); (0x193, 0x193, 1, 205); (0x194, 0x194, 1, 207);
   (0x196, 0x196, 1, 211); (0x197, 0x197, 1, 209); (0x198, 0x198, 1, 1);
   (0x19C, 0x19C, 1, 211); (0x19D, 0x19D, 1, 213); (0x19F, 0x19F, 1, 214);
   (0x1A0, 0x1A4, 2, 1); (0x1A6, 0x1A6, 1, 218); (0x1A7, 0x1A7, 1, 1);
   (0x1A9, 0x1A9, 1, 218); (0x1AC, 0x1AC, 1, 1); (0x1AE, 0x1AE, 1, 218);
   (0x1AF, 0x1AF, 1, 1); (0x1B1, 0x1B2, 1, 217); (0x1B3, 0x1B5, 2, 1);
   (0x1B7, 0x1B7, 1, 219); (0x1B8, 0x1B8, 1, 1); (0x1BC, 0x1BC, 1, 1);
   (0x1C4, 0x1C4, 1, 2); (0x1C5, 0x1C5, 1, 1); (0x1C7, 0x1C7, 1, 2);
   (0x1C8, 0x1C8, 1, 1); (0x1CA, 0x1CA, 1, 2); (0x1CB, 0x1DB, 2, 1);
   (0x1DE, 0x1EE, 2, 1); (0x1F1, 0x1F1, 1, 2); (0x1F2, 0x1F4, 2, 1);
   (0x1F6, 0x1F6, 1, (-97)); (0x1F7, 0x1F7, 1, (-56)); (0x1F8, 0x21E, 2, 1);
   (0x220, 0x220, 1, (-130)); (0x222, 0x232, 2, 1); (0x23A, 0x23A, 1, 10795);
   (0x23B, 0x23B, 1, 1); (0x23D, 0x23D, 1, (-163)); (0x23E, 0x23E, 1, 10792);
   (0x241, 0x241, 1, 1); (0x243, 0x243, 1, (-195)); (0x244, 0x244, 1, 69);
   (0x245, 0x245, 1, 71); (0x246, 0x24E, 2, 1); (0x370, 0x372, 2, 1);
   (0x376, 0x376, 1, 1); (0x37F, 0x37F, 1, 116); (0x386, 0x386, 1, 38);
   (0x388, 0x38A, 1, 37); (0x38C, 0x38C, 1, 64); (0x38E, 0x38F, 1, 63);
   (0x391, 0x3A1, 1, 32); (0x3A3, 0x3AB, 1, 32); (0x3CF, 0x3CF, 1, 8);
   (0x3D8, 0x3EE, 2, 1); (0x3F4, 0x3F4, 1, (-60)); (0x3F7, 0x3F7, 1, 1);
   (0x3F9, 0x3F9, 1, (-7)); (0x3FA, 0x3FA, 1, 1); (0x3FD, 0x3FF, 1, (-130));
   (0x400, 0x40F, 1, 80); (0x410, 0x42F, 1, 32); (0x460, 0x480, 2, 1);
   (0x48A, 0x4BE, 2, 1); (0x4C0, 0x4C0, 1, 15); (0x4C1, 0x4CD, 2, 1);
   (0x4D0, 0x52E, 2, 1); (0x531, 0x556, 1, 48); (0x10A0, 0x10C5, 1, 7264);
   (0x10C7, 0x10C7, 1, 7264); (0x10CD, 0x10CD, 1, 7264); (0x13A0, 0x13EF, 1, 38864);
   (0x13F0, 0x13F5, 1, 8); (0x1C90, 0x1CBA, 1, (-3008)); (0x1CBD, 0x1CBF, 1, (-3008));
   (0x1E00, 0x1E94, 2, 1); (0x1E9E, 0x1E9E, 1, (-7615)); (0x1EA0, 0x1EFE, 2, 1);
   (0x1F08, 0x1F0F, 1, (-8)); (0x1F18, 0x1F1D, 1, (-8)); (0x1F28, 0x1F2F, 1, (-8));
   (0x1F38, 0x1F3F, 1, (-8)); (0x1F48, 0x1F4D, 1, (-8)); (0x1F59, 0x1F5F, 2, (-8));
   (0x1F68, 0x1F6F, 1, (-8)); (0x1F88, 0x1F8F, 1, (-8)); (0x1F98, 0x1F9F, 1, (-8));
   (0x1FA8, 0x1FAF, 1, (-8)); (0x1FB8, 0x1FB9, 1, (-8)); (0x1FBA, 0x1FBB, 1, (-74));
   (0x1FBC, 0x1FBC, 1, (-9)); (0x1FC8, 0x1FCB, 1, (-86)); (0x1FCC, 0x1FCC, 1, (-9));
   (0x1FD8, 0x1FD9, 1, (-8)); (0x1FDA, 0x1FDB, 1, (-100)); (0x1FE8, 0x1FE9, 1, (-8));
   (0x1FEA, 0x1FEB, 1, (-112)); (0x1FEC, 0x1FEC, 1, (-7)); (0x1FF8, 0x1FF9, 1, (-128));
   (0x1FFA, 0x1FFB, 1, (-126)); (0x1FFC, 0x1FFC, 1, (-9)); (0x2126, 0x2126, 1, (-7517));
   (0x212A, 0x212A, 1, (-8383)); (0x212B, 0x212B, 1, (-8262)); (0x2132, 0x2132, 1, 28);
   (0x2160, 0x216F, 1, 16); (0x2183, 0x2183, 1, 1); (0x24B6, 0x24CF, 1, 26);
   (0x2C00, 0x2C2F, 1, 48); (0x2C60, 0x2C60, 1, 1); (0x2C62, 0x2C62, 1, (-10743));
   (0x2C63, 0x2C63, 1, (-3814)); (0x2C64, 0x2C64, 1, (-10727)); (0x2C67, 0x2C6B, 2, 1);
   (0x2C6D, 0x2C6D, 1, (-10780)); (0x2C6E, 0x2C6E, 1, (-10749)); (0x2C6F, 0x2C6F, 1, (-10783));
   (0x2C70, 0x2C70, 1, (-10782)); (0x2C72, 0x2C72, 1, 1); (0x2C75, 0x2C75, 1, 1);
   (0x2C7E, 0x2C7F, 1, (-10815)); (0x2C80, 0x2CE2, 2, 1); (0x2CEB, 0x2CED, 2, 1);
   (0x2CF2, 0x2CF2, 1, 1); (0xA640, 0xA66C, 2, 1); (0xA680, 0xA69A, 2, 1);
   (0xA722, 0xA72E, 2, 1); (0xA732, 0xA76E, 2, 1); (0xA779, 0xA77B, 2, 1);
   (0xA77D, 0xA77D, 1, (-35332)); (0xA77E, 0xA786, 2, 1); (0xA78B, 0xA78B, 1, 1);
   (0xA78D, 0xA78D, 1, (-42280)); (0xA790, 0xA792, 2, 1); (0xA796, 0xA7A8, 2, 1);
   (0xA7AA, 0xA7AA, 1, (-42308)); (0xA7AB, 0xA7AB, 1, (-42319)); (0xA7AC, 0xA7AC, 1, (-42315));
   (0xA7AD, 0xA7AD, 1, (-42305)); (0xA7AE, 0xA7AE, 1, (-42308)); (0xA7B0, 0xA7B0, 1, (-42258));
   (0xA7B1, 0xA7B1, 1, (-42282)); (0xA7B2, 0xA7B2, 1, (-42261)); (0xA7B3, 0xA7B3, 1, 928);
   (0xA7B4, 0xA7C2, 2, 1); (0xA7C4, 0xA7C4, 1, (-48)); (0xA7C5, 0xA7C5, 1, (-42307));
   (0xA7C6, 0xA7C6, 1, (-35384)); (0xA7C7, 0xA7C9, 2, 1); (0xA7D0, 0xA7D0, 1, 1);
   (0xA7D6, 0xA7D8, 2, 1); (0xA7F5, 0xA7F5, 1, 1); (0xFF21, 0xFF3A, 1, 32);
   (0x10400, 0x10427, 1, 40); (0x104B0, 0x104D3, 1, 40); (0x10570, 0x10594, 2, 39);
   (0x10571, 0x1057A, 1, 39); (0x1057D, 0x1058A, 1, 39); (0x1058D, 0x10592, 1, 39);
   (0x10595, 0x10595, 1, 39); (0x10C80, 0x10CB2, 1, 64); (0x118A0, 0x118BF, 1, 32);
   (0x16E40, 0x16E5F, 1, 32); (0x1E900, 0x1E921, 1, 34)].

Definition cased : list (Z * Z) :=
  [(0x41, 0x5A); (0x61, 0x7A); (0xAA, 0xAA); (0xB5, 0xB5); (0xBA, 0xBA); (0xC0, 0xD6);
   (0xD8, 0xF6); (0xF8, 0x1BA); (0x1BC, 0x1BF); (0x1C4, 0x293); (0x295, 0x2AF); (0x370, 0x373);
   (0x376, 0x377); (0x37B, 0x37D); (0x37F, 0x37F); (0x386, 0x386); (0x388, 0x38A); (0x38C, 0x38C);
   (0x38E, 0x3A1); (0x3A3, 0x3F5); (0x3F7, 0x481); (0x48A, 0x52F); (0x531, 0x556); (0x560, 0x588);
   (0x10A0, 0x10C5); (0x10C7, 0x10C7); (0x10CD, 0x10CD); (0x10D0, 0x10FA); (0x10FD, 0x10FF); (0x13A0, 0x13F5);
   (0x13F8, 0x13FD); (0x1C80, 0x1C88); (0x1C90, 0x1CBA); (0x1CBD, 0x1CBF); (0x1D00, 0x1D2B); (0x1D6B, 0x1D77);
   (0x1D79, 0x1D9A); (0x1E00, 0x1F15); (0x1F18, 0x1F1D); (0x1F20, 0x1F45); (0x1F48, 0x1F4D); (0x1F50, 0x1F57);
   (0x1F59, 0x1F59); (0x1F5B, 0x1F5B); (0x1F5D, 0x1F5D); (0x1F5F, 0x1F7D); (0x1F80, 0x1FB4); (0x1FB6, 0x1FBC);
   (0x1FBE, 0x1FBE); (0x1FC2, 0x1FC4); (0x1FC6, 0x1FCC); (0x1FD0, 0x1FD3); (0x1FD6, 0x1FDB); (0x1FE0, 0x1FEC);
   (0x1FF2, 0x1FF4); (0x1FF6, 0x1FFC); (0x2102, 0x2102); (0x2107, 0x2107); (0x210A, 0x2113); (0x2115, 0x2115);
   (0x2119, 0x211D); (0x2124, 0x2124); (0x2126, 0x2126); (0x2128, 0x2128); (0x212A, 0x212D); (0x212F, 0x2134);
   (0x2139, 0x2139); (0x213C, 0x213F); (0x2145, 0x2149); (0x214E, 0x214E); (0x2160, 0x217F); (0x2183, 0x2184);
   (0x24B6, 0x24E9); (0x2C00, 0x2C7B); (0x2C7E, 0x2CE4); (0x2CEB, 0x2CEE); (0x2CF2, 0x2CF3); (0x2D00, 0x2D25);
   (0x2D27, 0x2D27); (0x2D2D, 0x2D2D); (0xA640, 0xA66D); (0xA680, 0xA69B); (0xA722, 0xA76F); (0xA771, 0xA787);
   (0xA78B, 0xA78E); (0xA790, 0xA7CA); (0xA7D0, 0xA7D1); (0xA7D3, 0xA7D3); (0xA7D5, 0xA7D9); (0xA7F5, 0xA7F6);
   (0xA7FA, 0xA7FA); (0xAB30, 0xAB5A); (0xAB60, 0xAB68); (0xAB70, 0xABBF); (0xFB00, 0xFB06); (0xFB13, 0xFB17);
   (0xFF21, 0xFF3A); (0xFF41, 0xFF5A); (0x10400, 0x1044F); (0x104B0, 0x104D3); (0x104D8, 0x104FB); (0x10570, 0x1057A);
   (0x1057C, 0x1058A); (0x1058C, 0x10592); (0x10594, 0x10595); (0x10597, 0x105A1); (0x105A3, 0x105B1); (0x105B3, 0x105B9);
   (0x105BB, 0x105BC); (0x10C80, 0x10CB2); (0x10CC0, 0x10CF2); (0x118A0, 0x118DF); (0x16E40, 0x16E7F); (0x1D400, 0x1D454);
   (0x1D456, 0x1D49C); (0x1D49E, 0x1D49F); (0x1D4A2, 0x1D4A2); (0x1D4A5, 0x1D4A6); (0x1D4A9, 0x1D4AC); (0x1D4AE, 0x1D4B9);
   (0x1D4BB, 0x1D4BB); (0x1D4BD, 0x1D4C3); (0x1D4C5, 0x1D505); (0x1D507, 0x1D50A); (0x1D50D, 0x1D514); (0x1D516, 0x1D51C);
   (0x1D51E, 0x1D539); (0x1D53B, 0x1D53E); (0x1D540, 0x1D544); (0x1D546, 0x1D546); (0x1D54A, 0x1D550); (0x1D552, 0x1D6A5);
   (0x1D6A8, 0x1D6C0); (0x1D6C2, 0x1D6DA); (0x1D6DC, 0x1D6FA); (0x1D6FC, 0x1D714); (0x1D716, 0x1D734); (0x1D736, 0x1D74E);
   (0x1D750, 0x1D76E); (0x1D770, 0x1D788); (0x1D78A, 0x1D7A8); (0x1D7AA, 0x1D7C2); (0x1D7C4, 0x1D7CB); (0x1DF00, 0x1DF09);
   (0x1DF0B, 0x1DF1E); (0x1E900, 0x1E943); (0x1F130, 0x1F149); (0x1F150, 0x1F169); (0x1F170, 0x1F189)].

Definition caseIgnorable : list (Z * Z) :=
  [(0x27, 0x27); (0x2E, 0x2E); (0x3A, 0x3A); (0x5E, 0x5E); (0x60, 0x60); (0xA8, 0xA8);
   (0xAD, 0xAD); (0xAF, 0xAF); (0xB4, 0xB4); (0xB7, 0xB8); (0x2B0, 0x36F); (0x374, 0x375);
   (0x37A, 0x37A); (0x384, 0x385); (0x387, 0x387); (0x483, 0x489); (0x559, 0x559); (0x55F, 0x55F);
   (0x591, 0x5BD); (0x5BF, 0x5BF); (0x5C1, 0x5C2); (0x5C4, 0x5C5); (0x5C7, 0x5C7); (0x5F4, 0x5F4);
   (0x600, 0x605); (0x610, 0x61A); (0x61C, 0x61C); (0x640, 0x640); (0x64B, 0x65F); (0x670, 0x670);
   (0x6D6, 0x6DD); (0x6DF, 0x6E8); (0x6EA, 0x6ED); (0x70F, 0x70F); (0x711, 0x711); (0x730, 0x74A);
   (0x7A6, 0x7B0); (0x7EB, 0x7F5); (0x7FA, 0x7FA); (0x7FD, 0x7FD); (0x816, 0x82D); (0x859, 0x85B);
   (0x888, 0x888); (0x890, 0x891); (0x898, 0x89F); (0x8C9, 0x902); (0x93A, 0x93A); (0x93C, 0x93C);
   (0x941, 0x948); (0x94D, 0x94D); (0x951, 0x957); (0x962, 0x963); (0x971, 0x971); (0x981, 0x981);
   (0x9BC, 0x9BC); (0x9C1, 0x9C4); (0x9CD, 0x9CD); (0x9E2, 0x9E3); (0x9FE, 0x9FE); (0xA01, 0xA02);
   (0xA3C, 0xA3C); (0xA41, 0xA42); (0xA47, 0xA48); (0xA4B, 0xA4D); (0xA51, 0xA51); (0xA70, 0xA71);
   (0xA75, 0xA75); (0xA81, 0xA82); (0xABC, 0xABC); (0xAC1, 0xAC5); (0xAC7, 0xAC8); (0xACD, 0xACD);
   (0xAE2, 0xAE3); (0xAFA, 0xAFF); (0xB01, 0xB01); (0xB3C, 0xB3C); (0xB3F, 0xB3F); (0xB41, 0xB44);
   (0xB4D, 0xB4D); (0xB55, 0xB56); (0xB62, 0xB63); (0xB82, 0xB82); (0xBC0, 0xBC0); (0xBCD, 0xBCD);
   (0xC00, 0xC00); (0xC04, 0xC04); (0xC3C, 0xC3C); (0xC3E, 0xC40); (0xC46, 0xC48); (0xC4A, 0xC4D);
   (0xC55, 0xC56); (0xC62, 0xC63); (0xC81, 0xC81); (0xCBC, 0xCBC); (0xCBF, 0xCBF); (0xCC6, 0xCC6);
   (0xCCC, 0xCCD); (0xCE2, 0xCE3); (0xD00, 0xD01); (0xD3B, 0xD3C); (0xD41, 0xD44); (0xD4D, 0xD4D);
   (0xD62, 0xD63); (0xD81, 0xD81); (0xDCA, 0xDCA); (0xDD2, 0xDD4); (0xDD6, 0xDD6); (0xE31, 0xE31);
   (0xE34, 0xE3A); (0xE46, 0xE4E); (0xEB1, 0xEB1); (0xEB4, 0xEBC); (0xEC6, 0xEC6); (0xEC8, 0xECD);
   (0xF18, 0xF19); (0xF35, 0xF35); (0xF37, 0xF37); (0xF39, 0xF39); (0xF71, 0xF7E); (0xF80, 0xF84);
   (0xF86, 0xF87); (0xF8D, 0xF97); (0xF99, 0xFBC); (0xFC6, 0xFC6); (0x102D, 0x1030); (0x1032, 0x1037);
   (0x1039, 0x103A); (0x103D, 0x103E); (0x1058, 0x1059); (0x105E, 0x1060); (0x1071, 0x1074); (0x1082, 0x1082);
   (0x1085, 0x1086); (0x108D, 0x108D); (0x109D, 0x109D); (0x10FC, 0x10FC); (0x135D, 0x135F); (0x1712, 0x1714);
   (0x1732, 0x1733); (0x1752, 0x1753); (0x1772, 0x1773); (0x17B4, 0x17B5); (0x17B7, 0x17BD); (0x17C6, 0x17C6);
   (0x17C9, 0x17D3); (0x17D7, 0x17D7); (0x17DD, 0x17DD); (0x180B, 0x180F); (0x1843, 0x1843); (0x1885, 0x1886);
   (0x18A9, 0x18A9); (0x1920, 0x1922); (0x1927, 0x1928); (0x1932, 0x1932); (0x1939, 0x193B); (0x1A17, 0x1A18);
   (0x1A1B, 0x1A1B); (0x1A56, 0x1A56); (0x1A58, 0x1A5E); (0x1A60, 0x1A60); (0x1A62, 0x1A62); (0x1A65, 0x1A6C);
   (0x1A73, 0x1A7C); (0x1A7F, 0x1A7F); (0x1AA7, 0x1AA7); (0x1AB0, 0x1ACE); (0x1B00, 0x1B03); (0x1B34, 0x1B34);
   (0x1B36, 0x1B3A); (0x1B3C, 0x1B3C); (0x1B42, 0x1B42); (0x1B6B, 0x1B73); (0x1B80, 0x1B81); (0x1BA2, 0x1BA5);
   (0x1BA8, 0x1BA9); (0x1BAB, 0x1BAD); (0x1BE6, 0x1BE6); (0x1BE8, 0x1BE9); (0x1BED, 0x1BED); (0x1BEF, 0x1BF1);
   (0x1C2C, 0x1C33); (0x1C36, 0x1C37); (0x1C78, 0x1C7D); (0x1CD0, 0x1CD2); (0x1CD4, 0x1CE0); (0x1CE2, 0x1CE8);
   (0x1CED, 0x1CED); (0x1CF4, 0x1CF4); (0x1CF8, 0x1CF9); (0x1D2C, 0x1D6A); (0x1D78, 0x1D78); (0x1D9B, 0x1DFF);
   (0x1FBD, 0x1FBD); (0x1FBF, 0x1FC1); (0x1FCD, 0x1FCF); (0x1FDD, 0x1FDF); (0x1FED, 0x1FEF); (0x1FFD, 0x1FFE);
   (0x200B, 0x200F); (0x2018, 0x2019); (0x2024, 0x2024); (0x2027, 0x2027); (0x202A, 0x202E); (0x2060, 0x2064);
   (0x2066, 0x206F); (0x2071, 0x2071); (0x207F, 0x207F); (0x2090, 0x209C); (0x20D0, 0x20F0); (0x2C7C, 0x2C7D);
   (0x2CEF, 0x2CF1); (0x2D6F, 0x2D6F); (0x2D7F, 0x2D7F); (0x2DE0, 0x2DFF); (0x2E2F, 0x2E2F); (0x3005, 0x3005);
   (0x302A, 0x302D); (0x3031, 0x3035); (0x303B, 0x303B); (0x3099, 0x309E); (0x30FC, 0x30FE); (0xA015, 0xA015);
   (0xA4F8, 0xA4FD); (0xA60C, 0xA60C); (0xA66F, 0xA672); (0xA674, 0xA67D); (0xA67F, 0xA67F); (0xA69C, 0xA69F);
   (0xA6F0, 0xA6F1); (0xA700, 0xA721); (0xA770, 0xA770); (0xA788, 0xA78A); (0xA7F2, 0xA7F4); (0xA7F8, 0xA7F9);
   (0xA802, 0xA802); (0xA806, 0xA806); (0xA80B, 0xA80B); (0xA825, 0xA826); (0xA82C, 0xA82C); (0xA8C4, 0xA8C5);
   (0xA8E0, 0xA8F1); (0xA8FF, 0xA8FF); (0xA926, 0xA92D); (0xA947, 0xA951); (0xA980, 0xA982); (0xA9B3, 0xA9B3);
   (0xA9B6, 0xA9B9); (0xA9BC, 0xA9BD); (0xA9CF, 0xA9CF); (0xA9E5, 0xA9E6); (0xAA29, 0xAA2E); (0xAA31, 0xAA32);
   (0xAA35, 0xAA36); (0xAA43, 0xAA43); (0xAA4C, 0xAA4C); (0xAA70, 0xAA70); (0xAA7C, 0xAA7C); (0xAAB0, 0xAAB0);
   (0xAAB2, 0xAAB4); (0xAAB7, 0xAAB8); (0xAABE, 0xAABF); (0xAAC1, 0xAAC1); (0xAADD, 0xAADD); (0xAAEC, 0xAAED);
   (0xAAF3, 0xAAF4); (0xAAF6, 0xAAF6); (0xAB5B, 0xAB5F); (0xAB69, 0xAB6B); (0xABE5, 0xABE5); (0xABE8, 0xABE8);
   (0xABED, 0xABED); (0xFB1E, 0xFB1E); (0xFBB2, 0xFBC2); (0xFE00, 0xFE0F); (0xFE13, 0xFE13); (0xFE20, 0xFE2F);
   (0xFE52, 0xFE52); (0xFE55, 0xFE55); (0xFEFF, 0xFEFF); (0xFF07, 0xFF07); (0xFF0E, 0xFF0E); (0xFF1A, 0xFF1A);
   (0xFF3E, 0xFF3E); (0xFF40, 0xFF40); (0xFF70, 0xFF70); (0xFF9E, 0xFF9F); (0xFFE3, 0xFFE3); (0xFFF9, 0xFFFB);
   (0x101FD, 0x101FD); (0x102E0, 0x102E0); (0x10376, 0x1037A); (0x10780, 0x10785); (0x10787, 0x107B0); (0x107B2, 0x107BA);
   (0x10A01, 0x10A03); (0x10A05, 0x10A06); (0x10A0C, 0x10A0F); (0x10A38, 0x10A3A); (0x10A3F, 0x10A3F); (0x10AE5, 0x10AE6);
   (0x10D24, 0x10D27); (0x10EAB, 0x10EAC); (0x10F46, 0x10F50); (0x10F82, 0x10F85); (0x11001, 0x11001); (0x11038, 0x11046);
   (0x11070, 0x11070); (0x11073, 0x11074); (0x1107F, 0x11081); (0x110B3, 0x110B6); (0x110B9, 0x110BA); (0x110BD, 0x110BD);
   (0x110C2, 0x110C2); (0x110CD, 0x110CD); (0x11100, 0x11102); (0x11127, 0x1112B); (0x1112D, 0x11134); (0x11173, 0x11173);
   (0x11180, 0x11181); (0x111B6, 0x111BE); (0x111C9, 0x111CC); (0x111CF, 0x111CF); (0x1122F, 0x11231); (0x11234, 0x11234);
   (0x11236, 0x11237); (0x1123E, 0x1123E); (0x112DF, 0x112DF); (0x112E3, 0x112EA); (0x11300, 0x11301); (0x1133B, 0x1133C);
   (0x11340, 0x11340); (0x11366, 0x1136C); (0x11370, 0x11374); (0x11438, 0x1143F); (0x11442, 0x11444); (0x11446, 0x11446);
   (0x1145E, 0x1145E); (0x114B3, 0x114B8); (0x114BA, 0x114BA); (0x114BF, 0x114C0); (0x114C2, 0x114C3); (0x115B2, 0x115B5);
   (0x115BC, 0x115BD); (0x115BF, 0x115C0); (0x115DC, 0x115DD); (0x11633, 0x1163A); (0x1163D, 0x1163D); (0x1163F, 0x11640);
   (0x116AB, 0x116AB); (0x116AD, 0x116AD); (0x116B0, 0x116B5); (0x116B7, 0x116B7); (0x1171D, 0x1171F); (0x11722, 0x11725);
   (0x11727, 0x1172B); (0x1182F, 0x11837); (0x11839, 0x1183A); (0x1193B, 0x1193C); (0x1193E, 0x1193E); (0x11943, 0x11943);
   (0x119D4, 0x119D7); (0x119DA, 0x119DB); (0x119E0, 0x119E0); (0x11A01, 0x11A0A); (0x11A33, 0x11A38); (0x11A3B, 0x11A3E);
   (0x11A47, 0x11A47); (0x11A51, 0x11A56); (0x11A59, 0x11A5B); (0x11A8A, 0x11A96); (0x11A98, 0x11A99); (0x11C30, 0x11C36);
   (0x11C38, 0x11C3D); (0x11C3F, 0x11C3F); (0x11C92, 0x11CA7); (0x11CAA, 0x11CB0); (0x11CB2, 0x11CB3); (0x11CB5, 0x11CB6);
   (0x11D31, 0x11D36); (0x11D3A, 0x11D3A); (0x11D3C, 0x11D3D); (0x11D3F, 0x11D45); (0x11D47, 0x11D47); (0x11D90, 0x11D91);
   (0x11D95, 0x11D95); (0x11D97, 0x11D97); (0x11EF3, 0x11EF4); (0x13430, 0x13438); (0x16AF0, 0x16AF4); (0x16B30, 0x16B36);
   (0x16B40, 0x16B43); (0x16F4F, 0x16F4F); (0x16F8F, 0x16F9F); (0x16FE0, 0x16FE1); (0x16FE3, 0x16FE4); (0x1AFF0, 0x1AFF3);
   (0x1AFF5, 0x1AFFB); (0x1AFFD, 0x1AFFE); (0x1BC9D, 0x1BC9E); (0x1BCA0, 0x1BCA3); (0x1CF00, 0x1CF2D); (0x1CF30, 0x1CF46);
   (0x1D167, 0x1D169); (0x1D173, 0x1D182); (0x1D185, 0x1D18B); (0x1D1AA, 0x1D1AD); (0x1D242, 0x1D244); (0x1DA00, 0x1DA36);
   (0x1DA3B, 0x1DA6C); (0x1DA75, 0x1DA75); (0x1DA84, 0x1DA84); (0x1DA9B, 0x1DA9F); (0x1DAA1, 0x1DAAF); (0x1E000, 0x1E006);
   (0x1E008, 0x1E018); (0x1E01B, 0x1E021); (0x1E023, 0x1E024); (0x1E026, 0x1E02A); (0x1E130, 0x1E13D); (0x1E2AE, 0x1E2AE);
   (0x1E2EC, 0x1E2EF); (0x1E8D0, 0x1E8D6); (0x1E944, 0x1E94B); (0x1F3FB, 0x1F3FF); (0xE0001, 0xE0001); (0xE0020, 0xE007F);
   (0xE0100, 0xE01EF)].

End Unicode.

(** ** Strings

    A JavaScript string is held as its UTF-8 encoding, one [ascii] per
    byte; strings with an unpaired surrogate, which have no such encoding,
    are left out.  Tests for a prefix or a substring and the regular
    expressions of the sources, which name ASCII characters only, read the
    bytes as they are; white space and lower-casing look at the characters
    the bytes encode. *)

Module Js.
Local Open Scope Z_scope.

Definition isDigit (c : ascii) : bool :=
  (48 <=? nat_of_ascii c)%nat && (nat_of_ascii c <=? 57)%nat.

(** White space is what [trim] removes and [\s] matches: WhiteSpace and
    LineTerminator.  In one byte: TAB, LF, VT, FF, CR and SPACE. *)
Definition isSpace1 (a : ascii) : bool :=
  ((9 <=? nat_of_ascii a)%nat && (nat_of_ascii a <=? 13)%nat) || (nat_of_ascii a =? 32)%nat.

(** In two bytes: U+00A0. *)
Definition isSpace2 (a b : ascii) : bool :=
  (nat_of_ascii a =? 194)%nat && (nat_of_ascii b =? 160)%nat.

(** In three bytes: U+1680, U+2000 to U+200A, U+2028, U+2029, U+202F,
    U+205F, U+3000 and U+FEFF. *)
Definition isSpace3 (a b c : ascii) : bool :=
  let a := nat_of_ascii a in
  let b := nat_of_ascii b in
  let c := nat_of_ascii c in
  ((a =? 225) && (b =? 154) && (c =? 128)
   || (a =? 226) && (b =? 128)
      && ((128 <=? c) && (c <=? 138) || (c =? 168) || (c =? 169) || (c =? 175))
   || (a =? 226) && (b =? 129) && (c =? 159)
   || (a =? 227) && (b =? 128) && (c =? 128)
   || (a =? 239) && (b =? 187) && (c =? 191))%nat.

(** The ASCII letters in lower case: what the [i] flag of a regular
    expression without the [u] flag identifies with [a-z]. *)
Definition lowerChar (c : ascii) : ascii :=
  if (65 <=? nat_of_ascii c)%nat && (nat_of_ascii c <=? 90)%nat
  then ascii_of_nat (nat_of_ascii c + 32) else c.

Definition code (c : ascii) : Z := Z.of_N (N_of_ascii c).
Definition byte (z : Z) : ascii := ascii_of_N (Z.to_N z).

Definition isContinuation (c : ascii) : bool := (0x80 <=? code c) && (code c <? 0xC0).

(** The code points of a string.  A byte that starts no sequence stands
    for itself, as 0x110000 plus the byte. *)
Fixpoint codePoints (s : string) : list Z :=
  match s with
  | EmptyString => []
  | String a r =>
      let stray := (0x110000 + code a) :: codePoints r in
      if code a <? 0x80 then code a :: codePoints r
      else if code a <? 0xC2 then stray
      else
        match r with
        | String b r2 =>
            if negb (isContinuation b) then stray
            else if code a <? 0xE0
            then ((code a - 0xC0) * 0x40 + (code b - 0x80)) :: codePoints r2
            else
              match r2 with
              | String c r3 =>
                  if negb (isContinuation c) then stray
                  else if code a <? 0xF0
                  then ((code a - 0xE0) * 0x1000 + (code b - 0x80) * 0x40 + (code c - 0x80))
                       :: codePoints r3
                  else
                    match r3 with
                    | String d r4 =>
                        if isContinuation d && (code a <? 0xF5)
                        then ((code a - 0xF0) * 0x40000 + (code b - 0x80) * 0x1000
                              + (code c - 0x80) * 0x40 + (code d - 0x80)) :: codePoints r4
                        else stray
                    | EmptyString => stray
                    end
              | EmptyString => stray
              end
        | EmptyString => stray
        end
  end.

Definition encodePoint (p : Z) : list ascii :=
  if p <? 0x80 then [byte p]
  else if p <? 0x800 then [byte (0xC0 + p / 0x40); byte (0x80 + p mod 0x40)]
  else if p <? 0x10000
  then [byte (0xE0 + p / 0x1000); byte (0x80 + (p / 0x40) mod 0x40); byte (0x80 + p mod 0x40)]
  else if p <? 0x110000
  then [byte (0xF0 + p / 0x40000); byte (0x80 + (p / 0x1000) mod 0x40);
        byte (0x80 + (p / 0x40) mod 0x40); byte (0x80 + p mod 0x40)]
  else [byte (p - 0x110000)].

Definition encode (l : list Z) : string := string_of_list_ascii (flat_map encodePoint l).

Definition inRanges (t : list (Z * Z)) (p : Z) : bool :=
  existsb (fun '(first, last) => (first <=? p) && (p <=? last)) t.

Definition caseIgnorable (p : Z) : bool := inRanges Unicode.caseIgnorable p.

(** Cased and not case-ignorable. *)
Definition cased (p : Z) : bool := inRanges Unicode.cased p.

Definition lowerPoint (p : Z) : Z :=
  match find (fun '(first, last, step, _) =>
                (first <=? p) && (p <=? last) && ((p - first) mod step =? 0))
             Unicode.lower with
  | Some (_, _, _, offset) => p + offset
  | None => p
  end.

(** A cased letter follows, case-ignorable characters skipped. *)
Fixpoint casedFollows (l : list Z) : bool :=
  match l with
  | [] => false
  | p :: r => if caseIgnorable p then casedFollows r else cased p
  end.

(** The default case conversion of one character, [r] being what follows
    it and [casedBefore] whether a cased letter precedes it, case-ignorable
    characters skipped on both sides: U+0130 becomes U+0069 U+0307; U+03A3
    becomes the final sigma U+03C2 when a cased letter precedes and none
    follows, else U+03C3; every other character becomes its lower-case
    mapping. *)
Definition lowerOne (casedBefore : bool) (p : Z) (r : list Z) : list Z :=
  if p =? 0x3A3 then [if casedBefore && negb (casedFollows r) then 0x3C2 else 0x3C3]
  else if p =? 0x130 then [0x69; 0x307]
  else [lowerPoint p].

Fixpoint lowerPoints (casedBefore : bool) (l : list Z) : list Z :=
  match l with
  | [] => []
  | p :: r =>
      lowerOne casedBefore p r
      ++ lowerPoints (if caseIgnorable p then casedBefore else cased p) r
  end.

(** [s.toLowerCase()] *)
Definition toLowerCase (s : string) : string :=
  encode (lowerPoints false (codePoints s)).

(** [s.startsWith(p)] *)
Fixpoint startsWith (s p : string) : bool :=
  match p, s with
  | EmptyString, _ => true
  | String a p', String b s' => bool_decide (a = b) && startsWith s' p'
  | String _ _, EmptyString => false
  end.

(** [hay.includes(needle)] *)
Fixpoint includes (hay needle : string) : bool :=
  startsWith hay needle ||
  match hay with
  | EmptyString => false
  | String _ r => includes r needle
  end.

(** [s.trimStart()] *)
Fixpoint trimStart (s : string) : string :=
  match s with
  | EmptyString => EmptyString
  | String a r =>
      if isSpace1 a then trimStart r
      else
        match r with
        | String b r2 =>
            if isSpace2 a b then trimStart r2
            else
              match r2 with
              | String c r3 => if isSpace3 a b c then trimStart r3 else s
              | EmptyString => s
              end
        | EmptyString => s
        end
  end.

(** [s.trimEnd()]: the string is cut where only white space follows. *)
Fixpoint trimEnd (s : string) : string :=
  match s with
  | EmptyString => EmptyString
  | String a r =>
      match trimStart s with
      | EmptyString => EmptyString
      | _ => String a (trimEnd r)
      end
  end.

(** [s.trim()] *)
Definition trim (s : string) : string := trimEnd (trimStart s).

(** [s.split(/\s+/).filter(Boolean)]: the maximal runs of characters that
    are not white space, in order.  [cur] is the run being read, reversed. *)
Fixpoint words_go (s : string) (cur : list ascii) : list string :=
  let flush (k : list string) :=
    match cur with [] => k | _ => string_of_list_ascii (rev cur) :: k end in
  match s with
  | EmptyString => flush []
  | String a r =>
      if isSpace1 a then flush (words_go r [])
      else
        match r with
        | String b r2 =>
            if isSpace2 a b then flush (words_go r2 [])
            else
              match r2 with
              | String c r3 =>
                  if isSpace3 a b c then flush (words_go r3 []) else words_go r (a :: cur)
              | EmptyString => words_go r (a :: cur)
              end
        | EmptyString => words_go r (a :: cur)
        end
  end.

Definition words (s : string) : list string := words_go s [].

(** [xs.join(sep)] *)
Fixpoint join (sep : string) (xs : list string) : string :=
  match xs with
  | [] => ""
  | [x] => x
  | x :: r => x +:+ sep +:+ join sep r
  end.

End Js.

(** ** Documents *)

(** ["movie" | "place"] *)
Inductive PollType := TypeMovie | TypePlace.

Definition pollTypeString (t : PollType) : string :=
  match t with TypeMovie => "movie" | TypePlace => "place" end.

(** ["join" | "maybe" | "no"] *)
Inductive Choice := Join | Maybe | No.

Definition choiceString (c : Choice) : string :=
  match c with Join => "join" | Maybe => "maybe" | No => "no" end.

(** A JS number.  These sources do not compute with one: a number is
    handed on, tested for truthiness ([x || 0]) and printed.  It is held as
    the text [Number.prototype.toString] gives for it ("42", "7.5",
    "1e+21", "NaN"), which tells two numbers apart up to the sign of zero. *)
Module Number.
Record t := mk { toString : string }.
Definition zero : t := mk "0".
(** [0], [-0] and [NaN] are the falsy numbers. *)
Definition falsy (n : t) : bool :=
  bool_decide (toString n = "0") || bool_decide (toString n = "NaN").
End Number.

Definition number := Number.t.

(** [x || d] on an optional number. *)
Definition orNumber (x : option number) (d : number) : number :=
  match x with
  | Some n => if Number.falsy n then d else n
  | None => d
  end.

(** The object a poll's [metadata] holds once decoded. *)
Module Metadata.
Record t := mk {
  date : option string;
  time : option string;
  releaseDate : option string;
  rating : option number;
  types : option (list string);
  source : option string;
  latitude : option number;
  longitude : option number
}.
Definition empty : t := mk None None None None None None None None.
End Metadata.

(** A string attribute meant to hold JSON, by what [JSON.parse] makes of
    it: the text of an object, given by the fields these sources read or
    write ([JSON.stringify m]); the text of a number, a string, a boolean
    or an array, which parses to a value with none of these fields; the
    text [null]; the empty string; any other string, which is not JSON. *)
Inductive JsonText :=
| Encoded (m : Metadata.t)
| OtherValue
| NullText
| EmptyText
| Malformed.

Inductive MetadataField :=
| MetaString (s : JsonText)
| MetaObject (m : Metadata.t)
| MetaUndefined.

Module Poll.
Record t := mk {
  id : string;              (* $id *)
  createdAt : nat;          (* $createdAt, set by the gateway *)
  groupId : string;
  creatorId : string;
  creatorName : string;
  type : string;
  externalId : string;
  title : string;
  description : string;
  image : string;
  choices : list string;
  active : bool;
  metadata : MetadataField
}.
Definition set_active (b : bool) (p : t) : t :=
  mk (id p) (createdAt p) (groupId p) (creatorId p) (creatorName p) (type p) (externalId p)
     (title p) (description p) (image p) (choices p) b (metadata p).
End Poll.

Module Vote.
Record t := mk {
  id : string;
  pollId : string;
  userId : string;
  choice : string
}.
Definition set_choice (c : string) (v : t) : t := mk (id v) (pollId v) (userId v) c.
End Vote.

Module UserDoc.
Record t := mk {
  id : string;
  userId : string;
  genres : option (list string)
}.
End UserDoc.

Module PlaceResult.
Record t := mk {
  place_id : string;
  name : string;
  formatted_address : string;
  rating : option number;
  types : option (list string);
  lat : option number;
  lon : option number
}.
End PlaceResult.

Module MovieResult.
Record t := mk {
  id : number;
  title : string;
  overview : string;
  poster_path : string;
  release_date : option string;
  vote_average : number;
  genre_ids : option (list number)
}.
End MovieResult.

Inductive Item :=
| PlaceItem (p : PlaceResult.t)
| MovieItem (m : MovieResult.t).

(** The value of [searchResults] for a group: both writers store a
    homogeneous array, of places or of movies. *)
Inductive Results :=
| Places (l : list PlaceResult.t)
| Movies (l : list MovieResult.t).

(** ** Calls on the gateway, exceptions *)

Inductive Collection := MESSAGES | POLLS | VOTES | USERS | NOTIFICATIONS.

Inductive Call :=
| ListDocuments (c : Collection)
| GetDocument (c : Collection)
| CreateDocument (c : Collection)
| UpdateDocument (c : Collection)
| DeleteDocument (c : Collection).

Inductive Exn :=
| AppwriteException (c : Call)
| Error (message : string)
| SyntaxError
| TypeError.

Inductive Res (A : Type) :=
| Ok (a : A)
| Throw (e : Exn).
Arguments Ok {A} a.
Arguments Throw {A} e.

(** Message bodies are kept as the template that produced them together
    with the interpolated values; rendering them to text is not modelled. *)
Inductive Text :=
| UserText (s : string)
| NewPollCreated (title : string)
| UsageOutings
| Searching (category location : string)
| NoPlacesFound (category location : string)
| PlaceSuggestions (category location : string) (top : list PlaceResult.t)
| FetchSuggestionsFailed (e : Exn)
| FindingMovies
| NoGenresInProfile
| NoMoviesFound
| MovieSuggestions (userName : string) (genres : list string) (movies : list MovieResult.t)
| FetchMoviesFailed (e : Exn)
| UsageSelect
| NoSearchResults
| ItemNotFound (options : list string)
| SelectedMovie (m : MovieResult.t)
| SelectedPlace (p : PlaceResult.t)
| NoItemSelected
| UsageWhen
| PollCreated (isMovie : bool) (title description date time : string)
| CreatePollFailed (e : Exn)
| NoActivePollToSummarize
| RsvpSummary (active : Poll.t) (meta : Metadata.t) (joining maybes notJoining : nat)
| NoActivePlanToLock
| PlanLocked (active : Poll.t) (meta : Metadata.t) (joiners maybes : nat)
| PlanConfirmed (active : Poll.t) (meta : Metadata.t) (groupName : option string) (joiners : nat)
| HelpText
| UnknownCommand.

Module Message.
Record t := mk {
  id : string;
  groupId : string;
  senderId : string;
  senderName : string;
  senderAvatar : string;
  text : Text;
  pollId : option string;
  isSystemMessage : option bool
}.
End Message.

Module NotificationMetadata.
Record t := mk {
  groupId : string;
  groupName : option string;
  pollId : string;
  place : string;
  address : string;
  date : option string;
  time : option string;
  attendees : nat;
  type : string
}.
End NotificationMetadata.

Module Notification.
Record t := mk {
  id : string;
  userId : string;
  text : Text;
  metadata : option NotificationMetadata.t;
  read : bool;
  type : string
}.
End Notification.

(** ** The world: collections, PlanBot's module-level maps, counters *)

Record Db := mkDb {
  polls : list Poll.t;
  votes : list Vote.t;
  messages : list Message.t;
  notifications : list Notification.t;
  users : list UserDoc.t
}.

Record World := mkWorld {
  db : Db;
  selectedItems : gmap string Item;       (* const selectedItems = new Map() *)
  searchResults : gmap string Results;    (* const searchResults = new Map() *)
  calls : nat;                            (* gateway calls issued so far; the gateway's clock *)
  issued : nat;                           (* ID.unique() results handed out so far *)
  console : list string                   (* console.error lines, oldest first *)
}.

Definition with_db (d : Db) (w : World) : World :=
  mkWorld d (selectedItems w) (searchResults w) (calls w) (issued w) (console w).
Definition with_selectedItems (m : gmap string Item) (w : World) : World :=
  mkWorld (db w) m (searchResults w) (calls w) (issued w) (console w).
Definition with_searchResults (m : gmap string Results) (w : World) : World :=
  mkWorld (db w) (selectedItems w) m (calls w) (issued w) (console w).
Definition with_calls (n : nat) (w : World) : World :=
  mkWorld (db w) (selectedItems w) (searchResults w) n (issued w) (console w).
Definition with_issued (n : nat) (w : World) : World :=
  mkWorld (db w) (selectedItems w) (searchResults w) (calls w) n (console w).
Definition with_console (l : list string) (w : World) : World :=
  mkWorld (db w) (selectedItems w) (searchResults w) (calls w) (issued w) l.

(** What the program cannot decide itself: whether the backend rejects the
    [n]-th call (network, permission, missing document id, ...), which
    string [ID.unique()] returns, and what the lookup providers answer. *)
Record Env := mkEnv {
  rejects : Call -> nat -> bool;
  unique : nat -> string;
  TMDB_API_KEY : option string;
  placesProvider : string -> string -> Res (list PlaceResult.t);
  moviesProvider : list string -> Res (list MovieResult.t)
}.

(** ** The monad of awaited steps *)

Definition M (A : Type) : Type := World -> Res A * World.

Definition ret {A} (a : A) : M A := fun w => (Ok a, w).

Definition throw {A} (e : Exn) : M A := fun w => (Throw e, w).

Definition bind {A B} (m : M A) (k : A -> M B) : M B := fun w =>
  match m w with
  | (Ok a, w') => k a w'
  | (Throw e, w') => (Throw e, w')
  end.

(** [try { m } catch (error) { h error }]: what [m] did to the world
    before throwing stays done. *)
Definition try_catch {A} (m : M A) (h : Exn -> M A) : M A := fun w =>
  match m w with
  | (Ok a, w') => (Ok a, w')
  | (Throw e, w') => h e w'
  end.

Notation "x <- m ;; k" := (bind m (fun x => k))
  (at level 100, m at next level, right associativity).
Notation "m ;;; k" := (bind m (fun _ => k))
  (at level 100, right associativity).

(** [await Promise.all(ps)]: the calls were all issued when the array was
    built, so every one of them runs; the await throws the first rejection. *)
Fixpoint Promise_all {A} (ps : list (M A)) : M (list A) :=
  match ps with
  | [] => ret []
  | p :: rest => fun w =>
      let '(r, w1) := p w in
      let '(rs, w2) := Promise_all rest w1 in
      (match r, rs with
       | Ok a, Ok l => Ok (a :: l)
       | Throw e, _ => Throw e
       | Ok _, Throw e => Throw e
       end, w2)
  end.

(** [for (const x of l) { await body(x) }]: stops at the first throw. *)
Fixpoint for_of {A} (l : list A) (body : A -> M unit) : M unit :=
  match l with
  | [] => ret tt
  | x :: rest => body x ;;; for_of rest body
  end.

Definition console_error (line : string) : M unit := fun w =>
  (Ok tt, with_console (console w ++ [line]) w).

Definition ID_unique (env : Env) : M string := fun w =>
  (Ok (unique env (issued w)), with_issued (S (issued w)) w).

(** ** The gateway ([databases.*]) *)

Module Query.
Inductive t (D : Type) :=
| equal (field : D -> string) (value : string)
| equalB (field : D -> bool) (value : bool)
| orderDesc (key : D -> nat)
| limit (n : nat).
Arguments equal {D} field value.
Arguments equalB {D} field value.
Arguments orderDesc {D} key.
Arguments limit {D} n.

Definition matches {D} (q : t D) (x : D) : bool :=
  match q with
  | equal f v => bool_decide (f x = v)
  | equalB f v => Bool.eqb (f x) v
  | orderDesc _ => true
  | limit _ => true
  end.

(** Stable insertion by decreasing key. *)
Fixpoint insertDesc {D} (key : D -> nat) (x : D) (l : list D) : list D :=
  match l with
  | [] => [x]
  | y :: r => if (key y <=? key x)%nat then x :: y :: r else y :: insertDesc key x r
  end.

Definition sortDesc {D} (key : D -> nat) (l : list D) : list D :=
  fold_right (insertDesc key) [] l.

Definition ordered {D} (qs : list (t D)) (l : list D) : list D :=
  fold_right (fun q acc => match q with orderDesc k => sortDesc k acc | _ => acc end) l qs.

Definition limited {D} (qs : list (t D)) (l : list D) : list D :=
  fold_left (fun acc q => match q with limit n => take n acc | _ => acc end) qs l.

(** Documents come back in creation order unless a query orders them, and
    all matching documents come back unless a query limits them (a page
    size that the backend applies on its own is outside these sources). *)
Definition run {D} (qs : list (t D)) (l : list D) : list D :=
  limited qs (ordered qs (List.filter (fun x => forallb (fun q => matches q x) qs) l)).
End Query.

Record Coll (D : Type) := mkColl {
  tag : Collection;
  docs : Db -> list D;
  put : list D -> Db -> Db;
  docId : D -> string
}.
Arguments tag {D} _.
Arguments docs {D} _ _.
Arguments put {D} _ _ _.
Arguments docId {D} _ _.

Module COLLECTIONS.
Definition POLLS : Coll Poll.t :=
  mkColl _ POLLS polls
    (fun l d => mkDb l (votes d) (messages d) (notifications d) (users d)) Poll.id.
Definition VOTES : Coll Vote.t :=
  mkColl _ VOTES votes
    (fun l d => mkDb (polls d) l (messages d) (notifications d) (users d)) Vote.id.
Definition MESSAGES : Coll Message.t :=
  mkColl _ MESSAGES messages
    (fun l d => mkDb (polls d) (votes d) l (notifications d) (users d)) Message.id.
(** Modelled from the spec: [COLLECTIONS.NOTIFICATIONS], which
    lib/planbot.ts writes to, is not declared in the available
    lib/appwrite.ts.  The spec lists Notification among the record kinds
    of the persistence gateway, so it is a collection like the others. *)
Definition NOTIFICATIONS : Coll Notification.t :=
  mkColl _ NOTIFICATIONS notifications
    (fun l d => mkDb (polls d) (votes d) (messages d) l (users d)) Notification.id.
Definition USERS : Coll UserDoc.t :=
  mkColl _ USERS users
    (fun l d => mkDb (polls d) (votes d) (messages d) (notifications d) l) UserDoc.id.
End COLLECTIONS.

Module databases.

(** One call on the backend: it is counted, then either rejected or run. *)
Definition request {A} (env : Env) (c : Call) (run : Db -> Res A * Db) : M A := fun w =>
  let w' := with_calls (S (calls w)) w in
  if rejects env c (calls w) then (Throw (AppwriteException c), w')
  else let '(r, d) := run (db w) in (r, with_db d w').

Definition hasId {D} (C : Coll D) (id : string) (x : D) : bool :=
  bool_decide (docId C x = id).

Definition listDocuments {D} (env : Env) (C : Coll D) (queries : list (Query.t D)) : M (list D) :=
  request env (ListDocuments (tag C)) (fun d => (Ok (Query.run queries (docs C d)), d)).

Definition getDocument {D} (env : Env) (C : Coll D) (id : string) : M D :=
  request env (GetDocument (tag C)) (fun d =>
    match find (hasId C id) (docs C d) with
    | Some x => (Ok x, d)
    | None => (Throw (AppwriteException (GetDocument (tag C))), d)
    end).

(** [data] receives the document id and the creation time. *)
Definition createDocument {D} (env : Env) (C : Coll D) (id : string)
    (data : string -> nat -> D) : M D := fun w =>
  request env (CreateDocument (tag C)) (fun d =>
    let x := data id (calls w) in (Ok x, put C (docs C d ++ [x]) d)) w.

(** The updated document that the SDK returns is used by no caller. *)
Definition updateDocument {D} (env : Env) (C : Coll D) (id : string) (patch : D -> D) : M unit :=
  request env (UpdateDocument (tag C)) (fun d =>
    if existsb (hasId C id) (docs C d)
    then (Ok tt, put C (map (fun x => if hasId C id x then patch x else x) (docs C d)) d)
    else (Throw (AppwriteException (UpdateDocument (tag C))), d)).

Definition deleteDocument {D} (env : Env) (C : Coll D) (id : string) : M unit :=
  request env (DeleteDocument (tag C)) (fun d =>
    if existsb (hasId C id) (docs C d)
    then (Ok tt, put C (List.filter (fun x => negb (hasId C id x)) (docs C d)) d)
    else (Throw (AppwriteException (DeleteDocument (tag C))), d)).

End databases.

(** ** lib/pollHelpers.ts *)

Module PollData.
Record t := mk {
  groupId : string;
  creatorId : string;
  creatorName : string;
  type : PollType;
  externalId : string;
  title : string;
  description : option string;
  image : option string;
  metadata : option Metadata.t
}.
End PollData.

(** [x || d] on an optional string: the empty string is falsy too. *)
Definition orString (x : option string) (d : string) : string :=
  match x with
  | Some s => if bool_decide (s = "") then d else s
  | None => d
  end.

Definition JSON_stringify (m : Metadata.t) : JsonText := Encoded m.

(** [JSON.parse(s)]: [None] is [null]; a value that is not an object is
    seen as an object without fields, which is what reading a field of it
    gives. *)
Definition JSON_parse (s : JsonText) : M (option Metadata.t) :=
  match s with
  | Encoded m => ret (Some m)
  | OtherValue => ret (Some Metadata.empty)
  | NullText => ret None
  | EmptyText | Malformed => throw SyntaxError
  end.

Module PollHelpers.
Import databases.

(** The permissions array passed to [createDocument] is not modelled:
    nothing in these sources reads it back. *)
Definition createPoll (env : Env) (pollData : PollData.t) : M Poll.t :=
  try_catch
    ((* Step 1: Fetch all polls in this group *)
     existingPolls <- listDocuments env COLLECTIONS.POLLS
                        [Query.equal Poll.groupId (PollData.groupId pollData)] ;;
     (* Step 2: Deactivate all active polls in this group *)
     let deactivatePromises :=
       map (fun poll => updateDocument env COLLECTIONS.POLLS (Poll.id poll) (Poll.set_active false))
           (List.filter Poll.active existingPolls) in
     Promise_all deactivatePromises ;;;
     (* Step 3: Create the new poll *)
     id <- ID_unique env ;;
     newPoll <- createDocument env COLLECTIONS.POLLS id (fun id at_ =>
       Poll.mk id at_
         (PollData.groupId pollData)
         (PollData.creatorId pollData)
         (PollData.creatorName pollData)
         (pollTypeString (PollData.type pollData))
         (PollData.externalId pollData)
         (PollData.title pollData)
         (orString (PollData.description pollData) "")
         (orString (PollData.image pollData) "")
         ["join"; "maybe"; "no"]
         true
         (MetaString (JSON_stringify (default Metadata.empty (PollData.metadata pollData))))) ;;
     ret newPoll)
    (fun error => console_error "Error creating poll:" ;;; throw error).

Definition deletePoll (env : Env) (pollId userId : string) : M unit :=
  try_catch
    (poll <- getDocument env COLLECTIONS.POLLS pollId ;;
     if negb (bool_decide (Poll.creatorId poll = userId))
     then throw (Error "You don't have permission to delete this poll")
     else
       votes <- listDocuments env COLLECTIONS.VOTES [Query.equal Vote.pollId pollId] ;;
       let deleteVotesPromises :=
         map (fun vote => deleteDocument env COLLECTIONS.VOTES (Vote.id vote)) votes in
       Promise_all deleteVotesPromises ;;;
       deleteDocument env COLLECTIONS.POLLS pollId)
    (fun error => console_error "Error deleting poll:" ;;; throw error).

Definition deactivatePoll (env : Env) (pollId userId : string) : M unit :=
  try_catch
    (poll <- getDocument env COLLECTIONS.POLLS pollId ;;
     if negb (bool_decide (Poll.creatorId poll = userId))
     then throw (Error "You don't have permission to deactivate this poll")
     else updateDocument env COLLECTIONS.POLLS pollId (Poll.set_active false))
    (fun error => console_error "Error deactivating poll:" ;;; throw error).

Definition activatePoll (env : Env) (pollId userId : string) : M unit :=
  try_catch
    (poll <- getDocument env COLLECTIONS.POLLS pollId ;;
     if negb (bool_decide (Poll.creatorId poll = userId))
     then throw (Error "You don't have permission to activate this poll")
     else
       (* Deactivate all other polls in the same group *)
       let groupId := Poll.groupId poll in
       existingPolls <- listDocuments env COLLECTIONS.POLLS
                          [Query.equal Poll.groupId groupId; Query.equalB Poll.active true] ;;
       let deactivatePromises :=
         map (fun p => updateDocument env COLLECTIONS.POLLS (Poll.id p) (Poll.set_active false))
             (List.filter (fun p => negb (bool_decide (Poll.id p = pollId))) existingPolls) in
       Promise_all deactivatePromises ;;;
       (* Activate this poll *)
       updateDocument env COLLECTIONS.POLLS pollId (Poll.set_active true))
    (fun error => console_error "Error activating poll:" ;;; throw error).

(** [polls.documents[0] || null] *)
Definition getActivePoll (env : Env) (groupId : string) : M (option Poll.t) :=
  try_catch
    (polls <- listDocuments env COLLECTIONS.POLLS
                [Query.equal Poll.groupId groupId; Query.equalB Poll.active true; Query.limit 1] ;;
     ret (head polls))
    (fun error => console_error "Error getting active poll:" ;;; ret None).

Definition getGroupPolls (env : Env) (groupId : string) : M (list Poll.t) :=
  try_catch
    (polls <- listDocuments env COLLECTIONS.POLLS
                [Query.equal Poll.groupId groupId; Query.orderDesc Poll.createdAt; Query.limit 100] ;;
     ret polls)
    (fun error => console_error "Error getting group polls:" ;;; ret []).

Definition getPollVotes (env : Env) (pollId : string) : M (list Vote.t) :=
  try_catch
    (votes <- listDocuments env COLLECTIONS.VOTES [Query.equal Vote.pollId pollId] ;;
     ret votes)
    (fun error => console_error "Error getting poll votes:" ;;; ret []).

Definition castVote (env : Env) (pollId userId : string) (choice : Choice) : M unit :=
  try_catch
    ((* Check if user already voted *)
     existingVotes <- listDocuments env COLLECTIONS.VOTES
                        [Query.equal Vote.pollId pollId; Query.equal Vote.userId userId] ;;
     match existingVotes with
     | existing :: _ =>
         (* Update existing vote *)
         updateDocument env COLLECTIONS.VOTES (Vote.id existing)
           (Vote.set_choice (choiceString choice))
     | [] =>
         (* Create new vote *)
         id <- ID_unique env ;;
         createDocument env COLLECTIONS.VOTES id (fun id _ =>
           Vote.mk id pollId userId (choiceString choice)) ;;;
         ret tt
     end)
    (fun error => console_error "Error casting vote:" ;;; throw error).

End PollHelpers.

(** ** lib/planbot.ts *)

Module User.
Record t := mk {
  id : string;
  name : string;
  avatar : option string
}.
End User.

Module Group.
Record t := mk {
  id : string;
  name : string;
  members : option (list string)
}.
End Group.

Module PlanbotContext.
Record t := mk {
  groupId : string;
  currentUser : User.t;
  group : option Group.t
}.
End PlanbotContext.

Module PlanbotResult.
Record t := mk { handled : bool }.
End PlanbotResult.

Module Planbot.
Import databases.

Definition sendSystemMessage (env : Env) (groupId : string) (text : Text) : M unit :=
  id <- ID_unique env ;;
  createDocument env COLLECTIONS.MESSAGES id (fun id _ =>
    Message.mk id groupId "planbot" "PlanBot" "" text None (Some true)) ;;;
  ret tt.

Definition sendPersonalNotification (env : Env) (userId : string) (text : Text)
    (metadata : option NotificationMetadata.t) : M unit :=
  try_catch
    (id <- ID_unique env ;;
     createDocument env COLLECTIONS.NOTIFICATIONS id (fun id _ =>
       Notification.mk id userId text metadata false "plan_confirmation") ;;;
     ret tt)
    (fun error => console_error "Failed to send notification:").

(** [replace(/^\/?|^!/, "")]: the first alternative matches at position 0
    whether or not a slash is there, so one leading slash is removed and
    the second alternative is never tried. *)
Definition stripPrefix (s : string) : string :=
  match s with
  | String "/" r => r
  | _ => s
  end.

Definition parseArgs (input : string) : string * list string :=
  let trimmed := stripPrefix (Js.trim input) in
  let parts := Js.words trimmed in
  let cmd := Js.toLowerCase (default "" (head parts)) in
  (cmd, tail parts).

(** The body of [searchPlaces]'s try block (two HTTP requests and the
    mapping of the answer) is the environment's [placesProvider]. *)
Definition searchPlaces (env : Env) (location category : string) : M (list PlaceResult.t) :=
  match placesProvider env location category with
  | Ok places => ret places
  | Throw error => console_error "Places search error:" ;;; ret []
  end.

Definition getUserGenres (env : Env) (userId : string) : M (list string) :=
  try_catch
    (response <- listDocuments env COLLECTIONS.USERS [Query.equal UserDoc.userId userId] ;;
     match response with
     | userDoc :: _ => ret (default [] (UserDoc.genres userDoc))
     | [] => ret []
     end)
    (fun error => console_error "Error fetching user genres:" ;;; ret []).

(** The body of [searchMoviesByGenres]'s try block is the environment's
    [moviesProvider]. *)
Definition searchMoviesByGenres (env : Env) (genres : list string) : M (list MovieResult.t) :=
  if bool_decide (orString (TMDB_API_KEY env) "" = "")
  then throw (Error "TMDB API key is not configured")
  else
    match moviesProvider env genres with
    | Ok results => ret results
    | Throw error => console_error "Movie search error:" ;;; throw error
    end.

Definition set_searchResults (groupId : string) (r : Results) : M unit := fun w =>
  (Ok tt, with_searchResults (<[groupId := r]> (searchResults w)) w).

Definition suggestOutings (env : Env) (groupId : string) (args : list string) : M unit :=
  match args with
  | area :: city :: rest =>
      let category := orString (head rest) "cafe" in
      let location := area +:+ " " +:+ city in
      sendSystemMessage env groupId (Searching category location) ;;;
      try_catch
        (places <- searchPlaces env location category ;;
         match places with
         | [] => sendSystemMessage env groupId (NoPlacesFound category location)
         | _ =>
             let top := take 5 places in
             sendSystemMessage env groupId (PlaceSuggestions category location top) ;;;
             (* Store the search results for this group *)
             set_searchResults groupId (Places top)
         end)
        (fun e => sendSystemMessage env groupId (FetchSuggestionsFailed e))
  | _ => sendSystemMessage env groupId UsageOutings
  end.

Definition suggestMovies (env : Env) (groupId userId userName : string) : M unit :=
  sendSystemMessage env groupId FindingMovies ;;;
  try_catch
    (userGenres <- getUserGenres env userId ;;
     match userGenres with
     | [] => sendSystemMessage env groupId NoGenresInProfile
     | _ =>
         movies <- searchMoviesByGenres env userGenres ;;
         match movies with
         | [] => sendSystemMessage env groupId NoMoviesFound
         | _ =>
             sendSystemMessage env groupId (MovieSuggestions userName userGenres movies) ;;;
             set_searchResults groupId (Movies movies)
         end
     end)
    (fun e => sendSystemMessage env groupId (FetchMoviesFailed e)).

Definition selectItem (env : Env) (groupId : string) (args : list string) : M unit :=
  match args with
  | [] => sendSystemMessage env groupId UsageSelect
  | _ =>
      let itemName := Js.toLowerCase (Js.join " " args) in
      fun w =>
      let results := searchResults w !! groupId in
      match results with
      | None | Some (Places []) | Some (Movies []) =>
          sendSystemMessage env groupId NoSearchResults w
      | Some results =>
          (* Check if it's a movie or place result *)
          let selected :=
            match results with
            | Movies l =>
                MovieItem <$> find (fun m => Js.includes (Js.toLowerCase (MovieResult.title m)) itemName) l
            | Places l =>
                PlaceItem <$> find (fun p => Js.includes (Js.toLowerCase (PlaceResult.name p)) itemName) l
            end in
          match selected with
          | None =>
              let optionsList :=
                match results with
                | Movies l => map MovieResult.title l
                | Places l => map PlaceResult.name l
                end in
              sendSystemMessage env groupId (ItemNotFound optionsList) w
          | Some selected =>
              (* Store selected item *)
              let w := with_selectedItems (<[groupId := selected]> (selectedItems w)) w in
              match selected with
              | MovieItem m => sendSystemMessage env groupId (SelectedMovie m) w
              | PlaceItem p => sendSystemMessage env groupId (SelectedPlace p) w
              end
          end
      end
  end.

(** [/^\d{4}-\d{2}-\d{2}$/.test(a)] *)
Definition isDate (a : string) : bool :=
  match list_ascii_of_string a with
  | [y1; y2; y3; y4; h1; m1; m2; h2; d1; d2] =>
      forallb Js.isDigit [y1; y2; y3; y4; m1; m2; d1; d2]
      && bool_decide (h1 = "-"%char) && bool_decide (h2 = "-"%char)
  | _ => false
  end.

(** [([ap]m)?$] under the [i] flag *)
Definition isMeridiemOrEnd (l : list ascii) : bool :=
  match l with
  | [] => true
  | [x; y] =>
      (bool_decide (Js.lowerChar x = "a"%char) || bool_decide (Js.lowerChar x = "p"%char))
      && bool_decide (Js.lowerChar y = "m"%char)
  | _ => false
  end.

(** [:\d{2}([ap]m)?$] *)
Definition isMinutesTail (l : list ascii) : bool :=
  match l with
  | c :: m1 :: m2 :: rest =>
      bool_decide (c = ":"%char) && Js.isDigit m1 && Js.isDigit m2 && isMeridiemOrEnd rest
  | _ => false
  end.

(** [/^\d{1,2}:\d{2}([ap]m)?$/i.test(a)] *)
Definition isTime (a : string) : bool :=
  match list_ascii_of_string a with
  | h1 :: rest =>
      Js.isDigit h1 &&
      (isMinutesTail rest ||
       match rest with
       | h2 :: rest' => Js.isDigit h2 && isMinutesTail rest'
       | [] => false
       end)
  | [] => false
  end.

Definition parseDateTime (args : list string) : option string * option string :=
  fold_left (fun '(date, time) a =>
      let date := if isDate a then Some a else date in
      let time := if isTime a then Some (Js.toLowerCase a) else time in
      (date, time))
    args (None, None).


(** [active.metadata] decoded as [rsvpSummary] and [lockDecision] do:
    [typeof m === "string" ? JSON.parse(m || "{}") : (m || {})]. *)
Definition decodeMetadata (m : MetadataField) : M (option Metadata.t) :=
  match m with
  | MetaString EmptyText => JSON_parse (Encoded Metadata.empty)
  | MetaString s => JSON_parse s
  | MetaObject o => ret (Some o)
  | MetaUndefined => ret (Some Metadata.empty)
  end.

(** [meta.date], [meta.time]: the first read of a field of the decoded
    value, which throws when the value is [null]. *)
Definition fields (meta : option Metadata.t) : M Metadata.t :=
  match meta with
  | Some m => ret m
  | None => throw TypeError
  end.

(** [n.toString()] *)
Definition numberToString (n : number) : string := Number.toString n.

Definition attachWhen (env : Env) (groupId : string) (args : list string)
    (currentUser : User.t) : M unit := fun w =>
  match selectedItems w !! groupId with
  | None => sendSystemMessage env groupId NoItemSelected w
  | Some selected =>
      match parseDateTime args with
      | (Some date, Some time) =>
          try_catch
            ((* Deactivate any existing active polls *)
             existingPolls <- listDocuments env COLLECTIONS.POLLS
                                [Query.equal Poll.groupId groupId; Query.equalB Poll.active true] ;;
             for_of existingPolls (fun poll =>
               updateDocument env COLLECTIONS.POLLS (Poll.id poll) (Poll.set_active false)) ;;;
             (* Determine if it's a movie or place *)
             let isMovie := match selected with MovieItem _ => true | PlaceItem _ => false end in
             let pollType := if isMovie then "movie" else "place" in
             let '(title, description, externalId, image, metadata) :=
               match selected with
               | MovieItem movie =>
                   (MovieResult.title movie,
                    MovieResult.overview movie,
                    numberToString (MovieResult.id movie),
                    (if bool_decide (MovieResult.poster_path movie = "") then ""
                     else "https://image.tmdb.org/t/p/w500" +:+ MovieResult.poster_path movie),
                    Metadata.mk (Some date) (Some time) (MovieResult.release_date movie)
                      (Some (MovieResult.vote_average movie)) None (Some "planbot") None None)
               | PlaceItem place =>
                   (PlaceResult.name place,
                    PlaceResult.formatted_address place,
                    PlaceResult.place_id place,
                    "",
                    Metadata.mk (Some date) (Some time) None
                      (Some (orNumber (PlaceResult.rating place) Number.zero))
                      (Some (default [] (PlaceResult.types place)))
                      (Some "planbot") (PlaceResult.lat place) (PlaceResult.lon place))
               end in
             (* Create new poll *)
             id <- ID_unique env ;;
             newPoll <- createDocument env COLLECTIONS.POLLS id (fun id at_ =>
               Poll.mk id at_ groupId (User.id currentUser) (User.name currentUser) pollType
                 externalId title description image ["join"; "maybe"; "no"] true
                 (MetaString (JSON_stringify metadata))) ;;
             (* Create a message in the group chat announcing the poll *)
             id <- ID_unique env ;;
             createDocument env COLLECTIONS.MESSAGES id (fun id _ =>
               Message.mk id groupId (User.id currentUser) (User.name currentUser)
                 (orString (User.avatar currentUser) "") (NewPollCreated title)
                 (Some (Poll.id newPoll)) None) ;;;
             sendSystemMessage env groupId (PollCreated isMovie title description date time) ;;;
             (* Clear selected item and search results after creating poll *)
             fun w => (Ok tt, with_searchResults (delete groupId (searchResults w))
                                (with_selectedItems (delete groupId (selectedItems w)) w)))
            (fun error => sendSystemMessage env groupId (CreatePollFailed error))
            w
      | _ => sendSystemMessage env groupId UsageWhen w
      end
  end.

(** [counts[v.choice] = (counts[v.choice] || 0) + 1] over the votes *)
Definition countChoices (votes : list Vote.t) : gmap string nat :=
  fold_left (fun counts v =>
      <[Vote.choice v := default 0 (counts !! Vote.choice v) + 1]> counts)
    votes (<["join" := 0]> (<["maybe" := 0]> (<["no" := 0]> ∅))).

Definition rsvpSummary (env : Env) (groupId : string) : M unit :=
  active <- PollHelpers.getActivePoll env groupId ;;
  match active with
  | None => sendSystemMessage env groupId NoActivePollToSummarize
  | Some active =>
      votes <- PollHelpers.getPollVotes env (Poll.id active) ;;
      let counts := countChoices votes in
      meta <- decodeMetadata (Poll.metadata active) ;;
      meta <- fields meta ;;
      sendSystemMessage env groupId
        (RsvpSummary active meta
           (default 0 (counts !! "join")) (default 0 (counts !! "maybe"))
           (default 0 (counts !! "no")))
  end.

Definition lockDecision (env : Env) (groupId : string) (groupName : option string) : M unit :=
  active <- PollHelpers.getActivePoll env groupId ;;
  match active with
  | None => sendSystemMessage env groupId NoActivePlanToLock
  | Some active =>
      meta <- decodeMetadata (Poll.metadata active) ;;
      votes <- PollHelpers.getPollVotes env (Poll.id active) ;;
      let joiners := List.filter (fun v => bool_decide (Vote.choice v = "join")) votes in
      let maybes := List.filter (fun v => bool_decide (Vote.choice v = "maybe")) votes in
      (* Deactivate the poll *)
      updateDocument env COLLECTIONS.POLLS (Poll.id active) (Poll.set_active false) ;;;
      (* Create final summary message in group *)
      meta <- fields meta ;;
      sendSystemMessage env groupId (PlanLocked active meta (length joiners) (length maybes)) ;;;
      (* Send personal notifications to all joiners *)
      let notificationText := PlanConfirmed active meta groupName (length joiners) in
      let notificationMetadata :=
        NotificationMetadata.mk groupId groupName (Poll.id active) (Poll.title active)
          (Poll.description active) (Metadata.date meta) (Metadata.time meta)
          (length joiners) (Poll.type active) in
      for_of joiners (fun joiner =>
        sendPersonalNotification env (Vote.userId joiner) notificationText
          (Some notificationMetadata))
  end.

Definition help (env : Env) (groupId : string) : M unit :=
  sendSystemMessage env groupId HelpText.

Definition handlePlanbotCommand (env : Env) (input : string) (ctx : PlanbotContext.t)
    : M PlanbotResult.t :=
  let trimmed := Js.trim input in
  let groupId := PlanbotContext.groupId ctx in
  let currentUser := PlanbotContext.currentUser ctx in
  if negb (Js.startsWith trimmed "/" || Js.startsWith trimmed "!")
  then ret (PlanbotResult.mk false)
  else
    let '(cmd, args) := parseArgs trimmed in
    if bool_decide (cmd = "help") then
      help env groupId ;;; ret (PlanbotResult.mk true)
    else if bool_decide (cmd = "planoutings") then
      suggestOutings env groupId args ;;; ret (PlanbotResult.mk true)
    else if bool_decide (cmd = "planmovies") then
      suggestMovies env groupId (User.id currentUser) (User.name currentUser) ;;;
      ret (PlanbotResult.mk true)
    else if bool_decide (cmd = "select") then
      selectItem env groupId args ;;; ret (PlanbotResult.mk true)
    else if bool_decide (cmd = "when") then
      attachWhen env groupId args currentUser ;;; ret (PlanbotResult.mk true)
    else if bool_decide (cmd = "rsvp") then
      rsvpSummary env groupId ;;; ret (PlanbotResult.mk true)
    else if bool_decide (cmd = "lock") then
      lockDecision env groupId (Group.name <$> PlanbotContext.group ctx) ;;;
      ret (PlanbotResult.mk true)
    else
      sendSystemMessage env groupId UnknownCommand ;;; ret (PlanbotResult.mk true).

End Planbot.

(** ** pages/group-chat.tsx: the realtime handlers *)

Module Reaction.
Record t := mk {
  id : string;
  messageId : string;
  userId : string;
  emoji : string
}.
End Reaction.

Module GroupChat.

(** What [client.subscribe] hands to a callback. *)
Record RealtimeResponse (P : Type) := mkResponse {
  events : list string;
  payload : P
}.
Arguments events {P} _.
Arguments payload {P} _.

(** The component state the handlers write. *)
Record State := mkState {
  messages : list Message.t;
  polls : list Poll.t;
  votes : list Vote.t;
  reactions : list Reaction.t
}.

Definition CREATE : string := "databases.*.collections.*.documents.*.create".
Definition UPDATE : string := "databases.*.collections.*.documents.*.update".

(** [events.includes(name)] *)
Definition includes (l : list string) (name : string) : bool :=
  existsb (fun e => bool_decide (e = name)) l.

Definition onReaction (groupId : string) (response : RealtimeResponse Reaction.t)
    (st : State) : State :=
  let payload := payload response in
  if includes (events response) CREATE
  then mkState (messages st) (polls st) (votes st) (reactions st ++ [payload])
  else st.

Definition onMessage (groupId : string) (response : RealtimeResponse Message.t)
    (st : State) : State :=
  let payload := payload response in
  if bool_decide (Message.groupId payload = groupId) then
    if includes (events response) CREATE then
      mkState (messages st ++ [payload]) (polls st) (votes st) (reactions st)
    else if includes (events response) UPDATE then
      mkState (map (fun msg => if bool_decide (Message.id msg = Message.id payload)
                               then payload else msg) (messages st))
              (polls st) (votes st) (reactions st)
    else st
  else st.

Definition onPoll (groupId : string) (response : RealtimeResponse Poll.t)
    (st : State) : State :=
  let payload := payload response in
  if bool_decide (Poll.groupId payload = groupId) then
    if includes (events response) CREATE then
      mkState (messages st) (payload :: polls st) (votes st) (reactions st)
    else if includes (events response) UPDATE then
      mkState (messages st)
              (map (fun poll => if bool_decide (Poll.id poll = Poll.id payload)
                                then payload else poll) (polls st))
              (votes st) (reactions st)
    else st
  else st.

Definition onVote (groupId : string) (response : RealtimeResponse Vote.t)
    (st : State) : State :=
  let payload := payload response in
  if includes (events response) CREATE then
    mkState (messages st) (polls st) (votes st ++ [payload]) (reactions st)
  else if includes (events response) UPDATE then
    mkState (messages st) (polls st)
            (map (fun vote => if bool_decide (Vote.id vote = Vote.id payload)
                              then payload else vote) (votes st))
            (reactions st)
  else st.

(** A change event as it reaches the component: the channel it came in on
    fixes the kind of its payload. *)
Inductive Change :=
| MessageChange (r : RealtimeResponse Message.t)
| PollChange (r : RealtimeResponse Poll.t)
| VoteChange (r : RealtimeResponse Vote.t)
| ReactionChange (r : RealtimeResponse Reaction.t).

(** The subscriptions of the effect: none is made while [groupId] is
    empty ([if (!groupId) return]). *)
Definition deliver (groupId : string) (c : Change) (st : State) : State :=
  if bool_decide (groupId = "") then st
  else
    match c with
    | MessageChange r => onMessage groupId r st
    | PollChange r => onPoll groupId r st
    | VoteChange r => onVote groupId r st
    | ReactionChange r => onReaction groupId r st
    end.

End GroupChat.

(** ** Properties stated about the model *)

(** The polls of group [G] that are active. *)
Definition activeIn (G : string) (p : Poll.t) : bool :=
  bool_decide (Poll.groupId p = G) && Poll.active p.

Definition activePolls (G : string) (w : World) : list Poll.t :=
  List.filter (activeIn G) (polls (db w)).

(** At most one active poll per group. *)
Definition singleActivePoll (w : World) : Prop :=
  ∀ G, (length (activePolls G w) ≤ 1)%nat.

(** Document ids identify polls. *)
Definition uniquePollIds (w : World) : Prop :=
  NoDup (map Poll.id (polls (db w))).

(** The backend accepts every call. *)
Definition accepting (env : Env) : Prop :=
  ∀ c n, rejects env c n = false.

(** [l'] is [l] with some polls deactivated in place. *)
Definition deactivated (l l' : list Poll.t) : Prop :=
  Forall2 (fun p p' => p' = p ∨ p' = Poll.set_active false p) l l'.

(** The votes of user [U] on poll [P]. *)
Definition votesOf (P U : string) (w : World) : list Vote.t :=
  List.filter (fun v => bool_decide (Vote.pollId v = P) && bool_decide (Vote.userId v = U))
    (votes (db w)).

(** At most one vote per poll and user. *)
Definition singleVote (w : World) : Prop :=
  ∀ P U, (length (votesOf P U w) ≤ 1)%nat.

(** The notifications addressed to user [U]. *)
Definition notificationsFor (U : string) (l : list Notification.t) : list Notification.t :=
  List.filter (fun n => bool_decide (Notification.userId n = U)) l.

(** What [activatePoll]'s last update does to one stored poll. *)
Definition activate (pollId : string) (x : Poll.t) : Poll.t :=
  if databases.hasId COLLECTIONS.POLLS pollId x then Poll.set_active true x else x.

(** Poll metadata that decodes to a value other than [null]: neither
    [decodeMetadata] nor reading a field of what it returns throws. *)
Definition validMetadata (m : MetadataField) : bool :=
  match m with
  | MetaString Malformed | MetaString NullText => false
  | _ => true
  end.

(** Every stored poll has metadata that decodes. *)
Definition validPolls (w : World) : Prop :=
  Forall (fun p => validMetadata (Poll.metadata p) = true) (polls (db w)).

(** The group a vote belongs to: the group of the poll it was cast on. *)
Definition voteGroup (polls : list Poll.t) (v : Vote.t) : option string :=
  Poll.groupId <$> find (fun p => bool_decide (Poll.id p = Vote.pollId v)) polls.

(** A message or poll event whose payload names a group other than [G]. *)
Definition fromOtherGroup (G : string) (c : GroupChat.Change) : bool :=
  match c with
  | GroupChat.MessageChange r => negb (bool_decide (Message.groupId (GroupChat.payload r) = G))
  | GroupChat.PollChange r => negb (bool_decide (Poll.groupId (GroupChat.payload r) = G))
  | GroupChat.VoteChange _ | GroupChat.ReactionChange _ => false
  end.

(** The state of a subscriber of [G] after a sequence of events. *)
Definition deliverAll (G : string) (cs : list GroupChat.Change) (st : GroupChat.State)
    : GroupChat.State :=
  fold_left (fun st c => GroupChat.deliver G c st) cs st.

(** [m], started in a world satisfying [P], ends in a world satisfying
    [Q] of its result when it returns and [E] of the exception when it
    throws. *)
Definition hoare {A} (P : World → Prop) (m : M A)
    (Q : A → World → Prop) (E : Exn → World → Prop) : Prop :=
  ∀ w, P w →
    match m w with
    | (Ok a, w') => Q a w'
    | (Throw e, w') => E e w'
    end.

(** [m] keeps [validPolls] and does not throw. *)
Definition safe {A} (m : M A) : Prop :=
  hoare validPolls m (fun _ => validPolls) (fun _ _ => False).

(** [m] keeps [validPolls], whether it returns or throws. *)
Definition tame {A} (m : M A) : Prop :=
  hoare validPolls m (fun _ => validPolls) (fun _ => validPolls).

(** ** Concrete worlds used as test inputs *)

Module Sample.

(** A backend that accepts every call; ids are id0, id1, ... *)
Definition env : Env :=
  mkEnv (fun _ _ => false) (fun n => "id" +:+ pretty n) None
        (fun _ _ => Ok []) (fun _ => Ok []).

(** A backend that rejects every write to the messages collection. *)
Definition envNoMessages : Env :=
  mkEnv (fun c _ => match c with CreateDocument MESSAGES => true | _ => false end)
        (fun n => "id" +:+ pretty n) None (fun _ _ => Ok []) (fun _ => Ok []).

(** A backend in which listing polls or votes fails. *)
Definition envNoListing : Env :=
  mkEnv (fun c _ => match c with ListDocuments _ => true | _ => false end)
        (fun n => "id" +:+ pretty n) None (fun _ _ => Ok []) (fun _ => Ok []).

Definition poll (id : string) (createdAt : nat) (groupId title : string) (active : bool)
    : Poll.t :=
  Poll.mk id createdAt groupId "u1" "Una" "place" "osm_node_1" title "12 Main Street" ""
    ["join"; "maybe"; "no"] active (MetaString (Encoded Metadata.empty)).

Definition world (ps : list Poll.t) (vs : list Vote.t) : World :=
  mkWorld (mkDb ps vs [] [] []) ∅ ∅ 0 0 [].

Definition empty : World := world [] [].

Definition older : Poll.t := poll "p1" 1 "g1" "Cafe A" true.
Definition newer : Poll.t := poll "p2" 2 "g1" "Cafe B" true.

(** One active and one inactive poll in g1, an active poll in g2. *)
Definition onePerGroup : World :=
  world [older; poll "p2" 2 "g1" "Cafe B" false; poll "p3" 3 "g2" "Cafe C" true] [].

(** Two active polls in g1: a state that violates the invariant. *)
Definition twoActive : World := world [older; newer] [].

(** Three members voted join, maybe and no on the active poll of g1. *)
Definition voted : World :=
  world [older]
        [Vote.mk "v1" "p1" "u1" "join"; Vote.mk "v2" "p1" "u2" "maybe";
         Vote.mk "v3" "p1" "u3" "no"].

Definition draft : PollData.t :=
  PollData.mk "g1" "u1" "Una" TypePlace "osm_node_2" "Cafe D" None None None.

Definition untitled : PollData.t :=
  PollData.mk "g1" "u1" "Una" TypePlace "osm_node_2" "" None None None.

Definition ctx : PlanbotContext.t :=
  PlanbotContext.mk "g1" (User.mk "u1" "Una" None) (Some (Group.mk "g1" "Friends" None)).

(** A subscriber of g1 that has loaded nothing yet. *)
Definition chat : GroupChat.State := GroupChat.mkState [] [] [] [].

(** A vote cast on p3, the poll of g2. *)
Definition foreignVote : Vote.t := Vote.mk "v9" "p3" "u7" "join".

End Sample.

(** ** lib/pollHelpers.ts: tally, lookup and announcement *)

Module VoteCounts.
Record t := mk {
  join : nat;
  maybe : nat;
  no : nat
}.
End VoteCounts.

Module PollHelpersRest.
Import databases.

(** [if (vote.choice in counts) counts[vote.choice]++]: a choice other
    than the three keys either fails the test or, when it names a property
    every object inherits, increments that property; [join], [maybe] and
    [no] are then left as they are. *)
Definition getVoteCounts (votes : list Vote.t) : VoteCounts.t :=
  fold_left (fun counts vote =>
      if bool_decide (Vote.choice vote = "join") then
        VoteCounts.mk (S (VoteCounts.join counts)) (VoteCounts.maybe counts) (VoteCounts.no counts)
      else if bool_decide (Vote.choice vote = "maybe") then
        VoteCounts.mk (VoteCounts.join counts) (S (VoteCounts.maybe counts)) (VoteCounts.no counts)
      else if bool_decide (Vote.choice vote = "no") then
        VoteCounts.mk (VoteCounts.join counts) (VoteCounts.maybe counts) (S (VoteCounts.no counts))
      else counts)
    votes (VoteCounts.mk 0 0 0).

(** [votes.find((vote) => vote.userId === userId) || null] *)
Definition hasUserVoted (votes : list Vote.t) (userId : string) : option Vote.t :=
  find (fun vote => bool_decide (Vote.userId vote = userId)) votes.

(** The [createdAt] and [reactions] fields the announcement is created
    with have no counterpart in [Message.t] and are left out. *)
Definition announcePoll (env : Env) (groupId pollId pollTitle senderId senderName : string)
    (senderAvatar : option string) : M unit :=
  try_catch
    (id <- ID_unique env ;;
     createDocument env COLLECTIONS.MESSAGES id (fun id _ =>
       Message.mk id groupId senderId senderName (orString senderAvatar "")
         (NewPollCreated pollTitle) (Some pollId) None) ;;;
     ret tt)
    (fun error => console_error "Error announcing poll:").

End PollHelpersRest.

(** ** What the pages show in a toast *)

Inductive Toast :=
| VoteRecorded (choice : string)
| FailedToVote
| PollDeleted
| FailedToDeletePoll (error : Exn)
| PollToggled (wasActive : bool)
| FailedToTogglePoll (error : Exn)
| AllMarkedAsRead
| FailedToMarkAsRead
| NewPlanConfirmation.

(** ** pages/group-chat.tsx: voting from the chat page *)

Module GroupChatPage.
Import databases.

(** [votes] is the component's state, not the collection.  The toast the
    handler shows is its result. *)
Definition handleVote (env : Env) (currentUser : User.t) (votes : list Vote.t)
    (pollId choice : string) : M Toast :=
  try_catch
    ((* Check if user already voted *)
     let existingVote :=
       find (fun v => bool_decide (Vote.pollId v = pollId)
                      && bool_decide (Vote.userId v = User.id currentUser)) votes in
     match existingVote with
     | Some existingVote =>
         updateDocument env COLLECTIONS.VOTES (Vote.id existingVote) (Vote.set_choice choice)
     | None =>
         id <- ID_unique env ;;
         createDocument env COLLECTIONS.VOTES id (fun id _ =>
           Vote.mk id pollId (User.id currentUser) choice) ;;;
         ret tt
     end ;;;
     ret (VoteRecorded choice))
    (fun error => ret FailedToVote).

(** The page's own tally, over the votes of one poll: the loop is the one
    of lib/pollHelpers.ts, written out again in the page. *)
Definition getVoteCounts (votes : list Vote.t) (poll : Poll.t) : VoteCounts.t :=
  PollHelpersRest.getVoteCounts
    (List.filter (fun v => bool_decide (Vote.pollId v = Poll.id poll)) votes).

Definition userVote (currentUser : User.t) (votes : list Vote.t) (poll : Poll.t)
    : option Vote.t :=
  find (fun v => bool_decide (Vote.pollId v = Poll.id poll)
                 && bool_decide (Vote.userId v = User.id currentUser)) votes.

End GroupChatPage.

(** ** pages/notifications.tsx: the notifications panel *)

Module NotificationsPanel.
Import databases.

Definition set_read (b : bool) (n : Notification.t) : Notification.t :=
  Notification.mk (Notification.id n) (Notification.userId n) (Notification.text n)
    (Notification.metadata n) b (Notification.type n).

(** The realtime callback: the new state and the toast shown, if any.  No
    subscription is made while the user id is empty
    ([if (!currentUser.$id) return]). *)
Definition onNotification (currentUserId : string)
    (response : GroupChat.RealtimeResponse Notification.t)
    (notifications : list Notification.t) : list Notification.t * option Toast :=
  if bool_decide (currentUserId = "") then (notifications, None)
  else
    let payload := GroupChat.payload response in
    if bool_decide (Notification.userId payload = currentUserId) then
      if GroupChat.includes (GroupChat.events response) GroupChat.CREATE then
        (payload :: notifications, Some NewPlanConfirmation)
      else if GroupChat.includes (GroupChat.events response) GroupChat.UPDATE then
        (map (fun notif => if bool_decide (Notification.id notif = Notification.id payload)
                           then payload else notif) notifications, None)
      else (notifications, None)
    else (notifications, None).

Definition unreadCount (notifications : list Notification.t) : nat :=
  length (List.filter (fun n => negb (Notification.read n)) notifications).

Definition markAsRead (env : Env) (notificationId : string) : M unit :=
  try_catch
    (updateDocument env COLLECTIONS.NOTIFICATIONS notificationId (set_read true))
    (fun error => console_error "Failed to mark as read:").

(** [notifications] is the component's state. *)
Definition markAllAsRead (env : Env) (notifications : list Notification.t) : M Toast :=
  try_catch
    (let unreadNotifications :=
       List.filter (fun n => negb (Notification.read n)) notifications in
     Promise_all
       (map (fun notif =>
               updateDocument env COLLECTIONS.NOTIFICATIONS (Notification.id notif)
                 (set_read true))
            unreadNotifications) ;;;
     ret AllMarkedAsRead)
    (fun error => console_error "Failed to mark all as read:" ;;; ret FailedToMarkAsRead).

End NotificationsPanel.

(** ** pages/poll-management.tsx: toggling and deleting from the list *)

Module PollWithVotes.
Record t := mk {
  poll : Poll.t;
  votes : list Vote.t
}.
Definition set_active (b : bool) (p : t) : t := mk (Poll.set_active b (poll p)) (votes p).
End PollWithVotes.

Module PollManagement.



(** The handlers take the [polls] state and return the state they set
    together with the toast they show; the spinner state is left out. *)
Definition handleDeletePoll (env : Env) (currentUser : User.t) (polls : list PollWithVotes.t)
    (pollId : string) : M (list PollWithVotes.t * Toast) :=
  try_catch
    (PollHelpers.deletePoll env pollId (User.id currentUser) ;;;
     ret (List.filter (fun p => negb (bool_decide (Poll.id (PollWithVotes.poll p) = pollId)))
            polls,
          PollDeleted))
    (fun error => ret (polls, FailedToDeletePoll error)).

Definition handleTogglePoll (env : Env) (currentUser : User.t) (polls : list PollWithVotes.t)
    (pollId : string) (currentActive : bool) : M (list PollWithVotes.t * Toast) :=
  try_catch
    ((if currentActive
      then PollHelpers.deactivatePoll env pollId (User.id currentUser)
      else PollHelpers.activatePoll env pollId (User.id currentUser)) ;;;
     (* Update local state *)
     ret (map (fun p =>
                 if bool_decide (Poll.id (PollWithVotes.poll p) = pollId)
                 then PollWithVotes.set_active (negb currentActive) p
                 else if negb currentActive
                      then (* Deactivate other polls *) PollWithVotes.set_active false p
                      else p)
              polls,
          PollToggled currentActive))
    (fun error => ret (polls, FailedToTogglePoll error)).

Definition canManagePoll (currentUser : User.t) (poll : PollWithVotes.t) : bool :=
  bool_decide (Poll.creatorId (PollWithVotes.poll poll) = User.id currentUser).

End PollManagement.

(** ** Further properties stated about the model *)

(** [m] keeps [I], whether it returns or throws. *)
Definition keeps {A} (I : World → Prop) (m : M A) : Prop :=
  hoare I m (fun _ => I) (fun _ => I).

(** The part [f] of the database has the value [x]. *)
Definition untouched {X} (f : Db → X) (x : X) (w : World) : Prop := f (db w) = x.

(** Writing collection [C] does not change the part [f] of the database. *)
Definition ignores {X D} (f : Db → X) (C : Coll D) : Prop :=
  ∀ l d, f (put C l d) = f d.

(** How many votes carry the choice [c]. *)
Definition countChoice (c : string) (votes : list Vote.t) : nat :=
  length (List.filter (fun v => bool_decide (Vote.choice v = c)) votes).






(** A byte below 128: an ASCII character. *)
Definition isAscii (c : ascii) : bool := (nat_of_ascii c <? 128)%nat.

(** The name a candidate is listed and selected by. *)
Definition itemName (i : Item) : string :=
  match i with
  | PlaceItem p => PlaceResult.name p
  | MovieItem m => MovieResult.title m
  end.

(** The candidates stored for a group. *)
Definition candidates (r : Results) : list Item :=
  match r with
  | Places l => map PlaceItem l
  | Movies l => map MovieItem l
  end.

(** The list on the poll-management page shows, for each poll, the
    activity the collection has for that id. *)
Definition inStep (local : list PollWithVotes.t) (w : World) : Prop :=
  ∀ lp, In lp local →
    ∃ sp, In sp (polls (db w))
          ∧ Poll.id sp = Poll.id (PollWithVotes.poll lp)
          ∧ Poll.groupId sp = Poll.groupId (PollWithVotes.poll lp)
          ∧ Poll.active sp = Poll.active (PollWithVotes.poll lp).

(** The polls [l] a /when for group [G] may leave from the polls [l0]:
    some of them deactivated, and possibly one new poll at the end, active
    in [G], in which case no other poll of [G] is active any more. *)
Definition supersededBy (G : string) (l0 l : list Poll.t) : Prop :=
  deactivated l0 l
  ∨ ∃ l1 p, l = l1 ++ [p] ∧ deactivated l0 l1
            ∧ Forall (fun q => Poll.groupId q = G → Poll.active q = false) l1
            ∧ Poll.groupId p = G ∧ Poll.active p = true.

(** ** More concrete worlds *)

Module Scenario.

Definition cafe (n : nat) (name : string) : PlaceResult.t :=
  PlaceResult.mk ("osm_node_" +:+ pretty n) name "3 High Street" None None None None.

Definition cafes : list PlaceResult.t :=
  [cafe 1 "Cafe A"; cafe 2 "Cafe B"; cafe 3 "Third Wave Coffee"; cafe 4 "Cafe D";
   cafe 5 "Cafe E"; cafe 6 "Cafe F"].

(** An accepting backend whose place lookup answers with six cafes. *)
Definition envPlaces : Env :=
  mkEnv (fun _ _ => false) (fun n => "id" +:+ pretty n) None
        (fun _ _ => Ok cafes) (fun _ => Ok []).

(** A backend that rejects every write to the notifications collection. *)
Definition envNoNotifications : Env :=
  mkEnv (fun c _ => match c with CreateDocument NOTIFICATIONS => true | _ => false end)
        (fun n => "id" +:+ pretty n) None (fun _ _ => Ok []) (fun _ => Ok []).

(** The group g1 has searched and selected the third cafe. *)
Definition selected : World :=
  with_selectedItems {[ "g1" := PlaceItem (cafe 3 "Third Wave Coffee") ]}
    (with_searchResults {[ "g1" := Places (take 5 cafes) ]} Sample.onePerGroup).

(** The poll-management list of g1 as fetched from [Sample.onePerGroup]. *)
Definition listed : list PollWithVotes.t :=
  [PollWithVotes.mk (Sample.poll "p2" 2 "g1" "Cafe B" false) [];
   PollWithVotes.mk Sample.older []].

Definition notice (id userId : string) (read : bool) : Notification.t :=
  Notification.mk id userId (UserText "Plan Confirmed!") None read "plan_confirmation".

(** Two unread notifications and one read, as the panel of u1 holds them. *)
Definition inbox : list Notification.t :=
  [notice "n3" "u1" false; notice "n2" "u1" true; notice "n1" "u1" false].

(** The collection behind it, which also holds a notification of u2. *)
Definition notified : World :=
  mkWorld (mkDb [] [] []
             [notice "n1" "u1" false; notice "n2" "u1" true; notice "n3" "u1" false;
              notice "n4" "u2" false] [])
          ∅ ∅ 0 0 [].

(** A fourth member presses "join" twice before the page has received the
    first vote: both presses run with the page holding no vote of theirs. *)
Definition votedTwice : World :=
  ((GroupChatPage.handleVote Sample.env (User.mk "u4" "Dee" None) [] "p1" "join" ;;;
    GroupChatPage.handleVote Sample.env (User.mk "u4" "Dee" None) [] "p1" "join")
     Sample.voted).2.

(** "/RSVP" typed after a no-break space (U+00A0, the bytes 194 160) and
    before an ideographic space (U+3000, the bytes 227 128 128). *)
Definition padded : string :=
  String (ascii_of_nat 194) (String (ascii_of_nat 160) "/RSVP")
  +:+ String (ascii_of_nat 227) (String (ascii_of_nat 128) (String (ascii_of_nat 128) "")).

(** A candidate whose name is in capitals with an accented letter, U+00C9
    (the bytes 195 137), stored for g1; and the same word in small letters,
    with U+00E9 (the bytes 195 169), as a member types it after /select. *)
Definition eclairStored : string := String (ascii_of_nat 195) (String (ascii_of_nat 137) "CLAIR").
Definition eclairTyped : string := String (ascii_of_nat 195) (String (ascii_of_nat 169) "clair").

Definition searched : World :=
  with_searchResults {[ "g1" := Places [cafe 1 "Cafe A"; cafe 7 eclairStored] ]} Sample.empty.

End Scenario.

(** * Proofs *)

(** ** The gateway primitives *)

Lemma request_inv {A} env c (run : Db → Res A * Db) w r w' :
  databases.request env c run w = (r, w') →
  (rejects env c (calls w) = true ∧ r = Throw (AppwriteException c)
     ∧ w' = with_calls (S (calls w)) w)
  ∨ (rejects env c (calls w) = false
     ∧ ∃ d, run (db w) = (r, d) ∧ w' = with_db d (with_calls (S (calls w)) w)).
Proof.
  unfold databases.request. intros H.
  destruct (rejects env c (calls w)).
  - left. by inversion H.
  - right. split; [done|]. destruct (run (db w)) as [r0 d]. exists d. by inversion H.
Qed.

Lemma listDocuments_inv {D} env (C : Coll D) qs w r w' :
  databases.listDocuments env C qs w = (r, w') →
  db w' = db w ∧
  ((∃ e, r = Throw e ∧ rejects env (ListDocuments (tag C)) (calls w) = true)
   ∨ r = Ok (Query.run qs (docs C (db w)))).
Proof.
  intros H. apply request_inv in H as [(Hr & -> & ->)|(_ & d & Hd & ->)].
  - split; [done|]. left. eauto.
  - inversion Hd; subst. split; [done|]. by right.
Qed.

Lemma getDocument_inv {D} env (C : Coll D) id w r w' :
  databases.getDocument env C id w = (r, w') →
  db w' = db w ∧
  ((∃ e, r = Throw e) ∨ (∃ x, r = Ok x ∧ find (databases.hasId C id) (docs C (db w)) = Some x)).
Proof.
  intros H. apply request_inv in H as [(Hr & -> & ->)|(_ & d & Hd & ->)].
  - split; [done|]. left. eauto.
  - destruct (find _ _) as [x|] eqn:Hf; inversion Hd; subst; (split; [done|]); eauto.
Qed.

Lemma updateDocument_inv {D} env (C : Coll D) id patch w r w' :
  databases.updateDocument env C id patch w = (r, w') →
  ((∃ e, r = Throw e) ∧ db w' = db w)
  ∨ (r = Ok tt ∧ rejects env (UpdateDocument (tag C)) (calls w) = false
     ∧ existsb (databases.hasId C id) (docs C (db w)) = true
     ∧ db w' = put C (map (fun x => if databases.hasId C id x then patch x else x)
                        (docs C (db w))) (db w)).
Proof.
  intros H. apply request_inv in H as [(Hr & -> & ->)|(Hr & d & Hd & ->)].
  - left. eauto.
  - destruct (existsb _ _) eqn:Hex; inversion Hd; subst; [right|left]; eauto.
Qed.

Lemma createDocument_inv {D} env (C : Coll D) id data w r w' :
  databases.createDocument env C id data w = (r, w') →
  ((∃ e, r = Throw e) ∧ db w' = db w)
  ∨ (r = Ok (data id (calls w)) ∧ rejects env (CreateDocument (tag C)) (calls w) = false
     ∧ db w' = put C (docs C (db w) ++ [data id (calls w)]) (db w)).
Proof.
  intros H. apply request_inv in H as [(Hr & -> & ->)|(Hr & d & Hd & ->)].
  - left. eauto.
  - inversion Hd; subst. right. eauto.
Qed.

Lemma deleteDocument_inv {D} env (C : Coll D) id w r w' :
  databases.deleteDocument env C id w = (r, w') →
  ((∃ e, r = Throw e) ∧ db w' = db w)
  ∨ (r = Ok tt
     ∧ db w' = put C (List.filter (fun x => negb (databases.hasId C id x)) (docs C (db w))) (db w)).
Proof.
  intros H. apply request_inv in H as [(Hr & -> & ->)|(Hr & d & Hd & ->)].
  - left. eauto.
  - destruct (existsb _ _) eqn:Hex; inversion Hd; subst; [right|left]; eauto.
Qed.

(** What an accepted call does. *)
Lemma request_accept {A} env c (run : Db → Res A * Db) w :
  accepting env →
  databases.request env c run w =
    (let '(r, d) := run (db w) in (r, with_db d (with_calls (S (calls w)) w))).
Proof. intros Hacc. unfold databases.request. by rewrite Hacc. Qed.

(** ** Deactivation in place *)

Lemma deactivated_refl l : deactivated l l.
Proof. induction l; constructor; auto. Qed.

Lemma deactivated_trans l1 l2 l3 :
  deactivated l1 l2 → deactivated l2 l3 → deactivated l1 l3.
Proof.
  intros H12. revert l3. induction H12 as [|p q l l' Hpq _ IH]; intros l3 H23.
  - inversion H23. constructor.
  - inversion H23 as [|q' r ? ? Hqr Hrest]; subst. constructor; [|by apply IH].
    destruct Hpq as [->| ->], Hqr as [->| ->]; auto.
Qed.

Lemma deactivated_map (f : Poll.t → bool) l :
  deactivated l (map (fun x => if f x then Poll.set_active false x else x) l).
Proof. induction l; simpl; constructor; auto. destruct (f a); auto. Qed.

Lemma deactivated_ids l l' : deactivated l l' → map Poll.id l' = map Poll.id l.
Proof. induction 1 as [|p q l l' [->| ->] _ IH]; simpl; congruence. Qed.

Lemma deactivated_count G l l' :
  deactivated l l' →
  (length (List.filter (activeIn G) l') ≤ length (List.filter (activeIn G) l))%nat.
Proof.
  induction 1 as [|p q l l' Hpq _ IH]; simpl; [lia|].
  destruct Hpq as [->| ->].
  - destruct (activeIn G p); simpl; lia.
  - unfold activeIn at 1. simpl. rewrite andb_false_r.
    destruct (activeIn G p); simpl; lia.
Qed.

Lemma deactivated_Forall (P Q R : Poll.t → Prop) l l' :
  deactivated l l' → Forall P l → Forall Q l' →
  (∀ p p', (p' = p ∨ p' = Poll.set_active false p) → P p → Q p' → R p') →
  Forall R l'.
Proof.
  intros Hd HP HQ Himp. induction Hd as [|p q l l' Hpq _ IH]; [constructor|].
  inversion HP; inversion HQ; subst. constructor; eauto.
Qed.

Lemma filter_length_le {A} (f g : A → bool) l :
  (∀ x, In x l → f x = true → g x = true) →
  (length (List.filter f l) ≤ length (List.filter g l))%nat.
Proof.
  induction l as [|a l IH]; simpl; intros H; [lia|].
  assert (IH' := IH (fun x Hx => H x (or_intror Hx))).
  destruct (f a) eqn:Hf.
  - rewrite (H a (or_introl eq_refl) Hf). simpl. lia.
  - destruct (g a); simpl; lia.
Qed.

Lemma filter_hasId_nil (i : string) l :
  i ∉ map Poll.id l → List.filter (fun p => bool_decide (Poll.id p = i)) l = [].
Proof.
  induction l as [|a l IH]; simpl; [done|]. intros H.
  apply not_elem_of_cons in H as [H1 H2].
  case_bool_decide; [congruence|auto].
Qed.

Lemma filter_hasId_unique (i : string) l :
  NoDup (map Poll.id l) →
  (length (List.filter (fun p => bool_decide (Poll.id p = i)) l) ≤ 1)%nat.
Proof.
  induction l as [|a l IH]; simpl; intros Hnd; [lia|].
  apply NoDup_cons in Hnd as [Hnotin Hnd].
  case_bool_decide as Ha; [|by apply IH].
  subst i. rewrite filter_hasId_nil; [simpl; lia|done].
Qed.

(** ** Deactivating polls through the gateway *)

Lemma deactivate_step env i w r w' :
  databases.updateDocument env COLLECTIONS.POLLS i (Poll.set_active false) w = (r, w') →
  deactivated (polls (db w)) (polls (db w'))
  ∧ (r = Ok tt → Forall (fun p => Poll.id p = i → Poll.active p = false) (polls (db w'))).
Proof.
  intros H. apply updateDocument_inv in H as [[[e ->] ->]|(-> & _ & _ & ->)].
  - split; [apply deactivated_refl|done].
  - simpl. split; [apply deactivated_map|]. intros _.
    apply Forall_forall. intros p Hp Hid.
    apply list_elem_of_In, in_map_iff in Hp as (q & <- & _).
    unfold databases.hasId in *. simpl in *.
    case_bool_decide as Hq; simpl in *; [done|congruence].
Qed.

Lemma deactivate_all env (ps : list Poll.t) w r w' :
  Promise_all (map (fun poll =>
      databases.updateDocument env COLLECTIONS.POLLS (Poll.id poll) (Poll.set_active false)) ps) w
    = (r, w') →
  deactivated (polls (db w)) (polls (db w'))
  ∧ ((∃ x, r = Ok x) →
     Forall (fun p => In (Poll.id p) (map Poll.id ps) → Poll.active p = false) (polls (db w'))).
Proof.
  revert w r w'. induction ps as [|a ps IH]; simpl; intros w r w' H.
  - inversion H; subst. split; [apply deactivated_refl|]. intros _.
    apply Forall_forall. by intros ? ? [].
  - destruct (databases.updateDocument _ _ _ _ w) as [r1 w1] eqn:H1.
    destruct (Promise_all _ w1) as [rs w2] eqn:H2.
    apply deactivate_step in H1 as [Hd1 Hi1]. apply IH in H2 as [Hd2 Hi2].
    inversion H; subst. split; [by eapply deactivated_trans|].
    intros [x Hx]. destruct r1 as [[]|e1]; [|done]. destruct rs as [l|e2]; [|done].
    specialize (Hi1 eq_refl). specialize (Hi2 (ex_intro _ l eq_refl)).
    eapply (deactivated_Forall _ _ _ _ _ Hd2 Hi1 Hi2).
    intros p p' Hpp' Hp Hp' [Hin|Hin]; [|by apply Hp'].
    destruct Hpp' as [->| ->]; [by apply Hp|done].
Qed.

(** With an accepting backend the deactivations of listed polls all succeed. *)
Lemma deactivate_all_accepting env (ps : list Poll.t) w :
  accepting env →
  (∀ p, In p ps → In (Poll.id p) (map Poll.id (polls (db w)))) →
  ∃ x w', Promise_all (map (fun poll =>
      databases.updateDocument env COLLECTIONS.POLLS (Poll.id poll) (Poll.set_active false)) ps) w
    = (Ok x, w').
Proof.
  intros Hacc. revert w. induction ps as [|a ps IH]; simpl; intros w Hin; [by eauto|].
  destruct (databases.updateDocument _ _ _ _ w) as [r1 w1] eqn:H1.
  assert (Hids : map Poll.id (polls (db w1)) = map Poll.id (polls (db w))).
  { apply deactivated_ids. by apply deactivate_step in H1 as [? _]. }
  destruct (IH w1) as (x & w2 & H2).
  { intros p Hp. rewrite Hids. apply Hin. by right. }
  rewrite H2.
  unfold databases.updateDocument in H1. rewrite request_accept in H1 by done.
  assert (Hex : existsb (databases.hasId COLLECTIONS.POLLS (Poll.id a)) (polls (db w)) = true).
  { apply existsb_exists. specialize (Hin a (or_introl eq_refl)).
    apply in_map_iff in Hin as (q & Hq & Hqin). exists q. split; [done|].
    unfold databases.hasId. simpl. by apply bool_decide_eq_true. }
  simpl in H1. rewrite Hex in H1. inversion H1; subst. eauto.
Qed.

(** The listing [createPoll] starts from. *)
Lemma run_equal_groupId G l :
  Query.run [Query.equal Poll.groupId G] l = List.filter (fun p => bool_decide (Poll.groupId p = G)) l.
Proof.
  unfold Query.run. simpl. apply filter_ext. intros p. simpl. by rewrite andb_true_r.
Qed.

Lemma run_active G l :
  Query.run [Query.equal Poll.groupId G; Query.equalB Poll.active true] l
  = List.filter (activeIn G) l.
Proof.
  unfold Query.run. simpl. apply filter_ext. intros p. unfold activeIn. simpl.
  rewrite andb_true_r. by destruct (Poll.active p).
Qed.

Lemma run_active_limit1 G l :
  Query.run [Query.equal Poll.groupId G; Query.equalB Poll.active true; Query.limit 1] l
  = take 1 (List.filter (activeIn G) l).
Proof.
  unfold Query.run. simpl. f_equal. apply filter_ext. intros p. unfold activeIn. simpl.
  rewrite andb_true_r. by destruct (Poll.active p).
Qed.

(** What [createPoll] leaves behind, whatever the backend does. *)
Lemma createPoll_inv env d w r w' :
  PollHelpers.createPoll env d w = (r, w') →
  (∃ e, r = Throw e ∧ deactivated (polls (db w)) (polls (db w')))
  ∨ (∃ p l1, r = Ok p ∧ polls (db w') = l1 ++ [p]
       ∧ deactivated (polls (db w)) l1
       ∧ Forall (fun q => Poll.groupId q = PollData.groupId d → Poll.active q = false) l1
       ∧ Poll.groupId p = PollData.groupId d ∧ Poll.active p = true
       ∧ Poll.title p = PollData.title d
       ∧ Poll.type p = pollTypeString (PollData.type d)).
Proof.
  unfold PollHelpers.createPoll, try_catch, bind. intros H.
  destruct (databases.listDocuments _ _ _ w) as [[existing|e] w1] eqn:H1;
    apply listDocuments_inv in H1 as [Hdb1 Hr1].
  2:{ left. inversion H; subst. exists e. split; [done|]. simpl. rewrite Hdb1.
      apply deactivated_refl. }
  destruct Hr1 as [(? & ? & _)|Hr1]; [done|]. inversion Hr1 as [Hex]; clear Hr1.
  rewrite run_equal_groupId in Hex.
  destruct (Promise_all _ w1) as [[x|e] w2] eqn:H2;
    apply deactivate_all in H2 as [Hd2 Hi2]; rewrite Hdb1 in Hd2.
  2:{ left. inversion H; subst. exists e. by split. }
  specialize (Hi2 (ex_intro _ x eq_refl)).
  unfold ID_unique in H. simpl in H.
  match type of H with context [databases.createDocument ?e ?C ?i ?f ?w] =>
    destruct (databases.createDocument e C i f w) as [[p|e'] w3] eqn:H3 end;
    apply createDocument_inv in H3 as [[[e3 He3] Hdb3]|(Hr3 & _ & Hdb3)]; try done; simpl in *.
  - right. inversion H; subst. inversion Hr3; subst. clear Hr3 H.
    eexists _, (polls (db w2)). split; [done|]. rewrite Hdb3. simpl.
    repeat split; try done.
    eapply (deactivated_Forall (fun p => In p (polls (db w))) _ _ _ _ Hd2);
      [by apply Forall_forall; intros ? ?%list_elem_of_In|exact Hi2|].
    intros p p' Hpp' Hp Hp' HG. destruct (Poll.active p') eqn:Hact; [|done].
    rewrite <- Hact. apply Hp'. destruct Hpp' as [->| ->]; [|done].
    apply in_map. apply filter_In. split; [|done].
    apply filter_In. split; [done|]. by apply bool_decide_eq_true.
  - left. inversion H; subst. exists e'. split; [done|]. simpl. by rewrite Hdb3.
Qed.

(** What [activatePoll] leaves behind, whatever the backend does. *)
Lemma activatePoll_inv env pollId userId w r w' :
  PollHelpers.activatePoll env pollId userId w = (r, w') →
  (∃ e, r = Throw e ∧ deactivated (polls (db w)) (polls (db w')))
  ∨ (∃ poll l1, r = Ok tt
       ∧ find (databases.hasId COLLECTIONS.POLLS pollId) (polls (db w)) = Some poll
       ∧ Poll.creatorId poll = userId
       ∧ deactivated (polls (db w)) l1
       ∧ Forall (fun q => Poll.groupId q = Poll.groupId poll → Poll.id q ≠ pollId →
                          Poll.active q = false) l1
       ∧ polls (db w') = map (activate pollId) l1).
Proof.
  unfold PollHelpers.activatePoll, try_catch, bind. intros H.
  destruct (databases.getDocument _ _ _ w) as [[poll|e] w1] eqn:H1;
    apply getDocument_inv in H1 as [Hdb1 Hr1].
  2:{ left. inversion H; subst. exists e. split; [done|]. simpl. rewrite Hdb1.
      apply deactivated_refl. }
  destruct Hr1 as [[? ?]|(? & [= <-] & Hfind)]; [done|]. simpl in Hfind.
  case_bool_decide as Hcreator; simpl in H.
  2:{ left. inversion H; subst. eexists. split; [done|]. simpl. rewrite Hdb1.
      apply deactivated_refl. }
  destruct (databases.listDocuments _ _ _ w1) as [[existing|e] w2] eqn:H2;
    apply listDocuments_inv in H2 as [Hdb2 Hr2].
  2:{ left. inversion H; subst. exists e. split; [done|]. simpl. rewrite Hdb2, Hdb1.
      apply deactivated_refl. }
  destruct Hr2 as [(? & ? & _)|Hr2]; [done|]. inversion Hr2 as [Hex]; clear Hr2.
  rewrite run_active, Hdb1 in Hex.
  destruct (Promise_all _ w2) as [[x|e] w3] eqn:H3;
    apply deactivate_all in H3 as [Hd3 Hi3]; rewrite Hdb2, Hdb1 in Hd3.
  2:{ left. inversion H; subst. exists e. by split. }
  specialize (Hi3 (ex_intro _ x eq_refl)).
  destruct (databases.updateDocument _ _ _ _ w3) as [r4 w4] eqn:H4.
  apply updateDocument_inv in H4 as [[[e4 ->] Hdb4]|(-> & _ & _ & Hdb4)].
  - left. inversion H; subst. exists e4. split; [done|]. simpl. by rewrite Hdb4.
  - right. inversion H; subst. exists poll, (polls (db w3)).
    rewrite Hdb4. simpl. repeat split; try done.
    eapply (deactivated_Forall (fun p => In p (polls (db w))) _ _ _ _ Hd3);
      [by apply Forall_forall; intros ? ?%list_elem_of_In|exact Hi3|].
    intros p p' Hpp' Hp Hp' HG Hid. destruct (Poll.active p') eqn:Hact; [|done].
    rewrite <- Hact. apply Hp'. destruct Hpp' as [->| ->]; [|done].
    apply in_map. apply filter_In. split.
    + apply filter_In. split; [done|]. unfold activeIn. rewrite Hact.
      by rewrite bool_decide_eq_true_2.
    + by rewrite bool_decide_eq_false_2.
Qed.

Lemma deactivatePoll_inv env pollId userId w r w' :
  PollHelpers.deactivatePoll env pollId userId w = (r, w') →
  deactivated (polls (db w)) (polls (db w')).
Proof.
  unfold PollHelpers.deactivatePoll, try_catch, bind. intros H.
  destruct (databases.getDocument _ _ _ w) as [[poll|e] w1] eqn:H1;
    apply getDocument_inv in H1 as [Hdb1 Hr1].
  2:{ inversion H; subst. simpl. rewrite Hdb1. apply deactivated_refl. }
  case_bool_decide as Hcreator; simpl in H.
  2:{ inversion H; subst. simpl. rewrite Hdb1. apply deactivated_refl. }
  destruct (databases.updateDocument _ _ _ _ w1) as [r2 w2] eqn:H2.
  apply deactivate_step in H2 as [Hd2 _]. rewrite Hdb1 in Hd2.
  destruct r2; inversion H; by subst.
Qed.

(** Deleting votes leaves the polls alone. *)
Lemma delete_votes_polls env (vs : list Vote.t) w r w' :
  Promise_all (map (fun vote =>
      databases.deleteDocument env COLLECTIONS.VOTES (Vote.id vote)) vs) w = (r, w') →
  polls (db w') = polls (db w).
Proof.
  revert w r w'. induction vs as [|a vs IH]; simpl; intros w r w' H.
  - by inversion H.
  - destruct (databases.deleteDocument _ _ _ w) as [r1 w1] eqn:H1.
    destruct (Promise_all _ w1) as [rs w2] eqn:H2.
    apply IH in H2. inversion H; subst. rewrite H2.
    by apply deleteDocument_inv in H1 as [[_ ->]|[_ ->]].
Qed.

Lemma deletePoll_inv env pollId userId w r w' :
  PollHelpers.deletePoll env pollId userId w = (r, w') →
  polls (db w') = polls (db w)
  ∨ polls (db w') =
      List.filter (fun x => negb (databases.hasId COLLECTIONS.POLLS pollId x)) (polls (db w)).
Proof.
  unfold PollHelpers.deletePoll, try_catch, bind. intros H.
  destruct (databases.getDocument _ _ _ w) as [[poll|e] w1] eqn:H1;
    apply getDocument_inv in H1 as [Hdb1 Hr1].
  2:{ left. inversion H; subst. simpl. by rewrite Hdb1. }
  case_bool_decide as Hcreator; simpl in H.
  2:{ left. inversion H; subst. simpl. by rewrite Hdb1. }
  destruct (databases.listDocuments _ _ _ w1) as [[vs|e] w2] eqn:H2;
    apply listDocuments_inv in H2 as [Hdb2 Hr2].
  2:{ left. inversion H; subst. simpl. by rewrite Hdb2, Hdb1. }
  destruct (Promise_all _ w2) as [[x|e] w3] eqn:H3; apply delete_votes_polls in H3.
  2:{ left. inversion H; subst. simpl. by rewrite H3, Hdb2, Hdb1. }
  destruct (databases.deleteDocument _ _ _ w3) as [r4 w4] eqn:H4.
  apply deleteDocument_inv in H4 as [[[e4 ->] Hdb4]|[-> Hdb4]].
  - left. inversion H; subst. simpl. by rewrite Hdb4, H3, Hdb2, Hdb1.
  - right. inversion H; subst. rewrite Hdb4. simpl. by rewrite H3, Hdb2, Hdb1.
Qed.

Lemma filter_activeIn_nil G l :
  Forall (fun q => Poll.groupId q = G → Poll.active q = false) l →
  List.filter (activeIn G) l = [].
Proof.
  induction 1 as [|q l Hq _ IH]; simpl; [done|].
  unfold activeIn at 1. case_bool_decide as HG; simpl; [|done].
  by rewrite (Hq HG).
Qed.

Lemma filter_map_length_le {A} (f : A → bool) (g : A → A) l :
  (∀ x, In x l → f (g x) = true → f x = true) →
  (length (List.filter f (map g l)) ≤ length (List.filter f l))%nat.
Proof.
  induction l as [|a l IH]; simpl; intros H; [lia|].
  assert (IH' := IH (fun x Hx => H x (or_intror Hx))).
  destruct (f (g a)) eqn:Hf.
  - rewrite (H a (or_introl eq_refl) Hf). simpl. lia.
  - destruct (f a); simpl; lia.
Qed.

Lemma filter_filter_length_le {A} (f g : A → bool) l :
  (length (List.filter f (List.filter g l)) ≤ length (List.filter f l))%nat.
Proof.
  induction l as [|a l IH]; simpl; [lia|].
  destruct (g a); simpl; destruct (f a); simpl; lia.
Qed.

Lemma deactivated_In l l' p :
  deactivated l l' → In p l →
  ∃ p', In p' l' ∧ (p' = p ∨ p' = Poll.set_active false p).
Proof.
  induction 1 as [|q q' l l' Hq _ IH]; simpl; [done|].
  intros [->|Hin]; [by eauto|]. destruct (IH Hin) as (p' & ? & ?). eauto.
Qed.

Lemma NoDup_id_inj l (a b : Poll.t) :
  NoDup (map Poll.id l) → In a l → In b l → Poll.id a = Poll.id b → a = b.
Proof.
  induction l as [|c l IH]; simpl; [done|]. intros Hnd Ha Hb Hid.
  apply NoDup_cons in Hnd as [Hnotin Hnd].
  destruct Ha as [->|Ha], Hb as [->|Hb]; auto.
  - exfalso. apply Hnotin. rewrite Hid. apply list_elem_of_In. by apply in_map.
  - exfalso. apply Hnotin. rewrite <- Hid. apply list_elem_of_In. by apply in_map.
Qed.

Lemma length_le_1_In {A} (l : list A) x : (length l ≤ 1)%nat → In x l → l = [x].
Proof.
  destruct l as [|a [|b l]]; simpl; intros Hlen Hin; [done| |lia].
  by destruct Hin as [->|[]].
Qed.

Lemma map_activate_ids pollId l : map Poll.id (map (activate pollId) l) = map Poll.id l.
Proof.
  rewrite map_map. apply map_ext. intros x. unfold activate.
  by destruct (databases.hasId _ _ _).
Qed.

Lemma singleActivePoll_deactivated w w' :
  singleActivePoll w → deactivated (polls (db w)) (polls (db w')) → singleActivePoll w'.
Proof.
  intros Hinv Hd G. unfold activePolls. etrans; [by apply deactivated_count|apply Hinv].
Qed.

Lemma uniquePollIds_deactivated w w' :
  uniquePollIds w → deactivated (polls (db w)) (polls (db w')) → uniquePollIds w'.
Proof. unfold uniquePollIds. intros Hnd Hd. by rewrite (deactivated_ids _ _ Hd). Qed.

Lemma createPoll_single_active env d w r w' :
  singleActivePoll w →
  PollHelpers.createPoll env d w = (r, w') →
  singleActivePoll w' ∧ (∀ p, r = Ok p → activePolls (PollData.groupId d) w' = [p]).
Proof.
  intros Hinv H.
  apply createPoll_inv in H as [(e & -> & Hd)|(p & l1 & -> & Hl & Hd & Hin & HG & Hact & _)].
  - split; [by eapply singleActivePoll_deactivated|done].
  - assert (Hnil := filter_activeIn_nil _ _ Hin).
    assert (HGp : activeIn (PollData.groupId d) p = true).
    { unfold activeIn. by rewrite Hact, bool_decide_eq_true_2. }
    split.
    + intros G. unfold activePolls. rewrite Hl, List.filter_app, length_app. simpl.
      destruct (activeIn G p) eqn:HGa; simpl.
      * assert (G = PollData.groupId d) as ->.
        { unfold activeIn in HGa. apply andb_true_iff in HGa as [HGa _].
          apply bool_decide_eq_true in HGa. congruence. }
        rewrite Hnil. simpl. lia.
      * specialize (Hinv G). pose proof (deactivated_count G _ _ Hd). unfold activePolls in Hinv. lia.
    + intros ? [= <-]. unfold activePolls. rewrite Hl, List.filter_app, Hnil. simpl.
      by rewrite HGp.
Qed.

Lemma activatePoll_single_active env pollId userId w r w' :
  uniquePollIds w → singleActivePoll w →
  PollHelpers.activatePoll env pollId userId w = (r, w') →
  singleActivePoll w' ∧ uniquePollIds w'
  ∧ (r = Ok tt → ∃ p, Poll.id p = pollId ∧ activePolls (Poll.groupId p) w' = [p]).
Proof.
  intros Hnd Hinv H.
  apply activatePoll_inv in H as [(e & -> & Hd)|(poll & l1 & -> & Hfind & _ & Hd & Hin & Hl)].
  { split; [by eapply singleActivePoll_deactivated|].
    split; [by eapply uniquePollIds_deactivated|done]. }
  apply find_some in Hfind as [Hpoll Hid]. unfold databases.hasId in Hid. simpl in Hid.
  apply bool_decide_eq_true in Hid.
  assert (Hnd' : NoDup (map Poll.id (polls (db w')))).
  { rewrite Hl, map_activate_ids, (deactivated_ids _ _ Hd). exact Hnd. }
  assert (HK : Forall (fun x => Poll.id x = pollId → Poll.groupId x = Poll.groupId poll) l1).
  { eapply (deactivated_Forall (fun p => In p (polls (db w))) (fun _ => True) _ _ _ Hd);
      [by apply Forall_forall; intros ? ?%list_elem_of_In|by apply Forall_forall|].
    intros p p' Hpp' Hp _ Hid'.
    assert (p = poll) as ->.
    { apply (NoDup_id_inj _ _ _ Hnd Hp Hpoll). destruct Hpp' as [->| ->]; simpl in *; congruence. }
    by destruct Hpp' as [->| ->]. }
  assert (Hsingle : singleActivePoll w').
  { intros G. unfold activePolls. rewrite Hl.
    destruct (decide (G = Poll.groupId poll)) as [->|HG].
    - etrans; [|apply (filter_hasId_unique pollId (map (activate pollId) l1))].
      2:{ rewrite <- Hl. exact Hnd'. }
      apply filter_length_le. intros y Hy Hact.
      apply in_map_iff in Hy as (x & <- & Hx). unfold activate, databases.hasId in *. simpl in *.
      case_bool_decide as Hx'; simpl; [by apply bool_decide_eq_true|].
      rewrite Forall_forall in Hin. specialize (Hin x (proj2 (list_elem_of_In _ _) Hx)).
      unfold activeIn in Hact. apply andb_true_iff in Hact as [HGx Hact].
      apply bool_decide_eq_true in HGx. rewrite (Hin HGx Hx') in Hact. done.
    - etrans; [apply filter_map_length_le|].
      2:{ etrans; [by apply deactivated_count|apply Hinv]. }
      intros x Hx. unfold activate, databases.hasId. simpl.
      case_bool_decide as Hx'; [|done].
      rewrite Forall_forall in HK. specialize (HK x (proj2 (list_elem_of_In _ _) Hx) Hx').
      unfold activeIn. simpl. rewrite HK. by rewrite bool_decide_eq_false_2. }
  split; [done|]. split; [done|]. intros _.
  destruct (deactivated_In _ _ _ Hd Hpoll) as (x & Hx & Hxp).
  exists (Poll.set_active true poll). split; [done|].
  apply length_le_1_In; [apply Hsingle|].
  unfold activePolls. apply filter_In. split.
  - rewrite Hl. apply in_map_iff. exists x. split; [|done].
    unfold activate, databases.hasId. simpl.
    destruct Hxp as [->| ->]; simpl; by rewrite bool_decide_eq_true_2.
  - unfold activeIn. simpl. by rewrite bool_decide_eq_true_2.
Qed.

Lemma createPoll_active env d w p w' :
  PollHelpers.createPoll env d w = (Ok p, w') →
  activePolls (PollData.groupId d) w' = [p].
Proof.
  intros H.
  apply createPoll_inv in H as [(e & [=] & _)|(q & l1 & [= <-] & Hl & _ & Hin & HG & Hact & _)].
  unfold activePolls. rewrite Hl, List.filter_app, (filter_activeIn_nil _ _ Hin). simpl.
  unfold activeIn. by rewrite Hact, bool_decide_eq_true_2.
Qed.

(** With an accepting backend [createPoll] completes. *)
Lemma createPoll_accepting env d w :
  accepting env → ∃ p w', PollHelpers.createPoll env d w = (Ok p, w').
Proof.
  intros Hacc. unfold PollHelpers.createPoll, try_catch, bind.
  unfold databases.listDocuments at 1. rewrite request_accept by done. simpl.
  match goal with |- context [Promise_all ?ps ?w1] =>
    destruct (deactivate_all_accepting env
      (List.filter Poll.active (Query.run [Query.equal Poll.groupId (PollData.groupId d)]
         (polls (db w)))) w1 Hacc) as (x & w2 & H2) end.
  { intros p Hp. apply filter_In in Hp as [Hp _]. rewrite run_equal_groupId in Hp.
    apply filter_In in Hp as [Hp _]. by apply in_map. }
  rewrite H2. unfold ID_unique. simpl.
  unfold databases.createDocument. rewrite request_accept by done. simpl. eauto.
Qed.

Lemma head_take_1 {A} (l : list A) : head (take 1 l) = head l.
Proof. by destruct l. Qed.

(** [getActivePoll] never throws: a rejected listing is logged and
    answered with [null]. *)
Lemma getActivePoll_eq env G w :
  PollHelpers.getActivePoll env G w =
    if rejects env (ListDocuments POLLS) (calls w)
    then (Ok None, with_console (console w ++ ["Error getting active poll:"])
                     (with_calls (S (calls w)) w))
    else (Ok (head (activePolls G w)), with_calls (S (calls w)) w).
Proof.
  unfold PollHelpers.getActivePoll, try_catch, bind, databases.listDocuments, databases.request.
  simpl. destruct (rejects env _ _); simpl; [done|].
  by rewrite run_active_limit1, head_take_1.
Qed.

Lemma getGroupPolls_eq env G w :
  PollHelpers.getGroupPolls env G w =
    if rejects env (ListDocuments POLLS) (calls w)
    then (Ok [], with_console (console w ++ ["Error getting group polls:"])
                   (with_calls (S (calls w)) w))
    else (Ok (Query.run [Query.equal Poll.groupId G; Query.orderDesc Poll.createdAt;
                         Query.limit 100] (polls (db w))),
          with_calls (S (calls w)) w).
Proof.
  unfold PollHelpers.getGroupPolls, try_catch, bind, databases.listDocuments, databases.request.
  simpl. by destruct (rejects env _ _).
Qed.

Lemma getPollVotes_eq env P w :
  PollHelpers.getPollVotes env P w =
    if rejects env (ListDocuments VOTES) (calls w)
    then (Ok [], with_console (console w ++ ["Error getting poll votes:"])
                   (with_calls (S (calls w)) w))
    else (Ok (List.filter (fun v => bool_decide (Vote.pollId v = P)) (votes (db w))),
          with_calls (S (calls w)) w).
Proof.
  unfold PollHelpers.getPollVotes, try_catch, bind, databases.listDocuments, databases.request.
  simpl. destruct (rejects env _ _); [done|]. do 2 f_equal.
  unfold Query.run. simpl. apply filter_ext. intros v. simpl. by rewrite andb_true_r.
Qed.

(** ** The vote ledger *)

Lemma run_votesOf P U w :
  Query.run [Query.equal Vote.pollId P; Query.equal Vote.userId U] (votes (db w))
  = votesOf P U w.
Proof.
  unfold Query.run, votesOf. simpl. apply filter_ext. intros v. simpl.
  by rewrite andb_true_r.
Qed.

Lemma filter_map_commute {A} (f : A → bool) (g : A → A) l :
  (∀ x, f (g x) = f x) → List.filter f (map g l) = map g (List.filter f l).
Proof.
  intros H. induction l as [|a l IH]; simpl; [done|].
  rewrite H. destruct (f a); simpl; by rewrite IH.
Qed.

(** The update branch of [castVote]. *)
Lemma castVote_existing env P U c w v0 rest :
  accepting env →
  votesOf P U w = v0 :: rest →
  PollHelpers.castVote env P U c w =
    (Ok tt,
     with_db (put COLLECTIONS.VOTES
                (map (fun x => if databases.hasId COLLECTIONS.VOTES (Vote.id v0) x
                               then Vote.set_choice (choiceString c) x else x)
                     (votes (db w))) (db w))
       (with_calls (S (S (calls w))) w)).
Proof.
  intros Hacc Hv. unfold PollHelpers.castVote, try_catch, bind.
  unfold databases.listDocuments. rewrite request_accept by done. simpl.
  rewrite run_votesOf, Hv.
  unfold databases.updateDocument. rewrite request_accept by done. simpl.
  assert (Hex : existsb (databases.hasId COLLECTIONS.VOTES (Vote.id v0)) (votes (db w)) = true).
  { apply existsb_exists. exists v0. split.
    - assert (In v0 (votesOf P U w)) as Hin by (rewrite Hv; by left).
      by apply filter_In in Hin as [? _].
    - unfold databases.hasId. simpl. by apply bool_decide_eq_true. }
  by rewrite Hex.
Qed.

(** The insert branch of [castVote]. *)
Lemma castVote_new env P U c w :
  accepting env →
  votesOf P U w = [] →
  PollHelpers.castVote env P U c w =
    (Ok tt,
     with_db (put COLLECTIONS.VOTES
                (votes (db w) ++ [Vote.mk (unique env (issued w)) P U (choiceString c)]) (db w))
       (with_calls (S (S (calls w))) (with_issued (S (issued w)) w))).
Proof.
  intros Hacc Hv. unfold PollHelpers.castVote, try_catch, bind.
  unfold databases.listDocuments. rewrite request_accept by done. simpl.
  rewrite run_votesOf, Hv. unfold ID_unique. simpl.
  unfold databases.createDocument. rewrite request_accept by done. done.
Qed.

(** ** Locking a plan *)

Lemma decodeMetadata_valid m :
  validMetadata m = true → ∃ meta, ∀ w, Planbot.decodeMetadata m w = (Ok (Some meta), w).
Proof. destruct m as [[meta| | | |]| |]; simpl; intros H; try done; eauto. Qed.

Lemma sendSystemMessage_accepting env G text w :
  rejects env (CreateDocument MESSAGES) (calls w) = false →
  Planbot.sendSystemMessage env G text w =
    (Ok tt,
     with_db (put COLLECTIONS.MESSAGES
                (messages (db w) ++
                 [Message.mk (unique env (issued w)) G "planbot" "PlanBot" "" text None (Some true)])
                (db w))
       (with_calls (S (calls w)) (with_issued (S (issued w)) w))).
Proof.
  intros Hacc. unfold Planbot.sendSystemMessage, bind, ID_unique, databases.createDocument,
    databases.request. simpl. by rewrite Hacc.
Qed.

Lemma sendPersonalNotification_accepting env U text md w :
  accepting env →
  ∃ w' n,
    Planbot.sendPersonalNotification env U text md w = (Ok tt, w')
    ∧ polls (db w') = polls (db w)
    ∧ notifications (db w') = notifications (db w) ++ [n]
    ∧ Notification.userId n = U.
Proof.
  intros Hacc. unfold Planbot.sendPersonalNotification, try_catch, bind, ID_unique.
  unfold databases.createDocument. rewrite request_accept by done. simpl.
  eexists _, _. split; [done|]. simpl. done.
Qed.

Lemma notify_all_accepting env text md (js : list Vote.t) w :
  accepting env →
  ∃ w' added,
    for_of js (fun joiner =>
      Planbot.sendPersonalNotification env (Vote.userId joiner) text md) w = (Ok tt, w')
    ∧ polls (db w') = polls (db w)
    ∧ notifications (db w') = notifications (db w) ++ added
    ∧ map Notification.userId added = map Vote.userId js.
Proof.
  intros Hacc. revert w. induction js as [|j js IH]; intros w; simpl.
  - exists w, []. by rewrite app_nil_r.
  - unfold bind at 1.
    destruct (sendPersonalNotification_accepting env (Vote.userId j) text md w Hacc)
      as (w1 & n & -> & Hp1 & Hn1 & Hu1).
    destruct (IH w1) as (w' & added & -> & Hp & Hn & Hu).
    exists w', (n :: added). split; [done|]. simpl.
    split; [congruence|]. split; [|congruence].
    by rewrite Hn, Hn1, <- app_assoc.
Qed.

Lemma filter_filter_andb {A} (f g : A → bool) l :
  List.filter f (List.filter g l) = List.filter (fun x => g x && f x) l.
Proof.
  induction l as [|a l IH]; simpl; [done|].
  destruct (g a); simpl; [destruct (f a)|]; by rewrite IH.
Qed.

Lemma filter_map_length {A B} (f : B → bool) (g : A → B) l :
  length (List.filter (fun x => f (g x)) l) = length (List.filter f (map g l)).
Proof. induction l as [|a l IH]; simpl; [done|]. destruct (f (g a)); simpl; by rewrite IH. Qed.

(** How many of the notifications go to one user: as many as that user
    has [join] votes on the poll. *)
Lemma notifications_per_user U (added : list Notification.t) (js : list Vote.t) :
  map Notification.userId added = map Vote.userId js →
  length (notificationsFor U added)
  = length (List.filter (fun v => bool_decide (Vote.userId v = U)) js).
Proof.
  intros H. unfold notificationsFor.
  pose proof (filter_map_length (fun u : string => bool_decide (u = U))
                Notification.userId added) as H1.
  pose proof (filter_map_length (fun u : string => bool_decide (u = U)) Vote.userId js) as H2.
  simpl in H1, H2. rewrite H1, H2. by rewrite H.
Qed.

Lemma lockDecision_accepting env G name w active rest :
  accepting env →
  activePolls G w = active :: rest →
  validMetadata (Poll.metadata active) = true →
  ∃ w' added,
    Planbot.lockDecision env G name w = (Ok tt, w')
    ∧ polls (db w') =
        map (fun x => if databases.hasId COLLECTIONS.POLLS (Poll.id active) x
                      then Poll.set_active false x else x) (polls (db w))
    ∧ notifications (db w') = notifications (db w) ++ added
    ∧ map Notification.userId added =
        map Vote.userId
          (List.filter (fun v => bool_decide (Vote.choice v = "join"))
             (List.filter (fun v => bool_decide (Vote.pollId v = Poll.id active)) (votes (db w)))).
Proof.
  intros Hacc Hactive Hvalid.
  destruct (decodeMetadata_valid _ Hvalid) as [meta Hmeta].
  unfold Planbot.lockDecision. unfold bind at 1. rewrite getActivePoll_eq, Hacc, Hactive. simpl.
  unfold bind at 1. rewrite Hmeta.
  unfold bind at 1. rewrite getPollVotes_eq, Hacc. simpl.
  unfold bind at 1. unfold databases.updateDocument. rewrite request_accept by done. simpl.
  assert (Hex : existsb (databases.hasId COLLECTIONS.POLLS (Poll.id active)) (polls (db w)) = true).
  { apply existsb_exists. exists active. split.
    - assert (In active (activePolls G w)) as Hin by (rewrite Hactive; by left).
      by apply filter_In in Hin as [? _].
    - unfold databases.hasId. simpl. by apply bool_decide_eq_true. }
  rewrite Hex. unfold bind at 1. unfold Planbot.fields, ret at 1.
  unfold bind at 1. rewrite sendSystemMessage_accepting by apply Hacc. simpl.
  match goal with |- context [for_of ?js ?f ?w1] =>
    destruct (notify_all_accepting env
      (PlanConfirmed active meta name (length js))
      (Some (NotificationMetadata.mk G name (Poll.id active) (Poll.title active)
         (Poll.description active) (Metadata.date meta) (Metadata.time meta)
         (length js) (Poll.type active))) js w1 Hacc) as (w' & added & H & Hp & Hn & Hu) end.
  exists w', added. split; [exact H|]. simpl in *. by rewrite Hp, Hn.
Qed.

(** ** A program logic for the monad *)

Lemma hoare_ret {A} (P : World → Prop) (a : A) Q E :
  (∀ w, P w → Q a w) → hoare P (ret a) Q E.
Proof. unfold hoare, ret. auto. Qed.

Lemma hoare_throw {A} (P : World → Prop) e (Q : A → World → Prop) (E : Exn → World → Prop) :
  (∀ w, P w → E e w) → hoare P (throw e) Q E.
Proof. unfold hoare, throw. auto. Qed.

Lemma hoare_bind {A B} P (m : M A) (k : A → M B) R Q E :
  hoare P m R E → (∀ a, hoare (R a) (k a) Q E) → hoare P (bind m k) Q E.
Proof.
  unfold hoare, bind. intros Hm Hk w HP. specialize (Hm w HP).
  destruct (m w) as [[a|e] w1]; [by apply Hk|done].
Qed.

Lemma hoare_try {A} P (m : M A) (h : Exn → M A) Q E E' :
  hoare P m Q E' → (∀ e, hoare (E' e) (h e) Q E) → hoare P (try_catch m h) Q E.
Proof.
  unfold hoare, try_catch. intros Hm Hh w HP. specialize (Hm w HP).
  destruct (m w) as [[a|e] w1]; [done|by apply Hh].
Qed.

Lemma hoare_conseq {A} (P P' : World → Prop) (m : M A) (Q Q' : A → World → Prop)
    (E E' : Exn → World → Prop) :
  hoare P' m Q' E' →
  (∀ w, P w → P' w) → (∀ a w, Q' a w → Q a w) → (∀ e w, E' e w → E e w) →
  hoare P m Q E.
Proof.
  unfold hoare. intros Hm HP HQ HE w Hw. specialize (Hm w (HP w Hw)).
  destruct (m w) as [[a|e] w1]; auto.
Qed.







Lemma tame_try {A} (m : M A) (h : Exn → M A) :
  tame m → (∀ e, tame (h e)) → tame (try_catch m h).
Proof. intros Hm Hh. eapply hoare_try; [exact Hm|exact Hh]. Qed.



(** A step that leaves the polls as they are. *)
Lemma safe_polls_unchanged {A} (m : M A) :
  (∀ w, ∃ a w', m w = (Ok a, w') ∧ polls (db w') = polls (db w)) → safe m.
Proof.
  intros H w Hw. destruct (H w) as (a & w' & -> & Hp). unfold validPolls. by rewrite Hp.
Qed.











(** ** PlanBot commands when message writes and poll updates are accepted *)

Section PlanbotSafety.

Variable env : Env.
Hypothesis messages_accepted : ∀ n, rejects env (CreateDocument MESSAGES) n = false.
Hypothesis poll_updates_accepted : ∀ n, rejects env (UpdateDocument POLLS) n = false.











Lemma safe_getPollVotes P : safe (PollHelpers.getPollVotes env P).
Proof.
  apply safe_polls_unchanged. intros w. rewrite getPollVotes_eq.
  destruct (rejects env _ _); eauto.
Qed.








End PlanbotSafety.

(** ** Date and time tokens *)

Lemma last_filter_cons {A} (f : A → bool) a l d :
  match last (List.filter f (a :: l)) with Some x => Some x | None => d end
  = match last (List.filter f l) with
    | Some x => Some x
    | None => if f a then Some a else d
    end.
Proof.
  simpl. destruct (f a); [|done]. rewrite last_cons. by destruct (last (List.filter f l)).
Qed.

Lemma parseDateTime_from args date time :
  fold_left (fun '(date, time) a =>
      let date := if Planbot.isDate a then Some a else date in
      let time := if Planbot.isTime a then Some (Js.toLowerCase a) else time in
      (date, time)) args (date, time)
  = (match last (List.filter Planbot.isDate args) with Some x => Some x | None => date end,
     match last (List.filter Planbot.isTime args) with
     | Some x => Some (Js.toLowerCase x) | None => time end).
Proof.
  revert date time. induction args as [|a args IH]; intros date time; [done|].
  cbn [fold_left]. rewrite IH. f_equal.
  - symmetry. apply last_filter_cons.
  - simpl. destruct (Planbot.isTime a); [|done]. rewrite last_cons.
    by destruct (last (List.filter Planbot.isTime args)).
Qed.

(** A date token is never a time token: the two patterns accept strings
    of different lengths. *)
Lemma isDate_not_isTime a : Planbot.isDate a = true → Planbot.isTime a = false.
Proof.
  unfold Planbot.isDate, Planbot.isTime.
  destruct (list_ascii_of_string a) as [|c1 [|c2 [|c3 [|c4 [|c5 [|c6 [|c7 [|c8 [|c9 [|c10 [|c11 l]]]]]]]]]]];
    try done.
  intros _. cbn.
  destruct (Js.isDigit c1), (bool_decide (c2 = ":"%char)), (Js.isDigit c2),
    (bool_decide (c3 = ":"%char)), (Js.isDigit c3), (Js.isDigit c4), (Js.isDigit c5); done.
Qed.

(** A date token and a time token are found in either order. *)
Lemma parseDateTime_either_order d t :
  Planbot.isDate d = true → Planbot.isTime t = true →
  Planbot.parseDateTime [d; t] = (Some d, Some (Js.toLowerCase t))
  ∧ Planbot.parseDateTime [t; d] = (Some d, Some (Js.toLowerCase t)).
Proof.
  intros Hd Ht. pose proof (isDate_not_isTime d Hd) as Hdt.
  assert (Planbot.isDate t = false) as Htd.
  { destruct (Planbot.isDate t) eqn:E; [|done]. apply isDate_not_isTime in E. congruence. }
  unfold Planbot.parseDateTime. simpl. by rewrite Hd, Ht, Hdt, Htd.
Qed.

(** ** The realtime handlers *)

Lemma onMessage_other_group G (r : GroupChat.RealtimeResponse Message.t) st :
  Message.groupId (GroupChat.payload r) ≠ G → GroupChat.onMessage G r st = st.
Proof. intros H. unfold GroupChat.onMessage. by rewrite bool_decide_eq_false_2. Qed.

Lemma onPoll_other_group G (r : GroupChat.RealtimeResponse Poll.t) st :
  Poll.groupId (GroupChat.payload r) ≠ G → GroupChat.onPoll G r st = st.
Proof. intros H. unfold GroupChat.onPoll. by rewrite bool_decide_eq_false_2. Qed.

Lemma NoDup_ids_filter (g : Poll.t → bool) l :
  NoDup (map Poll.id l) → NoDup (map Poll.id (List.filter g l)).
Proof.
  induction l as [|a l IH]; simpl; [done|]. intros Hnd.
  apply NoDup_cons in Hnd as [Hnotin Hnd]. destruct (g a); simpl; [|by apply IH].
  apply NoDup_cons. split; [|by apply IH].
  intros Hin. apply Hnotin. apply list_elem_of_In in Hin. apply list_elem_of_In.
  apply in_map_iff in Hin as (x & Hx & Hin). apply in_map_iff. exists x. split; [done|].
  by apply filter_In in Hin as [? _].
Qed.

Lemma createPoll_unique_ids env d w p w' :
  uniquePollIds w →
  PollHelpers.createPoll env d w = (Ok p, w') →
  Poll.id p ∉ map Poll.id (polls (db w)) →
  uniquePollIds w'.
Proof.
  intros Hnd H Hfresh.
  apply createPoll_inv in H as [(e & [=] & _)|(q & l1 & [= <-] & Hl & Hd & _)].
  unfold uniquePollIds. rewrite Hl, map_app, (deactivated_ids _ _ Hd). simpl.
  apply NoDup_app. split; [done|]. split; [|apply NoDup_singleton].
  intros x Hx ->%list_elem_of_singleton. done.
Qed.

Lemma deliver_fromOtherGroup G c st :
  fromOtherGroup G c = true → GroupChat.deliver G c st = st.
Proof.
  unfold GroupChat.deliver. case_bool_decide as Hempty; [done|].
  destruct c as [r|r|r|r]; simpl; intros Hc; try done.
  - apply onMessage_other_group. apply negb_true_iff in Hc. by apply bool_decide_eq_false in Hc.
  - apply onPoll_other_group. apply negb_true_iff in Hc. by apply bool_decide_eq_false in Hc.
Qed.

(** ** The model on concrete inputs *)

Example parseArgs_when :
  Planbot.parseArgs "  /When  2025-10-30   7:30PM "
  = ("when", ["2025-10-30"; "7:30PM"]).
Proof. reflexivity. Qed.

(** The exclamation mark passes the prefix test but is not stripped. *)
Example parseArgs_bang : Planbot.parseArgs "!help" = ("!help", []).
Proof. reflexivity. Qed.

Example isTime_samples :
  map Planbot.isTime ["7:30"; "07:30am"; "19:30"; "7:30PM"; "7:3"; "123:30"; "7:30xm"; ":30"]
  = [true; true; true; true; false; false; false; false].
Proof. reflexivity. Qed.

Example isDate_samples :
  map Planbot.isDate ["2025-10-30"; "2025-1-30"; "2025-10-300"; "2025/10/30"]
  = [true; false; false; false].
Proof. reflexivity. Qed.

(** A new poll in g1 replaces the active one there and leaves g2 alone. *)
Example createPoll_replaces_active :
  map (fun p => (Poll.id p, Poll.active p))
      (polls (db (PollHelpers.createPoll Sample.env Sample.draft Sample.onePerGroup).2))
  = [("p1", false); ("p2", false); ("p3", true); ("id0", true)].
Proof. reflexivity. Qed.

(** /when with a date and no time creates nothing and says how to use it. *)
Example when_without_time :
  let w := with_selectedItems
             {[ "g1" := PlaceItem (PlaceResult.mk "osm_node_2" "Cafe D" "3 High Street"
                                     None None None None) ]} Sample.onePerGroup in
  let '(r, w') := Planbot.handlePlanbotCommand Sample.env "/when 2025-10-30" Sample.ctx w in
  r = Ok (PlanbotResult.mk true)
  ∧ polls (db w') = polls (db w)
  ∧ map Message.text (messages (db w')) = [UsageWhen]
  ∧ selectedItems w' = selectedItems w.
Proof. vm_compute. repeat split. Qed.

(** Three members vote join, maybe and no; /lock notifies the first only. *)
Example lock_after_three_votes :
  let w' := (Planbot.handlePlanbotCommand Sample.env "/lock" Sample.ctx Sample.voted).2 in
  map Poll.active (polls (db w')) = [false]
  ∧ map Notification.userId (notifications (db w')) = ["u1"].
Proof. vm_compute. repeat split. Qed.

(** * Lemmas about the rest of the code *)

(** ** Tallies *)

Lemma getVoteCounts_from votes j m n :
  fold_left (fun counts vote =>
      if bool_decide (Vote.choice vote = "join") then
        VoteCounts.mk (S (VoteCounts.join counts)) (VoteCounts.maybe counts) (VoteCounts.no counts)
      else if bool_decide (Vote.choice vote = "maybe") then
        VoteCounts.mk (VoteCounts.join counts) (S (VoteCounts.maybe counts)) (VoteCounts.no counts)
      else if bool_decide (Vote.choice vote = "no") then
        VoteCounts.mk (VoteCounts.join counts) (VoteCounts.maybe counts) (S (VoteCounts.no counts))
      else counts)
    votes (VoteCounts.mk j m n)
  = VoteCounts.mk (j + countChoice "join" votes) (m + countChoice "maybe" votes)
      (n + countChoice "no" votes).
Proof.
  revert j m n. induction votes as [|v votes IH]; intros j m n.
  - simpl. unfold countChoice. simpl. by rewrite !Nat.add_0_r.
  - cbn [fold_left]. unfold countChoice in *. simpl.
    repeat case_bool_decide; simpl; rewrite IH; simpl; f_equal; try lia; congruence.
Qed.

Lemma countChoices_from (votes : list Vote.t) (counts : gmap string nat) c :
  default 0 (fold_left (fun counts v =>
      <[Vote.choice v := default 0 (counts !! Vote.choice v) + 1]> counts) votes counts !! c)
  = default 0 (counts !! c) + countChoice c votes.
Proof.
  revert counts. induction votes as [|v votes IH]; intros counts.
  - unfold countChoice. simpl. lia.
  - cbn [fold_left]. rewrite IH. unfold countChoice. simpl.
    rewrite lookup_insert. case_decide as Hc; case_bool_decide; try congruence; simpl;
      subst; lia.
Qed.

Lemma countChoices_count votes c :
  default 0 (Planbot.countChoices votes !! c) = countChoice c votes.
Proof.
  unfold Planbot.countChoices. rewrite countChoices_from.
  rewrite !lookup_insert. repeat case_decide; simpl; try done.
Qed.

Lemma partition_by_choice (votes : list Vote.t) :
  countChoice "join" votes + countChoice "maybe" votes + countChoice "no" votes
  + length (List.filter (fun v => negb (bool_decide (Vote.choice v = "join"))
                                  && negb (bool_decide (Vote.choice v = "maybe"))
                                  && negb (bool_decide (Vote.choice v = "no"))) votes)
  = length votes.
Proof.
  unfold countChoice. induction votes as [|v votes IH]; simpl; [done|].
  repeat case_bool_decide; simpl; try lia; congruence.
Qed.

(** ** The vote ledger under any backend *)

Lemma find_head_filter {A} (f : A → bool) l : find f l = head (List.filter f l).
Proof. induction l as [|a l IH]; simpl; [done|]. by destruct (f a). Qed.

Lemma find_filter {A} (f g : A → bool) l :
  find f (List.filter g l) = find (fun x => g x && f x) l.
Proof.
  induction l as [|a l IH]; simpl; [done|].
  destruct (g a); simpl; [destruct (f a)|]; done.
Qed.

(** What [castVote] leaves behind, whatever the backend does. *)
Lemma castVote_inv env P U c w r w' :
  PollHelpers.castVote env P U c w = (r, w') →
  polls (db w') = polls (db w) ∧ notifications (db w') = notifications (db w)
  ∧ (((∃ e, r = Throw e) ∧ votes (db w') = votes (db w))
     ∨ (r = Ok tt ∧ ∃ v0 rest, votesOf P U w = v0 :: rest
          ∧ votes (db w') =
              map (fun x => if bool_decide (Vote.id x = Vote.id v0)
                            then Vote.set_choice (choiceString c) x else x) (votes (db w)))
     ∨ (r = Ok tt ∧ votesOf P U w = []
          ∧ ∃ id, votes (db w') = votes (db w) ++ [Vote.mk id P U (choiceString c)])).
Proof.
  unfold PollHelpers.castVote, try_catch, bind. intros H.
  destruct (databases.listDocuments _ _ _ w) as [[existing|e] w1] eqn:H1;
    apply listDocuments_inv in H1 as [Hdb1 Hr1].
  2:{ inversion H; subst. simpl. rewrite Hdb1. repeat split. left. eauto. }
  destruct Hr1 as [(? & ? & _)|Hr1]; [done|]. inversion Hr1 as [Hex]; clear Hr1.
  rewrite run_votesOf in Hex.
  destruct existing as [|v0 rest].
  - unfold ID_unique in H. simpl in H.
    match type of H with context [databases.createDocument ?e ?C ?i ?f ?w] =>
      destruct (databases.createDocument e C i f w) as [[p|e'] w3] eqn:H3 end;
      apply createDocument_inv in H3 as [[[e3 He3] Hdb3]|(Hr3 & _ & Hdb3)]; try done;
      simpl in *; inversion H; subst; simpl; rewrite Hdb3; simpl; rewrite ?Hdb1.
    + repeat split. right. right. split; [done|]. split; [done|]. eauto.
    + repeat split. left. eauto.
  - destruct (databases.updateDocument _ _ _ _ w1) as [r2 w2] eqn:H2.
    apply updateDocument_inv in H2 as [[[e2 ->] Hdb2]|(-> & _ & _ & Hdb2)];
      inversion H; subst; simpl; rewrite Hdb2; simpl; rewrite ?Hdb1.
    + repeat split. left. eauto.
    + repeat split. right. left. split; [done|]. eauto.
Qed.

Lemma votesOf_map_set_choice P U i c l :
  List.filter (fun v => bool_decide (Vote.pollId v = P) && bool_decide (Vote.userId v = U))
    (map (fun x => if bool_decide (Vote.id x = i) then Vote.set_choice c x else x) l)
  = map (fun x => if bool_decide (Vote.id x = i) then Vote.set_choice c x else x)
      (List.filter (fun v => bool_decide (Vote.pollId v = P) && bool_decide (Vote.userId v = U)) l).
Proof. apply filter_map_commute. intros x. by destruct (bool_decide (Vote.id x = i)). Qed.

Lemma castVote_keeps_singleVote env P U c w r w' :
  singleVote w → PollHelpers.castVote env P U c w = (r, w') → singleVote w'.
Proof.
  intros Hinv H P' U'.
  apply castVote_inv in H as (_ & _ & [[_ Hv]|[(_ & v0 & rest & _ & Hv)|(_ & Hnone & i & Hv)]]);
    unfold votesOf in *; rewrite Hv.
  - apply Hinv.
  - rewrite votesOf_map_set_choice, length_map. apply Hinv.
  - rewrite List.filter_app, length_app. simpl.
    destruct (decide (P' = P ∧ U' = U)) as [[-> ->]|Hne].
    + rewrite Hnone. simpl. by rewrite !bool_decide_eq_true_2.
    + specialize (Hinv P' U'). unfold votesOf in Hinv.
      repeat case_bool_decide; simpl; try lia. subst. by destruct Hne.
Qed.

(** After a completed [castVote] the first vote of the user among the
    votes of the poll carries the choice cast. *)
Lemma castVote_first_vote env P U c w w' :
  PollHelpers.castVote env P U c w = (Ok tt, w') →
  ∃ v, PollHelpersRest.hasUserVoted
         (List.filter (fun v => bool_decide (Vote.pollId v = P)) (votes (db w'))) U = Some v
       ∧ Vote.choice v = choiceString c ∧ Vote.pollId v = P ∧ Vote.userId v = U.
Proof.
  intros H. unfold PollHelpersRest.hasUserVoted. rewrite find_filter, find_head_filter.
  apply castVote_inv in H as (_ & _ & [[[e [=]] _]|[(_ & v0 & rest & Hv0 & Hv)|(_ & Hnone & i & Hv)]]);
    rewrite Hv.
  - rewrite votesOf_map_set_choice. fold (votesOf P U w). rewrite Hv0. simpl.
    rewrite bool_decide_eq_true_2 by done. eexists. split; [done|]. simpl.
    assert (In v0 (votesOf P U w)) as Hin by (rewrite Hv0; by left).
    apply filter_In in Hin as [_ Hin]. apply andb_true_iff in Hin as [HP HU].
    apply bool_decide_eq_true in HP, HU. done.
  - rewrite List.filter_app. fold (votesOf P U w). rewrite Hnone. simpl.
    rewrite !bool_decide_eq_true_2 by done. simpl. eexists. split; [done|]. done.
Qed.

(** ** Deleting a poll; the creator check *)

Lemma run_pollId P l :
  Query.run [Query.equal Vote.pollId P] l
  = List.filter (fun v => bool_decide (Vote.pollId v = P)) l.
Proof. unfold Query.run. simpl. apply filter_ext. intros v. simpl. by rewrite andb_true_r. Qed.

Lemma delete_votes_all env (vs : list Vote.t) w r w' :
  Promise_all (map (fun vote =>
      databases.deleteDocument env COLLECTIONS.VOTES (Vote.id vote)) vs) w = (r, w') →
  (∀ v, In v (votes (db w')) → In v (votes (db w)))
  ∧ ((∃ x, r = Ok x) →
     ∀ v, In v (votes (db w')) → ¬ In (Vote.id v) (map Vote.id vs)).
Proof.
  revert w r w'. induction vs as [|a vs IH]; simpl; intros w r w' H.
  - inversion H; subst. split; [done|]. intros _ v _ [].
  - destruct (databases.deleteDocument _ _ _ w) as [r1 w1] eqn:H1.
    destruct (Promise_all _ w1) as [rs w2] eqn:H2.
    apply IH in H2 as [Hsub2 Hgone2]. inversion H; subst. clear H.
    apply deleteDocument_inv in H1 as [[[e ->] Hdb1]|[-> Hdb1]].
    + split; [intros v Hv; rewrite <- Hdb1; by apply Hsub2|]. by intros [x ?].
    + assert (Hstep : ∀ v, In v (votes (db w1)) → In v (votes (db w)) ∧ Vote.id v ≠ Vote.id a).
      { intros v. rewrite Hdb1. simpl. intros [Hin Hid]%filter_In. split; [done|].
        unfold databases.hasId in Hid. simpl in Hid. apply negb_true_iff in Hid.
        by apply bool_decide_eq_false in Hid. }
      split; [intros v Hv; by apply Hstep, Hsub2|].
      intros [x Hx] v Hv [Hid|Hin].
      * destruct (Hstep v (Hsub2 v Hv)) as [_ Hne]. congruence.
      * destruct rs as [l|e]; [|done]. by apply (Hgone2 (ex_intro _ l eq_refl) v Hv).
Qed.

(** A completed [deletePoll] leaves neither the poll nor a vote on it. *)
Lemma deletePoll_completed env pollId userId w w' :
  PollHelpers.deletePoll env pollId userId w = (Ok tt, w') →
  (∀ p, In p (polls (db w')) → Poll.id p ≠ pollId)
  ∧ (∀ v, In v (votes (db w')) → Vote.pollId v ≠ pollId)
  ∧ (∀ p, In p (polls (db w')) → In p (polls (db w)))
  ∧ (∀ v, In v (votes (db w')) → In v (votes (db w))).
Proof.
  unfold PollHelpers.deletePoll, try_catch, bind. intros H.
  destruct (databases.getDocument _ _ _ w) as [[poll|e] w1] eqn:H1;
    apply getDocument_inv in H1 as [Hdb1 Hr1]; [|by inversion H].
  case_bool_decide as Hcreator; simpl in H; [|by inversion H].
  destruct (databases.listDocuments _ _ _ w1) as [[vs|e] w2] eqn:H2;
    apply listDocuments_inv in H2 as [Hdb2 Hr2]; [|by inversion H].
  destruct Hr2 as [(? & ? & _)|Hr2]; [done|]. inversion Hr2 as [Hvs]; clear Hr2.
  rewrite run_pollId, Hdb1 in Hvs.
  destruct (Promise_all _ w2) as [[x|e] w3] eqn:H3; [|by inversion H].
  assert (Hp3 := delete_votes_polls _ _ _ _ _ H3).
  apply delete_votes_all in H3 as [Hsub3 Hgone3].
  specialize (Hgone3 (ex_intro _ x eq_refl)). rewrite Hdb2, Hdb1 in Hsub3, Hp3.
  destruct (databases.deleteDocument _ _ _ w3) as [r4 w4] eqn:H4.
  apply deleteDocument_inv in H4 as [[[e4 ->] Hdb4]|[-> Hdb4]]; [by inversion H|].
  inversion H; subst w'. rewrite Hdb4. simpl. rewrite Hp3.
  split; [|split; [|split]].
  - intros p [_ Hid]%filter_In. unfold databases.hasId in Hid. simpl in Hid.
    apply negb_true_iff in Hid. by apply bool_decide_eq_false in Hid.
  - intros v Hv HP. apply (Hgone3 v Hv). apply in_map. subst vs.
    apply filter_In. split; [by apply Hsub3|]. by apply bool_decide_eq_true.
  - by intros p [? _]%filter_In.
  - done.
Qed.

(** Unless the requester created the poll, the three mutations throw and
    leave every collection as it was. *)
Lemma not_creator_rejected env pollId userId w :
  (∀ poll, find (databases.hasId COLLECTIONS.POLLS pollId) (polls (db w)) = Some poll →
           Poll.creatorId poll ≠ userId) →
  ∀ (op : Env → string → string → M unit),
    op = PollHelpers.deletePoll ∨ op = PollHelpers.deactivatePoll
    ∨ op = PollHelpers.activatePoll →
    ∃ e, (op env pollId userId w).1 = Throw e ∧ db (op env pollId userId w).2 = db w.
Proof.
  intros Hnot op Hop.
  assert (Hget : ∀ r w1, databases.getDocument env COLLECTIONS.POLLS pollId w = (r, w1) →
            db w1 = db w ∧ match r with
                           | Ok poll => bool_decide (Poll.creatorId poll = userId) = false
                           | Throw _ => True end).
  { intros r w1 H. apply getDocument_inv in H as [Hdb [[e ->]|(x & -> & Hfind)]]; [done|].
    split; [done|]. apply bool_decide_eq_false. by apply Hnot. }
  destruct Hop as [->|[->| ->]];
    unfold PollHelpers.deletePoll, PollHelpers.deactivatePoll, PollHelpers.activatePoll,
      try_catch, bind;
    destruct (databases.getDocument _ _ _ w) as [[poll|e] w1] eqn:H1;
    destruct (Hget _ _ eq_refl) as [Hdb Hc]; try rewrite Hc; simpl; eauto.
Qed.

(** ** Frames: what a step leaves alone *)

Lemma keeps_ret {A} (I : World → Prop) (a : A) : keeps I (ret a).
Proof. by apply hoare_ret. Qed.

Lemma keeps_throw {A} (I : World → Prop) e : keeps I (@throw A e).
Proof. by apply hoare_throw. Qed.

Lemma keeps_fields (I : World → Prop) meta : keeps I (Planbot.fields meta).
Proof. destruct meta; [apply keeps_ret|apply keeps_throw]. Qed.

Lemma keeps_bind {A B} (I : World → Prop) (m : M A) (k : A → M B) :
  keeps I m → (∀ a, keeps I (k a)) → keeps I (bind m k).
Proof. intros Hm Hk. eapply hoare_bind; [exact Hm|exact Hk]. Qed.

Lemma keeps_try {A} (I : World → Prop) (m : M A) (h : Exn → M A) :
  keeps I m → (∀ e, keeps I (h e)) → keeps I (try_catch m h).
Proof. intros Hm Hh. eapply hoare_try; [exact Hm|exact Hh]. Qed.

Lemma keeps_for_of {A} (I : World → Prop) (l : list A) (body : A → M unit) :
  (∀ x, keeps I (body x)) → keeps I (for_of l body).
Proof.
  intros Hb. induction l as [|x l IH]; simpl; [apply keeps_ret|].
  apply keeps_bind; auto.
Qed.

Lemma keeps_Promise_all {A} (I : World → Prop) (ps : list (M A)) :
  Forall (keeps I) ps → keeps I (Promise_all ps).
Proof.
  induction 1 as [|p ps Hp _ IH]; [apply keeps_ret|].
  intros w Hw. simpl. specialize (Hp w Hw).
  destruct (p w) as [r1 w1]. assert (I w1) as Hw1 by (by destruct r1).
  specialize (IH w1 Hw1). destruct (Promise_all ps w1) as [rs w2].
  destruct r1, rs; done.
Qed.

(** What a kept property says about the world a step ends in. *)
Lemma keeps_snd {A} (I : World → Prop) (m : M A) w : keeps I m → I w → I (m w).2.
Proof. intros Hm Hw. specialize (Hm w Hw). by destruct (m w) as [[a|e] w']. Qed.

Lemma keeps_db_unchanged {A} (I : World → Prop) (m : M A) :
  (∀ w w', db w' = db w → I w → I w') →
  (∀ w, db (m w).2 = db w) → keeps I m.
Proof.
  intros HI Hm w Hw. specialize (Hm w). destruct (m w) as [[a|e] w']; by eapply HI.
Qed.

Section Untouched.

Context {X : Type} (f : Db → X) (x : X) (env : Env).

Lemma untouched_db w w' : db w' = db w → untouched f x w → untouched f x w'.
Proof. unfold untouched. by intros ->. Qed.

Lemma keeps_console_error line : keeps (untouched f x) (console_error line).
Proof. apply keeps_db_unchanged; [apply untouched_db|done]. Qed.

Lemma keeps_ID_unique : keeps (untouched f x) (ID_unique env).
Proof. apply keeps_db_unchanged; [apply untouched_db|done]. Qed.

Lemma keeps_set_searchResults G r : keeps (untouched f x) (Planbot.set_searchResults G r).
Proof. apply keeps_db_unchanged; [apply untouched_db|done]. Qed.

Lemma keeps_listDocuments {D} (C : Coll D) qs :
  keeps (untouched f x) (databases.listDocuments env C qs).
Proof.
  apply keeps_db_unchanged; [apply untouched_db|]. intros w.
  destruct (databases.listDocuments env C qs w) as [r w'] eqn:H. simpl.
  by apply listDocuments_inv in H as [-> _].
Qed.

Lemma keeps_getDocument {D} (C : Coll D) id :
  keeps (untouched f x) (databases.getDocument env C id).
Proof.
  apply keeps_db_unchanged; [apply untouched_db|]. intros w.
  destruct (databases.getDocument env C id w) as [r w'] eqn:H. simpl.
  by apply getDocument_inv in H as [-> _].
Qed.

Lemma keeps_updateDocument {D} (C : Coll D) id patch :
  ignores f C → keeps (untouched f x) (databases.updateDocument env C id patch).
Proof.
  intros Hig w Hw. destruct (databases.updateDocument env C id patch w) as [r w'] eqn:H.
  apply updateDocument_inv in H as [[[e ->] Hdb]|(-> & _ & _ & Hdb)];
    unfold untouched in *; rewrite Hdb; [done|]. by rewrite Hig.
Qed.

Lemma keeps_createDocument {D} (C : Coll D) id data :
  ignores f C → keeps (untouched f x) (databases.createDocument env C id data).
Proof.
  intros Hig w Hw. destruct (databases.createDocument env C id data w) as [r w'] eqn:H.
  apply createDocument_inv in H as [[[e ->] Hdb]|(-> & _ & Hdb)];
    unfold untouched in *; rewrite Hdb; [done|]. by rewrite Hig.
Qed.

Lemma keeps_deleteDocument {D} (C : Coll D) id :
  ignores f C → keeps (untouched f x) (databases.deleteDocument env C id).
Proof.
  intros Hig w Hw. destruct (databases.deleteDocument env C id w) as [r w'] eqn:H.
  apply deleteDocument_inv in H as [[[e ->] Hdb]|(-> & Hdb)];
    unfold untouched in *; rewrite Hdb; [done|]. by rewrite Hig.
Qed.

Lemma keeps_getActivePoll G : keeps (untouched f x) (PollHelpers.getActivePoll env G).
Proof.
  apply keeps_try; [apply keeps_bind; [apply keeps_listDocuments|intros; apply keeps_ret]|].
  intros e. apply keeps_bind; [apply keeps_console_error|intros; apply keeps_ret].
Qed.

Lemma keeps_getPollVotes P : keeps (untouched f x) (PollHelpers.getPollVotes env P).
Proof.
  apply keeps_try; [apply keeps_bind; [apply keeps_listDocuments|intros; apply keeps_ret]|].
  intros e. apply keeps_bind; [apply keeps_console_error|intros; apply keeps_ret].
Qed.

Lemma keeps_getGroupPolls G : keeps (untouched f x) (PollHelpers.getGroupPolls env G).
Proof.
  apply keeps_try; [apply keeps_bind; [apply keeps_listDocuments|intros; apply keeps_ret]|].
  intros e. apply keeps_bind; [apply keeps_console_error|intros; apply keeps_ret].
Qed.

Lemma keeps_decodeMetadata m : keeps (untouched f x) (Planbot.decodeMetadata m).
Proof. destruct m as [[meta| | | |]| |]; simpl; apply keeps_ret || apply keeps_throw. Qed.

(** *** The PlanBot commands *)

Hypothesis f_messages : ignores f COLLECTIONS.MESSAGES.

Lemma keeps_sendSystemMessage G text : keeps (untouched f x) (Planbot.sendSystemMessage env G text).
Proof.
  apply keeps_bind; [apply keeps_ID_unique|]. intros id.
  apply keeps_bind; [by apply keeps_createDocument|]. intros _. apply keeps_ret.
Qed.

Lemma keeps_searchPlaces location category :
  keeps (untouched f x) (Planbot.searchPlaces env location category).
Proof.
  unfold Planbot.searchPlaces. destruct (placesProvider env location category).
  - apply keeps_ret.
  - apply keeps_bind; [apply keeps_console_error|]. intros _. apply keeps_ret.
Qed.

Lemma keeps_getUserGenres U : keeps (untouched f x) (Planbot.getUserGenres env U).
Proof.
  apply keeps_try.
  - apply keeps_bind; [apply keeps_listDocuments|]. intros [|u l]; apply keeps_ret.
  - intros e. apply keeps_bind; [apply keeps_console_error|]. intros _. apply keeps_ret.
Qed.

Lemma keeps_searchMoviesByGenres genres :
  keeps (untouched f x) (Planbot.searchMoviesByGenres env genres).
Proof.
  unfold Planbot.searchMoviesByGenres. case_bool_decide; [apply keeps_throw|].
  destruct (moviesProvider env genres).
  - apply keeps_ret.
  - apply keeps_bind; [apply keeps_console_error|]. intros _. apply keeps_throw.
Qed.

Lemma keeps_suggestOutings G args : keeps (untouched f x) (Planbot.suggestOutings env G args).
Proof.
  unfold Planbot.suggestOutings.
  destruct args as [|area [|city rest]]; try apply keeps_sendSystemMessage.
  apply keeps_bind; [apply keeps_sendSystemMessage|]. intros _.
  apply keeps_try; [|intros; apply keeps_sendSystemMessage].
  apply keeps_bind; [apply keeps_searchPlaces|]. intros [|p places].
  - apply keeps_sendSystemMessage.
  - apply keeps_bind; [apply keeps_sendSystemMessage|]. intros _.
    apply keeps_set_searchResults.
Qed.

Lemma keeps_suggestMovies G U name : keeps (untouched f x) (Planbot.suggestMovies env G U name).
Proof.
  unfold Planbot.suggestMovies.
  apply keeps_bind; [apply keeps_sendSystemMessage|]. intros _.
  apply keeps_try; [|intros; apply keeps_sendSystemMessage].
  apply keeps_bind; [apply keeps_getUserGenres|]. intros [|g genres].
  - apply keeps_sendSystemMessage.
  - apply keeps_bind; [apply keeps_searchMoviesByGenres|]. intros [|m movies].
    + apply keeps_sendSystemMessage.
    + apply keeps_bind; [apply keeps_sendSystemMessage|]. intros _.
      apply keeps_set_searchResults.
Qed.

Lemma keeps_selectItem G args : keeps (untouched f x) (Planbot.selectItem env G args).
Proof.
  unfold Planbot.selectItem. destruct args as [|a args]; [apply keeps_sendSystemMessage|].
  intros w Hw.
  destruct (searchResults w !! G) as [[[|p l]|[|m l]]|];
    try (by apply (keeps_sendSystemMessage G NoSearchResults w Hw)).
  - destruct (find _ (p :: l)) as [y|]; simpl.
    + by apply (keeps_sendSystemMessage G (SelectedPlace y)).
    + by apply (keeps_sendSystemMessage G (ItemNotFound _) w Hw).
  - destruct (find _ (m :: l)) as [y|]; simpl.
    + by apply (keeps_sendSystemMessage G (SelectedMovie y)).
    + by apply (keeps_sendSystemMessage G (ItemNotFound _) w Hw).
Qed.

Lemma keeps_rsvpSummary G : keeps (untouched f x) (Planbot.rsvpSummary env G).
Proof.
  unfold Planbot.rsvpSummary.
  apply keeps_bind; [apply keeps_getActivePoll|]. intros [active|];
    [|apply keeps_sendSystemMessage].
  apply keeps_bind; [apply keeps_getPollVotes|]. intros votes.
  apply keeps_bind; [apply keeps_decodeMetadata|]. intros meta.
  apply keeps_bind; [apply keeps_fields|]. intros m.
  apply keeps_sendSystemMessage.
Qed.

Lemma keeps_attachWhen G args user :
  ignores f COLLECTIONS.POLLS → keeps (untouched f x) (Planbot.attachWhen env G args user).
Proof.
  intros f_polls. unfold Planbot.attachWhen. intros w Hw.
  destruct (selectedItems w !! G) as [selected|];
    [|by apply (keeps_sendSystemMessage G NoItemSelected w Hw)].
  destruct (Planbot.parseDateTime args) as [[date|] [time|]];
    try (by apply (keeps_sendSystemMessage G UsageWhen w Hw)).
  revert w Hw. apply keeps_try; [|intros; apply keeps_sendSystemMessage].
  apply keeps_bind; [apply keeps_listDocuments|]. intros existing.
  apply keeps_bind; [apply keeps_for_of; intros; by apply keeps_updateDocument|]. intros _.
  destruct selected as [place|movie]; simpl.
  - apply keeps_bind; [apply keeps_ID_unique|]. intros id.
    apply keeps_bind; [by apply keeps_createDocument|]. intros newPoll.
    apply keeps_bind; [apply keeps_ID_unique|]. intros id'.
    apply keeps_bind; [by apply keeps_createDocument|]. intros _.
    apply keeps_bind; [apply keeps_sendSystemMessage|]. intros _.
    apply keeps_db_unchanged; [apply untouched_db|done].
  - apply keeps_bind; [apply keeps_ID_unique|]. intros id.
    apply keeps_bind; [by apply keeps_createDocument|]. intros newPoll.
    apply keeps_bind; [apply keeps_ID_unique|]. intros id'.
    apply keeps_bind; [by apply keeps_createDocument|]. intros _.
    apply keeps_bind; [apply keeps_sendSystemMessage|]. intros _.
    apply keeps_db_unchanged; [apply untouched_db|done].
Qed.

Lemma keeps_sendPersonalNotification U text md :
  ignores f COLLECTIONS.NOTIFICATIONS →
  keeps (untouched f x) (Planbot.sendPersonalNotification env U text md).
Proof.
  intros f_notifications. apply keeps_try; [|intros; apply keeps_console_error].
  apply keeps_bind; [apply keeps_ID_unique|]. intros id.
  apply keeps_bind; [by apply keeps_createDocument|]. intros _. apply keeps_ret.
Qed.

Lemma keeps_lockDecision G name :
  ignores f COLLECTIONS.POLLS → ignores f COLLECTIONS.NOTIFICATIONS →
  keeps (untouched f x) (Planbot.lockDecision env G name).
Proof.
  intros f_polls f_notifications. unfold Planbot.lockDecision.
  apply keeps_bind; [apply keeps_getActivePoll|]. intros [active|];
    [|apply keeps_sendSystemMessage].
  apply keeps_bind; [apply keeps_decodeMetadata|]. intros meta.
  apply keeps_bind; [apply keeps_getPollVotes|]. intros votes.
  apply keeps_bind; [by apply keeps_updateDocument|]. intros _.
  apply keeps_bind; [apply keeps_fields|]. intros m.
  apply keeps_bind; [apply keeps_sendSystemMessage|]. intros _.
  apply keeps_for_of. intros joiner. by apply keeps_sendPersonalNotification.
Qed.

(** The interpreter as a whole: writes to polls come from /when and /lock
    only, writes to notifications from /lock only. *)
Lemma keeps_handlePlanbotCommand input ctx :
  ((Planbot.parseArgs (Js.trim input)).1 = "when" ∨ (Planbot.parseArgs (Js.trim input)).1 = "lock"
   → ignores f COLLECTIONS.POLLS) →
  ((Planbot.parseArgs (Js.trim input)).1 = "lock" → ignores f COLLECTIONS.NOTIFICATIONS) →
  keeps (untouched f x) (Planbot.handlePlanbotCommand env input ctx).
Proof.
  intros f_polls f_notifications. unfold Planbot.handlePlanbotCommand.
  destruct (negb _); [apply keeps_ret|].
  destruct (Planbot.parseArgs (Js.trim input)) as [cmd args]. simpl in *.
  repeat case_bool_decide; (apply keeps_bind; [|intros; apply keeps_ret]).
  - apply keeps_sendSystemMessage.
  - apply keeps_suggestOutings.
  - apply keeps_suggestMovies.
  - apply keeps_selectItem.
  - apply keeps_attachWhen. auto.
  - apply keeps_rsvpSummary.
  - apply keeps_lockDecision; auto.
  - apply keeps_sendSystemMessage.
Qed.

End Untouched.

(** ** PlanBot and the single active poll *)

Lemma ignores_polls_messages : ignores polls COLLECTIONS.MESSAGES.
Proof. done. Qed.

Lemma ignores_polls_notifications : ignores polls COLLECTIONS.NOTIFICATIONS.
Proof. done. Qed.

(** A step that leaves the polls alone keeps whatever is said of them. *)
Lemma keeps_polls_pred {A} (P : list Poll.t → Prop) (m : M A) :
  (∀ x, keeps (untouched polls x) m) → keeps (fun w => P (polls (db w))) m.
Proof.
  intros Hm w Hw. specialize (Hm (polls (db w)) w eq_refl). unfold untouched in Hm.
  destruct (m w) as [[a|e] w']; by rewrite Hm.
Qed.

Lemma deactivate_loop env (ps : list Poll.t) w r w' :
  for_of ps (fun poll =>
      databases.updateDocument env COLLECTIONS.POLLS (Poll.id poll) (Poll.set_active false)) w
    = (r, w') →
  deactivated (polls (db w)) (polls (db w'))
  ∧ (r = Ok tt →
     Forall (fun p => In (Poll.id p) (map Poll.id ps) → Poll.active p = false) (polls (db w'))).
Proof.
  revert w r w'. induction ps as [|a ps IH]; simpl; intros w r w' H.
  - inversion H; subst. split; [apply deactivated_refl|]. intros _.
    apply Forall_forall. by intros ? ? [].
  - unfold bind in H.
    destruct (databases.updateDocument _ _ _ _ w) as [r1 w1] eqn:H1.
    apply deactivate_step in H1 as [Hd1 Hi1].
    destruct r1 as [[]|e1].
    + apply IH in H as [Hd2 Hi2]. split; [by eapply deactivated_trans|].
      intros ->. specialize (Hi1 eq_refl). specialize (Hi2 eq_refl).
      eapply (deactivated_Forall _ _ _ _ _ Hd2 Hi1 Hi2).
      intros p p' Hpp' Hp Hp' [Hin|Hin]; [|by apply Hp'].
      destruct Hpp' as [->| ->]; [by apply Hp|done].
    + inversion H; subst. by split.
Qed.

Lemma supersededBy_refl G l : supersededBy G l l.
Proof. left. apply deactivated_refl. Qed.

Lemma supersededBy_single G l0 l G' :
  (∀ G, (length (List.filter (activeIn G) l0) ≤ 1)%nat) →
  supersededBy G l0 l →
  (length (List.filter (activeIn G') l) ≤ 1)%nat.
Proof.
  intros Hinv [Hd|(l1 & p & -> & Hd & Hin & HG & Hact)].
  - etrans; [by apply deactivated_count|apply Hinv].
  - rewrite List.filter_app, length_app. simpl.
    destruct (activeIn G' p) eqn:HGa; simpl.
    + assert (G' = G) as ->.
      { unfold activeIn in HGa. apply andb_true_iff in HGa as [HGa _].
        apply bool_decide_eq_true in HGa. congruence. }
      rewrite (filter_activeIn_nil _ _ Hin). simpl. lia.
    + pose proof (deactivated_count G' _ _ Hd). specialize (Hinv G'). lia.
Qed.

Section Superseded.

Variable env : Env.
Variable G : string.
Variable l0 : list Poll.t.

Let S (w : World) : Prop := supersededBy G l0 (polls (db w)).

(** A step that leaves the polls alone, started from [l0]. *)
Lemma hoare_polls_untouched {A} (m : M A) :
  (∀ x, keeps (untouched polls x) m) →
  hoare (fun w => polls (db w) = l0) m (fun _ => S) (fun _ => S).
Proof.
  intros Hm w Hw. specialize (Hm l0 w Hw). unfold untouched, S in *.
  destruct (m w) as [[a|e] w']; rewrite Hm; apply supersededBy_refl.
Qed.

Lemma keeps_S_untouched {A} (m : M A) :
  (∀ x, keeps (untouched polls x) m) → keeps S m.
Proof. apply (keeps_polls_pred (supersededBy G l0)). Qed.

Lemma attachWhen_superseded args user :
  hoare (fun w => polls (db w) = l0) (Planbot.attachWhen env G args user)
    (fun _ => S) (fun _ => S).
Proof.
  unfold Planbot.attachWhen. intros w Hw.
  destruct (selectedItems w !! G) as [selected|].
  2:{ apply (hoare_polls_untouched (Planbot.sendSystemMessage env G NoItemSelected)); [|done].
      intros x. by apply keeps_sendSystemMessage. }
  destruct (Planbot.parseDateTime args) as [[date|] [time|]];
    try (apply (hoare_polls_untouched (Planbot.sendSystemMessage env G UsageWhen)); [|done];
         intros x; by apply keeps_sendSystemMessage).
  revert w Hw. eapply hoare_try.
  2:{ intros e. apply keeps_S_untouched. intros x. by apply keeps_sendSystemMessage. }
  eapply (hoare_bind _ _ _
            (fun existing w => polls (db w) = l0 ∧ existing = List.filter (activeIn G) l0)).
  { intros w Hw. destruct (databases.listDocuments _ _ _ w) as [r w1] eqn:H1.
    apply listDocuments_inv in H1 as [Hdb1 [(e & -> & _)| ->]].
    - unfold S. rewrite Hdb1, Hw. apply supersededBy_refl.
    - simpl. rewrite run_active, Hdb1, Hw. done. }
  intros existing.
  eapply (hoare_bind _ _ _
            (fun _ w => deactivated l0 (polls (db w))
                        ∧ Forall (fun q => Poll.groupId q = G → Poll.active q = false)
                            (polls (db w)))).
  { intros w [Hw ->]. destruct (for_of _ _ w) as [r w1] eqn:H1.
    apply deactivate_loop in H1 as [Hd Hi]. rewrite Hw in Hd.
    destruct r as [[]|e]; [|by left]. split; [done|]. specialize (Hi eq_refl).
    eapply (deactivated_Forall (fun p => In p l0) _ _ _ _ Hd);
      [by apply Forall_forall; intros ? ?%list_elem_of_In|exact Hi|].
    intros p p' Hpp' Hp Hp' HG. destruct (Poll.active p') eqn:Hact; [|done].
    rewrite <- Hact. apply Hp'. destruct Hpp' as [->| ->]; [|done].
    apply in_map. apply filter_In. split; [done|]. unfold activeIn.
    by rewrite Hact, bool_decide_eq_true_2. }
  intros _.
  assert (Htail : ∀ (data : string → nat → Poll.t) (k : Poll.t → M unit),
            (∀ i t, Poll.groupId (data i t) = G ∧ Poll.active (data i t) = true) →
            (∀ p x, keeps (untouched polls x) (k p)) →
            hoare (fun w => deactivated l0 (polls (db w))
                            ∧ Forall (fun q => Poll.groupId q = G → Poll.active q = false)
                                (polls (db w)))
              (id <- ID_unique env ;;
               newPoll <- databases.createDocument env COLLECTIONS.POLLS id data ;;
               k newPoll)
              (fun _ => S) (fun _ => S)).
  { intros data k Hdata Hk.
    eapply (hoare_bind _ _ _
              (fun _ w => deactivated l0 (polls (db w))
                          ∧ Forall (fun q => Poll.groupId q = G → Poll.active q = false)
                              (polls (db w)))).
    { intros w Hw. done. }
    intros id. eapply (hoare_bind _ _ _ (fun _ => S)).
    - intros w [Hd Hin]. destruct (databases.createDocument _ _ _ _ w) as [r w1] eqn:H1.
      apply createDocument_inv in H1 as [[[e ->] Hdb]|(-> & _ & Hdb)];
        unfold S; rewrite Hdb; [by left|]. simpl.
      right. eexists _, _. split; [done|]. destruct (Hdata id (calls w)). done.
    - intros p. apply keeps_S_untouched. intros x. apply Hk. }
  assert (Hk : ∀ title description isMovie p x,
            keeps (untouched polls x)
              (id <- ID_unique env ;;
               databases.createDocument env COLLECTIONS.MESSAGES id (fun id _ =>
                 Message.mk id G (User.id user) (User.name user)
                   (orString (User.avatar user) "") (NewPollCreated title)
                   (Some (Poll.id p)) None) ;;;
               Planbot.sendSystemMessage env G (PollCreated isMovie title description date time) ;;;
               (fun w => (Ok tt, with_searchResults (delete G (searchResults w))
                                   (with_selectedItems (delete G (selectedItems w)) w))))).
  { intros. apply keeps_bind; [apply keeps_ID_unique|]. intros id.
    apply keeps_bind; [by apply keeps_createDocument|]. intros _.
    apply keeps_bind; [by apply keeps_sendSystemMessage|]. intros _.
    apply keeps_db_unchanged; [apply untouched_db|done]. }
  destruct selected as [place|movie]; simpl.
  - apply Htail; [done|]. intros p x. apply Hk.
  - apply Htail; [done|]. intros p x. apply Hk.
Qed.

Lemma keeps_deactivated_update i :
  keeps (fun w => deactivated l0 (polls (db w)))
    (databases.updateDocument env COLLECTIONS.POLLS i (Poll.set_active false)).
Proof.
  intros w Hw. destruct (databases.updateDocument _ _ _ _ w) as [r w'] eqn:H.
  apply deactivate_step in H as [Hd _].
  destruct r; by eapply deactivated_trans.
Qed.

Lemma lockDecision_deactivates name :
  keeps (fun w => deactivated l0 (polls (db w))) (Planbot.lockDecision env G name).
Proof.
  unfold Planbot.lockDecision.
  apply keeps_bind; [apply (keeps_polls_pred (deactivated l0)); intros; apply keeps_getActivePoll|].
  intros [active|].
  2:{ apply (keeps_polls_pred (deactivated l0)). intros. by apply keeps_sendSystemMessage. }
  apply keeps_bind; [apply (keeps_polls_pred (deactivated l0)); intros; apply keeps_decodeMetadata|].
  intros meta.
  apply keeps_bind; [apply (keeps_polls_pred (deactivated l0)); intros; apply keeps_getPollVotes|].
  intros votes.
  apply keeps_bind; [apply keeps_deactivated_update|]. intros _.
  apply keeps_bind; [apply keeps_fields|]. intros m.
  apply keeps_bind;
    [apply (keeps_polls_pred (deactivated l0)); intros; by apply keeps_sendSystemMessage|].
  intros _. apply keeps_for_of. intros joiner.
  apply (keeps_polls_pred (deactivated l0)). intros. by apply keeps_sendPersonalNotification.
Qed.

End Superseded.

Lemma handlePlanbotCommand_superseded env input ctx l0 :
  hoare (fun w => polls (db w) = l0) (Planbot.handlePlanbotCommand env input ctx)
    (fun _ w => supersededBy (PlanbotContext.groupId ctx) l0 (polls (db w)))
    (fun _ w => supersededBy (PlanbotContext.groupId ctx) l0 (polls (db w))).
Proof.
  unfold Planbot.handlePlanbotCommand.
  destruct (negb _).
  { apply hoare_ret. intros w <-. apply supersededBy_refl. }
  destruct (Planbot.parseArgs (Js.trim input)) as [cmd args].
  assert (Hret : ∀ (m : M unit),
            hoare (fun w => polls (db w) = l0) m
              (fun _ w => supersededBy (PlanbotContext.groupId ctx) l0 (polls (db w)))
              (fun _ w => supersededBy (PlanbotContext.groupId ctx) l0 (polls (db w))) →
            hoare (fun w => polls (db w) = l0) (m ;;; ret (PlanbotResult.mk true))
              (fun _ w => supersededBy (PlanbotContext.groupId ctx) l0 (polls (db w)))
              (fun _ w => supersededBy (PlanbotContext.groupId ctx) l0 (polls (db w)))).
  { intros m Hm. eapply hoare_bind; [exact Hm|]. intros u. by apply hoare_ret. }
  repeat case_bool_decide; apply Hret.
  - apply hoare_polls_untouched. intros. by apply keeps_sendSystemMessage.
  - apply hoare_polls_untouched. intros. by apply keeps_suggestOutings.
  - apply hoare_polls_untouched. intros. by apply keeps_suggestMovies.
  - apply hoare_polls_untouched. intros. by apply keeps_selectItem.
  - apply attachWhen_superseded.
  - apply hoare_polls_untouched. intros. by apply keeps_rsvpSummary.
  - eapply hoare_conseq; [apply (lockDecision_deactivates env _ l0)|..].
    + intros w <-. apply deactivated_refl.
    + intros a w Hd. by left.
    + intros e w Hd. by left.
  - apply hoare_polls_untouched. intros. by apply keeps_sendSystemMessage.
Qed.

(** ** What a system message changes *)

Lemma sendSystemMessage_eq env G text w :
  Planbot.sendSystemMessage env G text w =
    if rejects env (CreateDocument MESSAGES) (calls w)
    then (Throw (AppwriteException (CreateDocument MESSAGES)),
          with_calls (S (calls w)) (with_issued (S (issued w)) w))
    else (Ok tt,
          with_db (put COLLECTIONS.MESSAGES
                     (messages (db w) ++
                      [Message.mk (unique env (issued w)) G "planbot" "PlanBot" "" text None
                         (Some true)])
                     (db w))
            (with_calls (S (calls w)) (with_issued (S (issued w)) w))).
Proof.
  unfold Planbot.sendSystemMessage, bind, ID_unique, databases.createDocument,
    databases.request. simpl. by destruct (rejects env _ _).
Qed.

(** A system message touches the messages and the two counters only. *)
Lemma sendSystemMessage_frame env G text w :
  let w' := (Planbot.sendSystemMessage env G text w).2 in
  polls (db w') = polls (db w) ∧ votes (db w') = votes (db w)
  ∧ notifications (db w') = notifications (db w)
  ∧ selectedItems w' = selectedItems w ∧ searchResults w' = searchResults w.
Proof. rewrite sendSystemMessage_eq. by destruct (rejects env _ _). Qed.

(** ** /when that cannot proceed *)

Lemma attachWhen_soft env G args user w :
  selectedItems w !! G = None
  ∨ (Planbot.parseDateTime args).1 = None ∨ (Planbot.parseDateTime args).2 = None →
  Planbot.attachWhen env G args user w
  = Planbot.sendSystemMessage env G
      (match selectedItems w !! G with Some _ => UsageWhen | None => NoItemSelected end) w.
Proof.
  unfold Planbot.attachWhen. intros H.
  destruct (selectedItems w !! G) as [sel|]; [|done].
  destruct (Planbot.parseDateTime args) as [[d|] [t|]]; simpl in *; try done.
  by destruct H as [|[|]].
Qed.

(** ** /select *)

Lemma find_map {A B} (f : B → bool) (g : A → B) l :
  find f (map g l) = g <$> find (fun x => f (g x)) l.
Proof. induction l as [|a l IH]; simpl; [done|]. by destruct (f (g a)). Qed.

Lemma find_candidates (f : Item → bool) r :
  find f (candidates r)
  = match r with
    | Places l => PlaceItem <$> find (fun p => f (PlaceItem p)) l
    | Movies l => MovieItem <$> find (fun m => f (MovieItem m)) l
    end.
Proof. destruct r; apply find_map. Qed.

Lemma selectItem_selection env G args w :
  let w' := (Planbot.selectItem env G args w).2 in
  let query := Js.toLowerCase (Js.join " " args) in
  selectedItems w' =
    match args with
    | [] => selectedItems w
    | _ =>
        match searchResults w !! G ≫= fun r =>
                find (fun i => Js.includes (Js.toLowerCase (itemName i)) query) (candidates r)
        with
        | Some item => <[G := item]> (selectedItems w)
        | None => selectedItems w
        end
    end
  ∧ searchResults w' = searchResults w
  ∧ polls (db w') = polls (db w) ∧ votes (db w') = votes (db w).
Proof.
  unfold Planbot.selectItem. destruct args as [|a args].
  { simpl. by destruct (sendSystemMessage_frame env G UsageSelect w) as (? & ? & ? & ? & ?). }
  cbv zeta. set (query := Js.toLowerCase (Js.join " " (a :: args))).
  destruct (searchResults w !! G) as [r|] eqn:Hr.
  2:{ simpl. by destruct (sendSystemMessage_frame env G NoSearchResults w) as (? & ? & ? & ? & ?). }
  change (Some r ≫= ?f) with (f r). cbv beta. rewrite find_candidates.
  destruct r as [[|p l]|[|m l]];
    try (simpl; by destruct (sendSystemMessage_frame env G NoSearchResults w)
                     as (? & ? & ? & ? & ?)).
  - cbn [itemName]. fold query. destruct (find _ (p :: l)) as [y|]; cbn [fmap option_fmap option_map].
    + by destruct (sendSystemMessage_frame env G (SelectedPlace y)
                     (with_selectedItems (<[G:=PlaceItem y]> (selectedItems w)) w))
        as (? & ? & ? & ? & ?).
    + by destruct (sendSystemMessage_frame env G
                     (ItemNotFound (map PlaceResult.name (p :: l))) w) as (? & ? & ? & ? & ?).
  - cbn [itemName]. fold query. destruct (find _ (m :: l)) as [y|]; cbn [fmap option_fmap option_map].
    + by destruct (sendSystemMessage_frame env G (SelectedMovie y)
                     (with_selectedItems (<[G:=MovieItem y]> (selectedItems w)) w))
        as (? & ? & ? & ? & ?).
    + by destruct (sendSystemMessage_frame env G
                     (ItemNotFound (map MovieResult.title (m :: l))) w) as (? & ? & ? & ? & ?).
Qed.

(** ** /planoutings *)

Lemma suggestOutings_accepted env G area city rest w :
  (∀ n, rejects env (CreateDocument MESSAGES) n = false) →
  let category := orString (head rest) "cafe" in
  let location := area +:+ " " +:+ city in
  let '(r, w') := Planbot.suggestOutings env G (area :: city :: rest) w in
  r = Ok tt
  ∧ polls (db w') = polls (db w) ∧ selectedItems w' = selectedItems w
  ∧ match placesProvider env location category with
    | Ok (p :: places) =>
        searchResults w' = <[G := Places (take 5 (p :: places))]> (searchResults w)
        ∧ map Message.text (messages (db w'))
          = map Message.text (messages (db w))
            ++ [Searching category location;
                PlaceSuggestions category location (take 5 (p :: places))]
    | _ =>
        searchResults w' = searchResults w
        ∧ map Message.text (messages (db w'))
          = map Message.text (messages (db w))
            ++ [Searching category location; NoPlacesFound category location]
    end.
Proof.
  intros Hmsg. cbv zeta. unfold Planbot.suggestOutings.
  unfold bind at 1. rewrite sendSystemMessage_eq, Hmsg.
  unfold try_catch, Planbot.searchPlaces.
  destruct (placesProvider env _ _) as [[|p places]|e].
  - unfold bind, ret. rewrite sendSystemMessage_eq, Hmsg. simpl.
    repeat split. by rewrite !map_app, <- app_assoc.
  - unfold bind, ret. rewrite sendSystemMessage_eq, Hmsg. simpl.
    repeat split. by rewrite !map_app, <- app_assoc.
  - unfold bind, ret, console_error. rewrite sendSystemMessage_eq, Hmsg. simpl.
    repeat split. by rewrite !map_app, <- app_assoc.
Qed.

(** ** /rsvp *)

Lemma rsvpSummary_accepting env G w active rest :
  accepting env →
  activePolls G w = active :: rest →
  validMetadata (Poll.metadata active) = true →
  let votes := List.filter (fun v => bool_decide (Vote.pollId v = Poll.id active))
                 (votes (db w)) in
  ∃ w' meta m,
    Planbot.rsvpSummary env G w = (Ok tt, w')
    ∧ messages (db w') = messages (db w) ++ [m]
    ∧ Message.text m
      = RsvpSummary active meta (countChoice "join" votes) (countChoice "maybe" votes)
          (countChoice "no" votes)
    ∧ Message.groupId m = G ∧ Message.isSystemMessage m = Some true.
Proof.
  intros Hacc Hactive Hvalid. cbv zeta.
  destruct (decodeMetadata_valid _ Hvalid) as [meta Hmeta].
  unfold Planbot.rsvpSummary. unfold bind at 1. rewrite getActivePoll_eq, Hacc, Hactive. simpl.
  unfold bind at 1. rewrite getPollVotes_eq, Hacc. simpl.
  unfold bind at 1. rewrite Hmeta.
  unfold bind at 1. unfold Planbot.fields, ret at 1.
  rewrite sendSystemMessage_eq, Hacc. simpl.
  eexists _, meta, _. split; [done|]. simpl. split; [done|].
  by rewrite !countChoices_count.
Qed.

(** ** /when that succeeds *)

Lemma deactivate_loop_accepting env (ps : list Poll.t) w :
  accepting env →
  (∀ p, In p ps → In (Poll.id p) (map Poll.id (polls (db w)))) →
  ∃ w', for_of ps (fun poll =>
          databases.updateDocument env COLLECTIONS.POLLS (Poll.id poll) (Poll.set_active false)) w
        = (Ok tt, w')
    ∧ votes (db w') = votes (db w) ∧ messages (db w') = messages (db w)
    ∧ notifications (db w') = notifications (db w)
    ∧ selectedItems w' = selectedItems w ∧ searchResults w' = searchResults w.
Proof.
  intros Hacc. revert w. induction ps as [|a ps IH]; simpl; intros w Hin; [by eauto 10|].
  unfold bind.
  destruct (databases.updateDocument _ _ _ _ w) as [r1 w1] eqn:H1.
  assert (Hids : map Poll.id (polls (db w1)) = map Poll.id (polls (db w))).
  { apply deactivated_ids. by apply deactivate_step in H1 as [? _]. }
  unfold databases.updateDocument in H1. rewrite request_accept in H1 by done.
  assert (Hex : existsb (databases.hasId COLLECTIONS.POLLS (Poll.id a)) (polls (db w)) = true).
  { apply existsb_exists. specialize (Hin a (or_introl eq_refl)).
    apply in_map_iff in Hin as (q & Hq & Hqin). exists q. split; [done|].
    unfold databases.hasId. simpl. by apply bool_decide_eq_true. }
  simpl in H1. rewrite Hex in H1. inversion H1; subst r1.
  destruct (IH w1) as (w' & Hrest & Hv & Hm & Hn & Hs & Hr).
  { intros p Hp. rewrite Hids. apply Hin. by right. }
  exists w'. subst w1. split; [done|]. simpl in *. done.
Qed.

Lemma attachWhen_accepting env G args user w item date time :
  accepting env →
  selectedItems w !! G = Some item →
  Planbot.parseDateTime args = (Some date, Some time) →
  ∃ w' p meta,
    Planbot.attachWhen env G args user w = (Ok tt, w')
    ∧ activePolls G w' = [p]
    ∧ Poll.title p = itemName item ∧ Poll.creatorId p = User.id user
    ∧ Poll.metadata p = MetaString (Encoded meta)
    ∧ Metadata.date meta = Some date ∧ Metadata.time meta = Some time
    ∧ selectedItems w' !! G = None ∧ searchResults w' !! G = None
    ∧ votes (db w') = votes (db w)
    ∧ ∃ m1 m2, messages (db w') = messages (db w) ++ [m1; m2]
        ∧ Message.text m1 = NewPollCreated (itemName item)
        ∧ Message.pollId m1 = Some (Poll.id p)
        ∧ Message.senderId m2 = "planbot".
Proof.
  intros Hacc Hsel Hdt. unfold Planbot.attachWhen. rewrite Hsel, Hdt.
  unfold try_catch. unfold bind at 1.
  unfold databases.listDocuments. rewrite request_accept by done. simpl.
  rewrite run_active. unfold bind at 1.
  match goal with |- context [for_of ?ps ?f ?w1] =>
    destruct (deactivate_loop_accepting env ps w1 Hacc) as (w2 & Hloop & Hv & Hm & Hn & Hs & Hr);
    [|pose proof (deactivate_loop env ps w1 (Ok tt) w2 Hloop) as [Hd Hi]] end.
  { intros p Hp. apply filter_In in Hp as [Hp _]. by apply in_map. }
  specialize (Hi eq_refl). simpl in Hd, Hv, Hm, Hs, Hr.
  assert (Hnil : List.filter (activeIn G) (polls (db w2)) = []).
  { apply filter_activeIn_nil.
    eapply (deactivated_Forall (fun p => In p (polls (db w))) _ _ _ _ Hd);
      [by apply Forall_forall; intros ? ?%list_elem_of_In|exact Hi|].
    intros p p' Hpp' Hp Hp' HG. destruct (Poll.active p') eqn:Hact; [|done].
    rewrite <- Hact. apply Hp'. destruct Hpp' as [->| ->]; [|done].
    apply in_map. apply filter_In. split; [done|]. unfold activeIn.
    by rewrite Hact, bool_decide_eq_true_2. }
  rewrite Hloop.
  destruct item as [place|movie]; simpl;
    unfold bind, ID_unique, databases.createDocument; simpl;
    rewrite !request_accept by done; simpl;
    rewrite sendSystemMessage_eq, Hacc; simpl;
    (eexists _, _, _; split; [done|]); simpl;
    unfold activePolls; simpl; rewrite List.filter_app, Hnil; simpl;
    unfold activeIn; simpl; rewrite bool_decide_eq_true_2 by done; simpl;
    rewrite Hs, Hr, Hv, Hm, !lookup_delete_eq;
    (repeat split; try done);
    eexists _, _; (split; [by rewrite <- app_assoc|]); done.
Qed.

(** ** /lock a second time *)

Lemma lockDecision_no_active env G name w :
  activePolls G w = [] →
  rejects env (ListDocuments POLLS) (calls w) = false →
  Planbot.lockDecision env G name w
  = Planbot.sendSystemMessage env G NoActivePlanToLock (with_calls (S (calls w)) w).
Proof.
  intros Hnone Hacc. unfold Planbot.lockDecision. unfold bind at 1.
  by rewrite getActivePoll_eq, Hacc, Hnone.
Qed.

Lemma activePolls_after_lock G (active : Poll.t) l :
  List.filter (activeIn G) l = [active] →
  List.filter (activeIn G)
    (map (fun x => if databases.hasId COLLECTIONS.POLLS (Poll.id active) x
                   then Poll.set_active false x else x) l) = [].
Proof.
  intros Hone. apply filter_activeIn_nil. apply Forall_forall.
  intros q Hq HG. apply list_elem_of_In, in_map_iff in Hq as (p & <- & Hp).
  unfold databases.hasId in *. simpl in *.
  case_bool_decide as Hid; simpl in *; [done|].
  destruct (Poll.active p) eqn:Hact; [|done]. exfalso. apply Hid.
  assert (In p (List.filter (activeIn G) l)) as Hin.
  { apply filter_In. split; [done|]. unfold activeIn. by rewrite Hact, bool_decide_eq_true_2. }
  rewrite Hone in Hin. by destruct Hin as [->|[]].
Qed.

(** ** ASCII text *)

Ltac by_ascii c := destruct c as [[] [] [] [] [] [] [] []].

Lemma codePoints_ascii c r :
  isAscii c = true → Js.codePoints (String c r) = Js.code c :: Js.codePoints r.
Proof. by_ascii c; intros H; try discriminate H; reflexivity. Qed.

Lemma lowerOne_ascii c st r :
  isAscii c = true → Js.lowerOne st (Js.code c) r = [Js.code (Js.lowerChar c)].
Proof. by_ascii c; intros H; try discriminate H; vm_compute; reflexivity. Qed.

Lemma encodePoint_ascii c : isAscii c = true → Js.encodePoint (Js.code c) = [c].
Proof. by_ascii c; intros H; try discriminate H; reflexivity. Qed.

Lemma lowerChar_ascii c : isAscii c = true → isAscii (Js.lowerChar c) = true.
Proof. by_ascii c; intros H; try discriminate H; reflexivity. Qed.

Lemma lowerPoints_ascii st s :
  Forall (fun c => isAscii c = true) (list_ascii_of_string s) →
  Js.encode (Js.lowerPoints st (Js.codePoints s))
  = string_of_list_ascii (map Js.lowerChar (list_ascii_of_string s)).
Proof.
  revert st. induction s as [|c s IH]; intros st Hs; [done|].
  simpl in Hs. apply Forall_cons in Hs as [Hc Hs].
  rewrite codePoints_ascii by done. cbn [Js.lowerPoints].
  rewrite lowerOne_ascii by done. unfold Js.encode. cbn [app flat_map].
  rewrite encodePoint_ascii by (by apply lowerChar_ascii).
  cbn [app string_of_list_ascii list_ascii_of_string map]. f_equal. by apply IH.
Qed.

(** On ASCII text [toLowerCase] lowers the letters A to Z and nothing else. *)
Lemma toLowerCase_ascii s :
  Forall (fun c => isAscii c = true) (list_ascii_of_string s) →
  Js.toLowerCase s = string_of_list_ascii (map Js.lowerChar (list_ascii_of_string s)).
Proof. apply lowerPoints_ascii. Qed.

(** ** Commands written with an exclamation mark *)

Lemma words_go_eq a r cur :
  Js.words_go (String a r) cur
  = let flush (k : list string) :=
      match cur with [] => k | _ => string_of_list_ascii (rev cur) :: k end in
    if Js.isSpace1 a then flush (Js.words_go r [])
    else
      match r with
      | String b r2 =>
          if Js.isSpace2 a b then flush (Js.words_go r2 [])
          else
            match r2 with
            | String c r3 =>
                if Js.isSpace3 a b c then flush (Js.words_go r3 [])
                else Js.words_go r (a :: cur)
            | EmptyString => Js.words_go r (a :: cur)
            end
      | EmptyString => Js.words_go r (a :: cur)
      end.
Proof. reflexivity. Qed.

Lemma words_go_head s cur :
  cur ≠ [] →
  ∃ t rest u, Js.words_go s cur = t :: rest ∧ list_ascii_of_string t = rev cur ++ u.
Proof.
  revert cur. induction s as [|c s IH]; intros cur Hcur.
  - simpl. destruct cur as [|a cur]; [done|]. eexists _, [], [].
    split; [done|]. by rewrite list_ascii_of_string_of_list_ascii, app_nil_r.
  - assert (Hflush : ∀ k, ∃ t rest u,
              match cur with [] => k | _ => string_of_list_ascii (rev cur) :: k end = t :: rest
              ∧ list_ascii_of_string t = rev cur ++ u).
    { intros k. destruct cur as [|a cur]; [done|]. eexists _, _, [].
      split; [done|]. by rewrite list_ascii_of_string_of_list_ascii, app_nil_r. }
    assert (Hnext : ∃ t rest u, Js.words_go s (c :: cur) = t :: rest
                                ∧ list_ascii_of_string t = rev cur ++ u).
    { destruct (IH (c :: cur)) as (t & rest & u & Ht & Hu); [done|].
      exists t, rest, (c :: u). split; [done|]. rewrite Hu. simpl.
      by rewrite <- app_assoc. }
    rewrite words_go_eq. cbv zeta.
    destruct (Js.isSpace1 c); [apply Hflush|].
    destruct s as [|b s2]; [apply Hnext|].
    destruct (Js.isSpace2 c b); [apply Hflush|].
    destruct s2 as [|c3 s3]; [apply Hnext|].
    destruct (Js.isSpace3 c b c3); [apply Hflush|apply Hnext].
Qed.

Lemma trimStart_bang s : Js.trimStart (String "!" s) = String "!" s.
Proof. by destruct s as [|b [|c s]]. Qed.

Lemma trimEnd_bang s : ∃ s', Js.trimEnd (String "!" s) = String "!" s'.
Proof.
  change (Js.trimEnd (String "!" s))
    with (match Js.trimStart (String "!" s) with
          | EmptyString => EmptyString
          | _ => String "!" (Js.trimEnd s)
          end).
  rewrite trimStart_bang. eauto.
Qed.

Lemma toLowerCase_bang t : ∃ t', Js.toLowerCase (String "!" t) = String "!" t'.
Proof.
  unfold Js.toLowerCase. rewrite codePoints_ascii by done. cbn [Js.lowerPoints].
  rewrite lowerOne_ascii by done. unfold Js.encode. cbn [app flat_map].
  rewrite encodePoint_ascii by done. simpl. eauto.
Qed.

Lemma bang_command_token s :
  Js.startsWith s "!" = true →
  ∃ rest args, Planbot.parseArgs s = (String "!" rest, args).
Proof.
  destruct s as [|c s]; [done|]. intros H.
  assert (c = "!"%char) as ->.
  { simpl in H. destruct (bool_decide ("!"%char = c)) eqn:E; [|done].
    by apply bool_decide_eq_true in E. }
  clear H.
  unfold Planbot.parseArgs, Js.trim. rewrite trimStart_bang.
  destruct (trimEnd_bang s) as [s' ->]. cbv zeta. cbn [Planbot.stripPrefix].
  unfold Js.words.
  assert (∃ t rest, Js.words_go (String "!" s') [] = String "!" t :: rest)
    as (t & rest & ->).
  { assert (Hnext : ∃ t rest, Js.words_go s' ["!"%char] = String "!" t :: rest).
    { destruct (words_go_head s' ["!"%char]) as (t & rest & u & Ht & Hu); [done|].
      destruct t as [|a t]; [done|]. simpl in Hu. injection Hu as -> _. eauto. }
    rewrite words_go_eq. cbv zeta.
    change (Js.isSpace1 "!") with false. cbv iota.
    destruct s' as [|b s2]; [apply Hnext|].
    change (Js.isSpace2 "!" b) with false. cbv iota.
    destruct s2 as [|c3 s3]; [apply Hnext|].
    change (Js.isSpace3 "!" b c3) with false. cbv iota. apply Hnext. }
  change (default "" (head (String "!" t :: rest))) with (String "!" t).
  destruct (toLowerCase_bang t) as [t' ->]. eauto.
Qed.

(** ** Tokens that parse again *)

Lemma isDigit_lowerChar c : Js.isDigit (Js.lowerChar c) = Js.isDigit c.
Proof. by destruct c as [[] [] [] [] [] [] [] []]. Qed.

Lemma lowerChar_idem c : Js.lowerChar (Js.lowerChar c) = Js.lowerChar c.
Proof. by destruct c as [[] [] [] [] [] [] [] []]. Qed.

Lemma colon_lowerChar c :
  bool_decide (Js.lowerChar c = ":"%char) = bool_decide (c = ":"%char).
Proof. by destruct c as [[] [] [] [] [] [] [] []]. Qed.

Lemma isMeridiemOrEnd_lower l :
  Planbot.isMeridiemOrEnd (map Js.lowerChar l) = Planbot.isMeridiemOrEnd l.
Proof.
  destruct l as [|x [|y [|z l]]]; simpl; try done. by rewrite !lowerChar_idem.
Qed.

Lemma isMinutesTail_lower l :
  Planbot.isMinutesTail (map Js.lowerChar l) = Planbot.isMinutesTail l.
Proof.
  destruct l as [|c [|m1 [|m2 rest]]]; simpl; try done.
  by rewrite colon_lowerChar, !isDigit_lowerChar, isMeridiemOrEnd_lower.
Qed.

Lemma isTime_lowered l :
  Planbot.isTime (string_of_list_ascii (map Js.lowerChar l))
  = Planbot.isTime (string_of_list_ascii l).
Proof.
  unfold Planbot.isTime. rewrite !list_ascii_of_string_of_list_ascii.
  destruct l as [|h1 rest]; simpl; [done|].
  rewrite isDigit_lowerChar, isMinutesTail_lower.
  destruct rest as [|h2 rest']; simpl; [done|].
  by rewrite isDigit_lowerChar, isMinutesTail_lower.
Qed.

Lemma isDigit_isAscii c : Js.isDigit c = true → isAscii c = true.
Proof. by_ascii c; intros H; try discriminate H; reflexivity. Qed.

Lemma lowered_letter_isAscii c (x : ascii) :
  isAscii x = true → Js.lowerChar c = x → isAscii c = true.
Proof. intros Hx <-. by_ascii c; try discriminate Hx; reflexivity. Qed.

Lemma isMinutesTail_isAscii l :
  Planbot.isMinutesTail l = true → Forall (fun c => isAscii c = true) l.
Proof.
  destruct l as [|c [|m1 [|m2 rest]]]; simpl; try done.
  rewrite !andb_true_iff. intros [[[Hc H1] H2] Hrest].
  apply bool_decide_eq_true in Hc as ->.
  repeat (constructor; [by (reflexivity || apply isDigit_isAscii)|]).
  destruct rest as [|x [|y [|z rest]]]; simpl in Hrest; try done.
  apply andb_true_iff in Hrest as [Hx Hy].
  apply bool_decide_eq_true in Hy.
  repeat constructor; [|by eapply (lowered_letter_isAscii y "m")].
  apply orb_true_iff in Hx as [Hx|Hx]; apply bool_decide_eq_true in Hx.
  - by eapply (lowered_letter_isAscii x "a").
  - by eapply (lowered_letter_isAscii x "p").
Qed.

(** A time token is ASCII text. *)
Lemma isTime_isAscii a :
  Planbot.isTime a = true → Forall (fun c => isAscii c = true) (list_ascii_of_string a).
Proof.
  unfold Planbot.isTime. destruct (list_ascii_of_string a) as [|h1 rest]; [done|].
  rewrite andb_true_iff. intros [H1 H].
  constructor; [by apply isDigit_isAscii|].
  apply orb_true_iff in H as [H|H]; [by apply isMinutesTail_isAscii|].
  destruct rest as [|h2 rest']; [done|]. apply andb_true_iff in H as [H2 H].
  constructor; [by apply isDigit_isAscii|by apply isMinutesTail_isAscii].
Qed.

Lemma isTime_toLowerCase a :
  Planbot.isTime a = true → Planbot.isTime (Js.toLowerCase a) = true.
Proof.
  intros H. rewrite toLowerCase_ascii by (by apply isTime_isAscii).
  by rewrite isTime_lowered, string_of_list_ascii_of_string.
Qed.

Lemma toLowerCase_idem a :
  Planbot.isTime a = true → Js.toLowerCase (Js.toLowerCase a) = Js.toLowerCase a.
Proof.
  intros H. pose proof (isTime_isAscii a H) as Ha.
  rewrite (toLowerCase_ascii a Ha).
  rewrite toLowerCase_ascii; rewrite list_ascii_of_string_of_list_ascii.
  - f_equal. rewrite map_map. apply map_ext. intros c. apply lowerChar_idem.
  - apply Forall_forall. intros c Hc. apply list_elem_of_In, in_map_iff in Hc as (x & <- & Hx).
    apply lowerChar_ascii. rewrite Forall_forall in Ha. apply Ha. by apply list_elem_of_In.
Qed.

Lemma last_filter_holds {A} (f : A → bool) l x :
  last (List.filter f l) = Some x → f x = true.
Proof.
  intros H. assert (In x (List.filter f l)) as Hin.
  { apply list_elem_of_In. by apply last_Some_elem_of. }
  by apply filter_In in Hin as [_ ?].
Qed.

(** ** Voting from the chat page *)

Lemma handleVote_returns env user state P choice w :
  ∃ t, (GroupChatPage.handleVote env user state P choice w).1 = Ok t.
Proof.
  unfold GroupChatPage.handleVote, try_catch.
  destruct (bind _ _ w) as [[t|e] w']; simpl; eauto.
Qed.

Lemma handleVote_in_step env user state P c w :
  accepting env →
  find (fun v => bool_decide (Vote.pollId v = P)
                 && bool_decide (Vote.userId v = User.id user)) state
  = head (votesOf P (User.id user) w) →
  (GroupChatPage.handleVote env user state P (choiceString c) w).1
  = Ok (VoteRecorded (choiceString c))
  ∧ db (GroupChatPage.handleVote env user state P (choiceString c) w).2
    = db (PollHelpers.castVote env P (User.id user) c w).2.
Proof.
  intros Hacc Hfind. unfold GroupChatPage.handleVote, try_catch. rewrite Hfind.
  destruct (votesOf P (User.id user) w) as [|v0 rest] eqn:Hv; simpl.
  - rewrite (castVote_new env P (User.id user) c w Hacc Hv).
    unfold bind, ID_unique, databases.createDocument. simpl.
    rewrite request_accept by done. done.
  - rewrite (castVote_existing env P (User.id user) c w v0 rest Hacc Hv).
    unfold bind, databases.updateDocument. rewrite request_accept by done. simpl.
    assert (Hex : existsb (databases.hasId COLLECTIONS.VOTES (Vote.id v0)) (votes (db w)) = true).
    { apply existsb_exists. exists v0. split.
      - assert (In v0 (votesOf P (User.id user) w)) as Hin by (rewrite Hv; by left).
        by apply filter_In in Hin as [? _].
      - unfold databases.hasId. simpl. by apply bool_decide_eq_true. }
    by rewrite Hex.
Qed.

Lemma handleVote_stale env user state P choice w :
  accepting env →
  find (fun v => bool_decide (Vote.pollId v = P)
                 && bool_decide (Vote.userId v = User.id user)) state = None →
  let w' := (GroupChatPage.handleVote env user state P choice w).2 in
  votes (db w') = votes (db w) ++ [Vote.mk (unique env (issued w)) P (User.id user) choice]
  ∧ length (votesOf P (User.id user) w') = S (length (votesOf P (User.id user) w)).
Proof.
  intros Hacc Hfind. unfold GroupChatPage.handleVote, try_catch. rewrite Hfind.
  unfold bind, ID_unique, databases.createDocument. simpl.
  rewrite request_accept by done. simpl. split; [done|].
  unfold votesOf. simpl. rewrite List.filter_app, length_app. simpl.
  rewrite !bool_decide_eq_true_2 by done. simpl. lia.
Qed.

(** ** Announcing a poll *)

Lemma announcePoll_eq env G pollId title senderId senderName avatar w :
  PollHelpersRest.announcePoll env G pollId title senderId senderName avatar w =
    if rejects env (CreateDocument MESSAGES) (calls w)
    then (Ok tt,
          with_console (console w ++ ["Error announcing poll:"])
            (with_calls (S (calls w)) (with_issued (S (issued w)) w)))
    else (Ok tt,
          with_db (put COLLECTIONS.MESSAGES
                     (messages (db w) ++
                      [Message.mk (unique env (issued w)) G senderId senderName
                         (orString avatar "") (NewPollCreated title) (Some pollId) None])
                     (db w))
            (with_calls (S (calls w)) (with_issued (S (issued w)) w))).
Proof.
  unfold PollHelpersRest.announcePoll, try_catch, bind, ID_unique, databases.createDocument,
    databases.request. simpl. by destruct (rejects env _ _).
Qed.

(** ** Marking notifications as read *)

Lemma marked_refl (l : list Notification.t) :
  Forall2 (fun a b => b = a ∨ b = NotificationsPanel.set_read true a) l l.
Proof. induction l; constructor; auto. Qed.

Lemma marked_trans (l1 l2 l3 : list Notification.t) :
  Forall2 (fun a b => b = a ∨ b = NotificationsPanel.set_read true a) l1 l2 →
  Forall2 (fun a b => b = a ∨ b = NotificationsPanel.set_read true a) l2 l3 →
  Forall2 (fun a b => b = a ∨ b = NotificationsPanel.set_read true a) l1 l3.
Proof.
  intros H12. revert l3. induction H12 as [|p q l l' Hpq _ IH]; intros l3 H23.
  - inversion H23. constructor.
  - inversion H23 as [|q' r ? ? Hqr Hrest]; subst. constructor; [|by apply IH].
    destruct Hpq as [->| ->], Hqr as [->| ->]; auto.
Qed.

Lemma marked_Forall (P Q R : Notification.t → Prop) l l' :
  Forall2 (fun a b => b = a ∨ b = NotificationsPanel.set_read true a) l l' →
  Forall P l → Forall Q l' →
  (∀ p p', (p' = p ∨ p' = NotificationsPanel.set_read true p) → P p → Q p' → R p') →
  Forall R l'.
Proof.
  intros Hd HP HQ Himp. induction Hd as [|p q l l' Hpq _ IH]; [constructor|].
  inversion HP; inversion HQ; subst. constructor; eauto.
Qed.

Lemma mark_step env i w r w' :
  databases.updateDocument env COLLECTIONS.NOTIFICATIONS i (NotificationsPanel.set_read true) w
    = (r, w') →
  Forall2 (fun a b => b = a ∨ b = NotificationsPanel.set_read true a)
    (notifications (db w)) (notifications (db w'))
  ∧ (r = Ok tt →
     Forall (fun s => Notification.id s = i → Notification.read s = true)
       (notifications (db w'))).
Proof.
  intros H. apply updateDocument_inv in H as [[[e ->] ->]|(-> & _ & _ & ->)].
  - split; [apply marked_refl|done].
  - simpl. split.
    + induction (notifications (db w)) as [|a l IH]; simpl; constructor; [|done].
      destruct (databases.hasId _ _ _); auto.
    + intros _. apply Forall_forall. intros p Hp Hid.
      apply list_elem_of_In, in_map_iff in Hp as (q & <- & _).
      unfold databases.hasId in *. simpl in *.
      case_bool_decide as Hq; simpl in *; [done|congruence].
Qed.

Lemma mark_all env (ns : list Notification.t) w r w' :
  Promise_all (map (fun notif =>
      databases.updateDocument env COLLECTIONS.NOTIFICATIONS (Notification.id notif)
        (NotificationsPanel.set_read true)) ns) w = (r, w') →
  Forall2 (fun a b => b = a ∨ b = NotificationsPanel.set_read true a)
    (notifications (db w)) (notifications (db w'))
  ∧ ((∃ x, r = Ok x) →
     Forall (fun s => In (Notification.id s) (map Notification.id ns) →
                      Notification.read s = true) (notifications (db w'))).
Proof.
  revert w r w'. induction ns as [|a ns IH]; simpl; intros w r w' H.
  - inversion H; subst. split; [apply marked_refl|]. intros _.
    apply Forall_forall. by intros ? ? [].
  - destruct (databases.updateDocument _ _ _ _ w) as [r1 w1] eqn:H1.
    destruct (Promise_all _ w1) as [rs w2] eqn:H2.
    apply mark_step in H1 as [Hd1 Hi1]. apply IH in H2 as [Hd2 Hi2].
    inversion H; subst. split; [by eapply marked_trans|].
    intros [x Hx]. destruct r1 as [[]|e1]; [|done]. destruct rs as [l|e2]; [|done].
    specialize (Hi1 eq_refl). specialize (Hi2 (ex_intro _ l eq_refl)).
    eapply (marked_Forall _ _ _ _ _ Hd2 Hi1 Hi2).
    intros p p' Hpp' Hp Hp' [Hin|Hin]; [|by apply Hp'].
    destruct Hpp' as [->| ->]; [by apply Hp|done].
Qed.

Lemma markAllAsRead_inv env local w :
  let '(r, w') := NotificationsPanel.markAllAsRead env local w in
  (r = Ok AllMarkedAsRead ∨ r = Ok FailedToMarkAsRead)
  ∧ Forall2 (fun a b => b = a ∨ b = NotificationsPanel.set_read true a)
      (notifications (db w)) (notifications (db w'))
  ∧ (r = Ok AllMarkedAsRead →
     ∀ n s, In n local → Notification.read n = false →
            In s (notifications (db w')) → Notification.id s = Notification.id n →
            Notification.read s = true).
Proof.
  unfold NotificationsPanel.markAllAsRead, try_catch, bind.
  destruct (Promise_all _ w) as [[x|e] w1] eqn:H1; apply mark_all in H1 as [Hd Hi]; simpl.
  - split; [by left|]. split; [done|]. intros _ n s Hn Hread Hs Hid.
    specialize (Hi (ex_intro _ x eq_refl)). rewrite Forall_forall in Hi.
    apply (Hi s); [by apply list_elem_of_In|]. rewrite Hid. apply in_map.
    apply filter_In. split; [done|]. by rewrite Hread.
  - split; [by right|]. split; [done|]. done.
Qed.

(** ** The poll-management list and the collection *)

Lemma deactivatePoll_completed env pollId userId w w' :
  PollHelpers.deactivatePoll env pollId userId w = (Ok tt, w') →
  polls (db w') =
    map (fun x => if bool_decide (Poll.id x = pollId) then Poll.set_active false x else x)
      (polls (db w)).
Proof.
  unfold PollHelpers.deactivatePoll, try_catch, bind. intros H.
  destruct (databases.getDocument _ _ _ w) as [[poll|e] w1] eqn:H1;
    apply getDocument_inv in H1 as [Hdb1 Hr1]; [|by inversion H].
  case_bool_decide as Hcreator; simpl in H; [|by inversion H].
  destruct (databases.updateDocument _ _ _ _ w1) as [r2 w2] eqn:H2.
  apply updateDocument_inv in H2 as [[[e2 ->] Hdb2]|(-> & _ & _ & Hdb2)]; [by inversion H|].
  inversion H; subst. rewrite Hdb2. simpl. by rewrite Hdb1.
Qed.

Lemma handleDeletePoll_in_step env user local pollId w :
  inStep local w →
  let '(r, w') := PollManagement.handleDeletePoll env user local pollId w in
  ∃ local' t, r = Ok (local', t) ∧ inStep local' w'
    ∧ (t = PollDeleted →
       (∀ lp, In lp local' → Poll.id (PollWithVotes.poll lp) ≠ pollId)
       ∧ (∀ p, In p (polls (db w')) → Poll.id p ≠ pollId)).
Proof.
  intros Hstep. unfold PollManagement.handleDeletePoll, try_catch, bind.
  destruct (PollHelpers.deletePoll env pollId (User.id user) w) as [[[]|e] w1] eqn:H1; simpl.
  - assert (Hdone := deletePoll_completed _ _ _ _ _ H1). destruct Hdone as (Hgone & _).
    apply deletePoll_inv in H1.
    eexists _, _. split; [done|]. split; [|intros _; split; [|done]].
    + intros lp [Hlp Hid]%filter_In. apply negb_true_iff, bool_decide_eq_false in Hid.
      destruct (Hstep lp Hlp) as (sp & Hsp & Hi & Hg & Ha). exists sp. split; [|done].
      destruct H1 as [->| ->]; [done|]. apply filter_In. split; [done|].
      unfold databases.hasId. simpl. apply negb_true_iff, bool_decide_eq_false. congruence.
    + intros lp [_ Hid]%filter_In. by apply negb_true_iff, bool_decide_eq_false in Hid.
  - eexists _, _. split; [done|]. split; [|done].
    assert (polls (db w1) = polls (db w)) as Hsame.
    { unfold PollHelpers.deletePoll, try_catch, bind in H1.
      destruct (databases.getDocument _ _ _ w) as [[poll|e0] w2] eqn:H2;
        apply getDocument_inv in H2 as [Hdb2 _]; [|inversion H1; subst; simpl; by rewrite Hdb2].
      case_bool_decide; simpl in H1; [|inversion H1; subst; simpl; by rewrite Hdb2].
      destruct (databases.listDocuments _ _ _ w2) as [[vs|e1] w3] eqn:H3;
        apply listDocuments_inv in H3 as [Hdb3 _];
        [|inversion H1; subst; simpl; by rewrite Hdb3, Hdb2].
      destruct (Promise_all _ w3) as [[x|e2] w4] eqn:H4; apply delete_votes_polls in H4;
        [|inversion H1; subst; simpl; by rewrite H4, Hdb3, Hdb2].
      destruct (databases.deleteDocument _ _ _ w4) as [r5 w5] eqn:H5.
      apply deleteDocument_inv in H5 as [[[e5 ->] Hdb5]|[-> Hdb5]]; [|by inversion H1].
      inversion H1; subst. simpl. by rewrite Hdb5, H4, Hdb3, Hdb2. }
    intros lp Hlp. destruct (Hstep lp Hlp) as (sp & Hsp & ?). exists sp. by rewrite Hsame.
Qed.

Lemma handleTogglePoll_in_step env user local pollId currentActive G w local' w' :
  uniquePollIds w →
  inStep local w →
  (∀ lp, In lp local → Poll.groupId (PollWithVotes.poll lp) = G) →
  In pollId (map (fun lp => Poll.id (PollWithVotes.poll lp)) local) →
  PollManagement.handleTogglePoll env user local pollId currentActive w
    = (Ok (local', PollToggled currentActive), w') →
  inStep local' w'
  ∧ (∀ lp, In lp local' →
       if bool_decide (Poll.id (PollWithVotes.poll lp) = pollId)
       then Poll.active (PollWithVotes.poll lp) = negb currentActive
       else currentActive = false → Poll.active (PollWithVotes.poll lp) = false).
Proof.
  intros Hnd Hstep Hgroup Hlisted. unfold PollManagement.handleTogglePoll, try_catch, bind.
  destruct currentActive; simpl.
  - destruct (PollHelpers.deactivatePoll env pollId (User.id user) w) as [[[]|e] w1] eqn:H1;
      simpl; intros [= <- <-]. apply deactivatePoll_completed in H1. split.
    + intros lp' Hlp'. apply in_map_iff in Hlp' as (lp & <- & Hlp).
      destruct (Hstep lp Hlp) as (sp & Hsp & Hi & Hg & Ha).
      exists (if bool_decide (Poll.id sp = pollId) then Poll.set_active false sp else sp).
      split; [rewrite H1; apply in_map_iff; by exists sp|].
      rewrite Hi. by case_bool_decide; simpl.
    + intros lp' Hlp'. apply in_map_iff in Hlp' as (lp & <- & Hlp).
      destruct (decide (Poll.id (PollWithVotes.poll lp) = pollId)) as [Hid|Hid].
      * rewrite (bool_decide_eq_true_2 _ Hid). simpl. by rewrite bool_decide_eq_true_2.
      * rewrite (bool_decide_eq_false_2 _ Hid). simpl. by rewrite bool_decide_eq_false_2.
  - destruct (PollHelpers.activatePoll env pollId (User.id user) w) as [[[]|e] w1] eqn:H1;
      simpl; intros [= <- <-].
    apply activatePoll_inv in H1 as [(e & [=] & _)|(poll & l1 & _ & Hfind & _ & Hd & Hin & Hl)].
    apply find_some in Hfind as [Hpoll Hpid]. unfold databases.hasId in Hpid. simpl in Hpid.
    apply bool_decide_eq_true in Hpid.
    (* the poll toggled is of the group listed *)
    assert (Poll.groupId poll = G) as HpollG.
    { apply in_map_iff in Hlisted as (lp0 & Hid0 & Hlp0).
      destruct (Hstep lp0 Hlp0) as (sp0 & Hsp0 & Hi0 & Hg0 & _).
      assert (sp0 = poll) as -> by (apply (NoDup_id_inj _ _ _ Hnd Hsp0 Hpoll); congruence).
      rewrite Hg0. by apply Hgroup. }
    split.
    + intros lp' Hlp'. apply in_map_iff in Hlp' as (lp & <- & Hlp).
      destruct (Hstep lp Hlp) as (sp & Hsp & Hi & Hg & Ha).
      destruct (deactivated_In _ _ _ Hd Hsp) as (sp1 & Hsp1 & Hrel).
      exists (activate pollId sp1). split; [rewrite Hl; by apply in_map|].
      assert (Poll.id sp1 = Poll.id sp ∧ Poll.groupId sp1 = Poll.groupId sp) as [Hi1 Hg1]
        by (by destruct Hrel as [->| ->]).
      unfold activate, databases.hasId. simpl. rewrite Hi1, Hi.
      case_bool_decide as Hid; simpl; [repeat split; congruence|].
      split; [congruence|]. split; [congruence|].
      rewrite Forall_forall in Hin. apply (Hin sp1); [by apply list_elem_of_In| |congruence].
      rewrite Hg1, Hg, HpollG. by apply Hgroup.
    + intros lp' Hlp'. apply in_map_iff in Hlp' as (lp & <- & Hlp).
      destruct (decide (Poll.id (PollWithVotes.poll lp) = pollId)) as [Hid|Hid].
      * rewrite (bool_decide_eq_true_2 _ Hid). simpl. by rewrite bool_decide_eq_true_2.
      * rewrite (bool_decide_eq_false_2 _ Hid). simpl. by rewrite bool_decide_eq_false_2.
Qed.

(** ** Fetching the poll-management list *)







(** ** The permission check of the page and of the helpers *)

Lemma page_rejects_non_creator env user local pollId currentActive sp vs w :
  find (databases.hasId COLLECTIONS.POLLS pollId) (polls (db w)) = Some sp →
  PollManagement.canManagePoll user (PollWithVotes.mk sp vs) = false →
  (∃ e, (PollManagement.handleDeletePoll env user local pollId w).1
        = Ok (local, FailedToDeletePoll e))
  ∧ db (PollManagement.handleDeletePoll env user local pollId w).2 = db w
  ∧ (∃ e, (PollManagement.handleTogglePoll env user local pollId currentActive w).1
          = Ok (local, FailedToTogglePoll e))
  ∧ db (PollManagement.handleTogglePoll env user local pollId currentActive w).2 = db w.
Proof.
  intros Hfind Hcan. unfold PollManagement.canManagePoll in Hcan. simpl in Hcan.
  apply bool_decide_eq_false in Hcan.
  assert (Hno : ∀ poll, find (databases.hasId COLLECTIONS.POLLS pollId) (polls (db w))
                        = Some poll → Poll.creatorId poll ≠ User.id user).
  { intros poll Hp. rewrite Hfind in Hp. by inversion Hp; subst. }
  pose proof (not_creator_rejected env pollId (User.id user) w Hno) as H.
  destruct (H PollHelpers.deletePoll (or_introl eq_refl)) as (e1 & Hd1 & Hd2).
  destruct (H PollHelpers.deactivatePoll (or_intror (or_introl eq_refl))) as (e2 & Hx1 & Hx2).
  destruct (H PollHelpers.activatePoll (or_intror (or_intror eq_refl))) as (e3 & Ha1 & Ha2).
  unfold PollManagement.handleDeletePoll, PollManagement.handleTogglePoll, try_catch, bind.
  destruct (PollHelpers.deletePoll env pollId (User.id user) w) as [r1 w1].
  simpl in Hd1, Hd2. subst r1. repeat split; [by exists e1|done|..].
  - destruct currentActive.
    + destruct (PollHelpers.deactivatePoll env pollId (User.id user) w) as [r2 w2].
      simpl in Hx1. subst r2. by exists e2.
    + destruct (PollHelpers.activatePoll env pollId (User.id user) w) as [r2 w2].
      simpl in Ha1. subst r2. by exists e3.
  - destruct currentActive.
    + destruct (PollHelpers.deactivatePoll env pollId (User.id user) w) as [r2 w2].
      simpl in Hx1, Hx2. by subst r2.
    + destruct (PollHelpers.activatePoll env pollId (User.id user) w) as [r2 w2].
      simpl in Ha1, Ha2. by subst r2.
Qed.

(** ** The tally on the chat page *)

Lemma filter_replace_other {A} (f : A → bool) (g : A → bool) (y : A) l :
  f y = false → (∀ x, In x l → g x = true → f x = false) →
  List.filter f (map (fun x => if g x then y else x) l) = List.filter f l.
Proof.
  intros Hy. induction l as [|a l IH]; intros H; simpl; [done|].
  rewrite IH by (intros x Hx; apply H; by right).
  destruct (g a) eqn:Hg; [|done].
  rewrite Hy, (H a) by (by try left). done.
Qed.

Lemma tally_other_poll G r st poll :
  Vote.pollId (GroupChat.payload r) ≠ Poll.id poll →
  (∀ v, In v (GroupChat.votes st) → Vote.id v = Vote.id (GroupChat.payload r) →
        Vote.pollId v ≠ Poll.id poll) →
  GroupChatPage.getVoteCounts
    (GroupChat.votes (GroupChat.deliver G (GroupChat.VoteChange r) st)) poll
  = GroupChatPage.getVoteCounts (GroupChat.votes st) poll.
Proof.
  intros Hp Hid. unfold GroupChat.deliver, GroupChat.onVote, GroupChatPage.getVoteCounts.
  case_bool_decide; [done|].
  destruct (GroupChat.includes (GroupChat.events r) GroupChat.CREATE); simpl.
  - rewrite List.filter_app. simpl. rewrite bool_decide_eq_false_2 by done.
    by rewrite app_nil_r.
  - destruct (GroupChat.includes (GroupChat.events r) GroupChat.UPDATE); simpl; [|done].
    rewrite (filter_replace_other
               (fun v : Vote.t => bool_decide (Vote.pollId v = Poll.id poll))
               (fun v : Vote.t => bool_decide (Vote.id v = Vote.id (GroupChat.payload r)))).
    + done.
    + by apply bool_decide_eq_false.
    + intros x Hx Hg. apply bool_decide_eq_true in Hg. apply bool_decide_eq_false. auto.
Qed.

(** ** The unread badge *)

Lemma unread_replace_absent (p : Notification.t) l :
  ¬ In (Notification.id p) (map Notification.id l) →
  map (fun notif => if bool_decide (Notification.id notif = Notification.id p)
                    then p else notif) l = l.
Proof.
  induction l as [|a l IH]; simpl; [done|]. intros H.
  rewrite bool_decide_eq_false_2 by (intros E; apply H; by left).
  rewrite IH; [done|]. intros E. apply H. by right.
Qed.

Lemma unread_after_update U n evs local :
  U ≠ "" →
  NoDup (map Notification.id local) →
  In n local → Notification.read n = false → Notification.userId n = U →
  GroupChat.includes evs GroupChat.CREATE = false →
  GroupChat.includes evs GroupChat.UPDATE = true →
  (NotificationsPanel.onNotification U
     (GroupChat.mkResponse _ evs (NotificationsPanel.set_read true n)) local).2 = None
  ∧ S (NotificationsPanel.unreadCount
         (NotificationsPanel.onNotification U
            (GroupChat.mkResponse _ evs (NotificationsPanel.set_read true n)) local).1)
    = NotificationsPanel.unreadCount local.
Proof.
  intros HUne Hnd Hin Hread HU Hc Hu. unfold NotificationsPanel.onNotification. simpl.
  rewrite (bool_decide_eq_false_2 _ HUne).
  rewrite bool_decide_eq_true_2 by done. rewrite Hc, Hu. simpl. split; [done|].
  unfold NotificationsPanel.unreadCount.
  induction local as [|a l IH]; simpl in *; [done|].
  inversion Hnd as [|? ? Hnotin Hnd']; subst.
  destruct Hin as [->|Hin].
  - rewrite bool_decide_eq_true_2 by done. simpl. rewrite Hread. simpl. f_equal.
    pose proof (unread_replace_absent (NotificationsPanel.set_read true n) l) as Hrep.
    simpl in Hrep. rewrite Hrep; [done|]. rewrite <- list_elem_of_In. done.
  - rewrite bool_decide_eq_false_2.
    + destruct (Notification.read a); simpl; [by apply IH|]. f_equal. by apply IH.
    + intros E. apply Hnotin. rewrite E. apply list_elem_of_In. by apply in_map.
Qed.

Lemma markAsRead_inv env i w :
  let '(r, w') := NotificationsPanel.markAsRead env i w in
  r = Ok tt
  ∧ polls (db w') = polls (db w) ∧ votes (db w') = votes (db w)
  ∧ Forall2 (fun a b => b = a ∨ (Notification.id a = i ∧ b = NotificationsPanel.set_read true a))
      (notifications (db w)) (notifications (db w'))
  ∧ (rejects env (UpdateDocument NOTIFICATIONS) (calls w) = false →
     Forall (fun s => Notification.id s = i → Notification.read s = true)
       (notifications (db w'))).
Proof.
  unfold NotificationsPanel.markAsRead, try_catch.
  destruct (databases.updateDocument env COLLECTIONS.NOTIFICATIONS i
              (NotificationsPanel.set_read true) w) as [r w1] eqn:H.
  pose proof H as H'. apply updateDocument_inv in H as [[[e ->] Hdb]|(-> & Hr & Hex & Hdb)].
  - simpl. rewrite Hdb. split; [done|]. split; [done|]. split; [done|]. split.
    { apply Forall2_same_length_lookup_2; [done|]. intros k a b Ha Hb.
      rewrite Ha in Hb. inversion Hb. by left. }
    intros Hr. unfold databases.updateDocument, databases.request in H'. simpl in H'.
    rewrite Hr in H'. simpl in H'.
    destruct (existsb _ _) eqn:Hex; [by inversion H'|].
    apply Forall_forall. intros s Hs Hid. exfalso.
    assert (existsb (databases.hasId COLLECTIONS.NOTIFICATIONS i) (notifications (db w)) = true)
      as Hex'; [|simpl in Hex; congruence].
    apply existsb_exists. exists s. split; [by apply list_elem_of_In|].
    unfold databases.hasId. simpl. by apply bool_decide_eq_true.
  - rewrite Hdb. simpl. split; [done|]. split; [done|]. split; [done|]. split.
    + induction (notifications (db w)) as [|a l IH]; simpl; constructor; [|done].
      unfold databases.hasId. simpl. case_bool_decide; [by right|by left].
    + intros _. apply Forall_forall. intros s Hs Hid. apply list_elem_of_In in Hs.
      apply in_map_iff in Hs as (a & Ha & _). unfold databases.hasId in Ha. simpl in Ha.
      case_bool_decide as Hai; subst s; [done|]. done.
Qed.

(** ** Outcomes of voting from the chat page *)

Lemma handleVote_outcome env user state P choice w :
  (GroupChatPage.handleVote env user state P choice w).1 = Ok (VoteRecorded choice)
  ∨ ((GroupChatPage.handleVote env user state P choice w).1 = Ok FailedToVote
     ∧ db (GroupChatPage.handleVote env user state P choice w).2 = db w).
Proof.
  unfold GroupChatPage.handleVote, try_catch, bind.
  destruct (find _ state) as [existing|].
  - destruct (databases.updateDocument env COLLECTIONS.VOTES (Vote.id existing)
                (Vote.set_choice choice) w) as [r w1] eqn:H.
    apply updateDocument_inv in H as [[[e ->] Hdb]|(-> & _)]; simpl; [by right|by left].
  - unfold ID_unique.
    destruct (databases.createDocument env COLLECTIONS.VOTES (unique env (issued w))
                (fun id _ => Vote.mk id P (User.id user) choice)
                (with_issued (S (issued w)) w)) as [r w1] eqn:H.
    apply createDocument_inv in H as [[[e ->] Hdb]|(-> & _)]; simpl; [by right|by left].
Qed.

(** ** Locking twice *)

Lemma lockDecision_twice env G name name' w active :
  accepting env →
  activePolls G w = [active] →
  validMetadata (Poll.metadata active) = true →
  ∃ w1 w2 m,
    Planbot.lockDecision env G name w = (Ok tt, w1)
    ∧ Planbot.lockDecision env G name' w1 = (Ok tt, w2)
    ∧ activePolls G w1 = []
    ∧ polls (db w2) = polls (db w1)
    ∧ votes (db w2) = votes (db w1)
    ∧ notifications (db w2) = notifications (db w1)
    ∧ messages (db w2) = messages (db w1) ++ [m]
    ∧ Message.text m = NoActivePlanToLock.
Proof.
  intros Hacc Hactive Hvalid.
  destruct (lockDecision_accepting env G name w active [] Hacc Hactive Hvalid)
    as (w1 & added & H1 & Hp & _).
  assert (Hnone : activePolls G w1 = []).
  { unfold activePolls. rewrite Hp. by apply activePolls_after_lock. }
  exists w1. rewrite H1.
  rewrite (lockDecision_no_active env G name' w1 Hnone (Hacc _ _)).
  rewrite sendSystemMessage_accepting by apply Hacc.
  eexists _, _. split; [done|]. split; [done|]. split; [done|]. simpl. done.
Qed.

(** ** /lock when part of the backend fails *)

Lemma lockDecision_message_rejected env G name w active rest :
  (∀ n, rejects env (CreateDocument MESSAGES) n = true) →
  (∀ c n, c ≠ CreateDocument MESSAGES → rejects env c n = false) →
  activePolls G w = active :: rest →
  validMetadata (Poll.metadata active) = true →
  ∃ w',
    Planbot.lockDecision env G name w
      = (Throw (AppwriteException (CreateDocument MESSAGES)), w')
    ∧ polls (db w') =
        map (fun x => if databases.hasId COLLECTIONS.POLLS (Poll.id active) x
                      then Poll.set_active false x else x) (polls (db w))
    ∧ votes (db w') = votes (db w)
    ∧ messages (db w') = messages (db w)
    ∧ notifications (db w') = notifications (db w).
Proof.
  intros Hrej Hacc Hactive Hvalid.
  destruct (decodeMetadata_valid _ Hvalid) as [meta Hmeta].
  unfold Planbot.lockDecision. unfold bind at 1.
  rewrite getActivePoll_eq, Hacc, Hactive by discriminate. simpl.
  unfold bind at 1. rewrite Hmeta.
  unfold bind at 1. rewrite getPollVotes_eq, Hacc by discriminate. simpl.
  unfold bind at 1. unfold databases.updateDocument, databases.request.
  rewrite Hacc by discriminate. simpl.
  assert (Hex : existsb (databases.hasId COLLECTIONS.POLLS (Poll.id active)) (polls (db w)) = true).
  { apply existsb_exists. exists active. split.
    - assert (In active (activePolls G w)) as Hin by (rewrite Hactive; by left).
      by apply filter_In in Hin as [? _].
    - unfold databases.hasId. simpl. by apply bool_decide_eq_true. }
  rewrite Hex. unfold bind at 1. unfold Planbot.fields, ret at 1.
  unfold bind at 1. rewrite sendSystemMessage_eq, Hrej. simpl.
  eexists. split; [done|]. done.
Qed.

Lemma sendPersonalNotification_rejected env U text md w :
  rejects env (CreateDocument NOTIFICATIONS) (calls w) = true →
  Planbot.sendPersonalNotification env U text md w
  = (Ok tt,
     with_console (console w ++ ["Failed to send notification:"])
       (with_calls (S (calls w)) (with_issued (S (issued w)) w))).
Proof.
  intros Hrej. unfold Planbot.sendPersonalNotification, try_catch, bind, ID_unique,
    databases.createDocument, databases.request. simpl. by rewrite Hrej.
Qed.

Lemma notify_all_rejected env text md (js : list Vote.t) w :
  (∀ n, rejects env (CreateDocument NOTIFICATIONS) n = true) →
  ∃ w',
    for_of js (fun joiner =>
      Planbot.sendPersonalNotification env (Vote.userId joiner) text md) w = (Ok tt, w')
    ∧ db w' = db w
    ∧ console w' = console w ++ replicate (length js) "Failed to send notification:".
Proof.
  intros Hrej. revert w. induction js as [|j js IH]; intros w; simpl.
  - exists w. by rewrite app_nil_r.
  - unfold bind at 1. rewrite sendPersonalNotification_rejected by apply Hrej.
    destruct (IH (with_console (console w ++ ["Failed to send notification:"])
                    (with_calls (S (calls w)) (with_issued (S (issued w)) w))))
      as (w' & -> & Hdb & Hc).
    exists w'. split; [done|]. simpl in *. split; [done|].
    by rewrite Hc, <- app_assoc.
Qed.

Lemma lockDecision_notifications_rejected env G name w active rest :
  (∀ n, rejects env (CreateDocument NOTIFICATIONS) n = true) →
  (∀ c n, c ≠ CreateDocument NOTIFICATIONS → rejects env c n = false) →
  activePolls G w = active :: rest →
  validMetadata (Poll.metadata active) = true →
  ∃ w' m,
    Planbot.lockDecision env G name w = (Ok tt, w')
    ∧ polls (db w') =
        map (fun x => if databases.hasId COLLECTIONS.POLLS (Poll.id active) x
                      then Poll.set_active false x else x) (polls (db w))
    ∧ votes (db w') = votes (db w)
    ∧ messages (db w') = messages (db w) ++ [m]
    ∧ notifications (db w') = notifications (db w)
    ∧ console w'
      = console w
        ++ replicate
             (countChoice "join"
                (List.filter (fun v => bool_decide (Vote.pollId v = Poll.id active))
                   (votes (db w))))
             "Failed to send notification:".
Proof.
  intros Hrej Hacc Hactive Hvalid.
  destruct (decodeMetadata_valid _ Hvalid) as [meta Hmeta].
  unfold Planbot.lockDecision. unfold bind at 1.
  rewrite getActivePoll_eq, Hacc, Hactive by discriminate. simpl.
  unfold bind at 1. rewrite Hmeta.
  unfold bind at 1. rewrite getPollVotes_eq, Hacc by discriminate. simpl.
  unfold bind at 1. unfold databases.updateDocument, databases.request.
  rewrite Hacc by discriminate. simpl.
  assert (Hex : existsb (databases.hasId COLLECTIONS.POLLS (Poll.id active)) (polls (db w)) = true).
  { apply existsb_exists. exists active. split.
    - assert (In active (activePolls G w)) as Hin by (rewrite Hactive; by left).
      by apply filter_In in Hin as [? _].
    - unfold databases.hasId. simpl. by apply bool_decide_eq_true. }
  rewrite Hex. unfold bind at 1. unfold Planbot.fields, ret at 1.
  unfold bind at 1. rewrite sendSystemMessage_accepting by (by apply Hacc).
  simpl.
  match goal with |- context [for_of ?js ?f ?w1] =>
    destruct (notify_all_rejected env
      (PlanConfirmed active meta name (length js))
      (Some (NotificationMetadata.mk G name (Poll.id active) (Poll.title active)
         (Poll.description active) (Metadata.date meta) (Metadata.time meta)
         (length js) (Poll.type active))) js w1 Hrej) as (w' & H & Hdb & Hc) end.
  exists w'. eexists. split; [exact H|]. rewrite Hdb, Hc. simpl. done.
Qed.

(** ** What the lifecycle operations write, exactly *)

Lemma set_active_same (q : Poll.t) : Poll.set_active (Poll.active q) q = q.
Proof. by destruct q. Qed.

(** The polls after all the deactivations of a [Promise.all] were accepted. *)
Lemma deactivate_all_exact env (ps : list Poll.t) w x w' :
  Promise_all (map (fun poll =>
      databases.updateDocument env COLLECTIONS.POLLS (Poll.id poll) (Poll.set_active false)) ps) w
    = (Ok x, w') →
  polls (db w') =
    map (fun q => if existsb (fun a => bool_decide (Poll.id a = Poll.id q)) ps
                  then Poll.set_active false q else q) (polls (db w)).
Proof.
  revert w x w'. induction ps as [|a ps IH]; simpl; intros w x w' H.
  - inversion H; subst. by rewrite map_id.
  - destruct (databases.updateDocument _ _ _ _ w) as [r1 w1] eqn:H1.
    destruct (Promise_all _ w1) as [rs w2] eqn:H2.
    destruct r1 as [[]|e1]; [|by inversion H]. destruct rs as [l|e2]; [|by inversion H].
    inversion H; subst. clear H.
    apply updateDocument_inv in H1 as [[[e [=]] _]|(_ & _ & _ & Hdb1)].
    rewrite (IH _ _ _ H2), Hdb1. simpl. rewrite map_map. apply map_ext. intros q.
    unfold databases.hasId. simpl.
    destruct (bool_decide (Poll.id a = Poll.id q)) eqn:Ha.
    + apply bool_decide_eq_true in Ha. rewrite bool_decide_eq_true_2 by done. simpl.
      by destruct (existsb _ ps).
    + apply bool_decide_eq_false in Ha. rewrite bool_decide_eq_false_2 by done. done.
Qed.

Lemma existsb_id_filter (f : Poll.t → bool) l q :
  NoDup (map Poll.id l) → In q l →
  existsb (fun a => bool_decide (Poll.id a = Poll.id q)) (List.filter f l) = f q.
Proof.
  intros Hnd Hq. destruct (f q) eqn:Hf.
  - apply existsb_exists. exists q. split; [by apply filter_In|by apply bool_decide_eq_true].
  - apply not_true_is_false. intros (a & Ha & Hid)%existsb_exists.
    apply filter_In in Ha as [Ha Hfa]. apply bool_decide_eq_true in Hid.
    assert (a = q) as -> by (by eapply NoDup_id_inj). congruence.
Qed.

(** [createPoll] completed: the document it returns and the polls it leaves. *)
Lemma createPoll_completed env d w p w' :
  PollHelpers.createPoll env d w = (Ok p, w') →
  ∃ id createdAt,
    p = Poll.mk id createdAt (PollData.groupId d) (PollData.creatorId d)
          (PollData.creatorName d) (pollTypeString (PollData.type d)) (PollData.externalId d)
          (PollData.title d) (orString (PollData.description d) "")
          (orString (PollData.image d) "") ["join"; "maybe"; "no"] true
          (MetaString (JSON_stringify (default Metadata.empty (PollData.metadata d))))
    ∧ polls (db w') =
        map (fun q =>
               if existsb (fun a => bool_decide (Poll.id a = Poll.id q))
                    (List.filter Poll.active
                       (List.filter (fun q => bool_decide (Poll.groupId q = PollData.groupId d))
                          (polls (db w))))
               then Poll.set_active false q else q) (polls (db w))
        ++ [p].
Proof.
  unfold PollHelpers.createPoll, try_catch, bind. intros H.
  destruct (databases.listDocuments _ _ _ w) as [[existing|e] w1] eqn:H1;
    apply listDocuments_inv in H1 as [Hdb1 Hr1]; [|by inversion H].
  destruct Hr1 as [(? & ? & _)|Hr1]; [done|]. inversion Hr1 as [Hex]; clear Hr1.
  rewrite run_equal_groupId in Hex.
  destruct (Promise_all _ w1) as [[x|e] w2] eqn:H2; [|by inversion H].
  apply deactivate_all_exact in H2. rewrite Hdb1 in H2.
  unfold ID_unique in H. simpl in H.
  match type of H with context [databases.createDocument ?e ?C ?i ?f ?w] =>
    destruct (databases.createDocument e C i f w) as [[q|e'] w3] eqn:H3 end;
    apply createDocument_inv in H3 as [[[e3 He3] Hdb3]|(Hr3 & _ & Hdb3)]; try done; simpl in *.
  inversion H; subst. inversion Hr3; subst. clear Hr3 H.
  eexists _, _. split; [reflexivity|]. by rewrite Hdb3, H2.
Qed.

(** With ids that identify polls, the polls [createPoll] leaves are those
    from before, the ones of the group inactive, and the new poll. *)
Lemma createPoll_exact env d w p w' :
  uniquePollIds w →
  PollHelpers.createPoll env d w = (Ok p, w') →
  polls (db w') =
    map (fun q => if bool_decide (Poll.groupId q = PollData.groupId d)
                  then Poll.set_active false q else q) (polls (db w))
    ++ [p].
Proof.
  intros Hnd H. destruct (createPoll_completed _ _ _ _ _ H) as (id & at_ & _ & ->).
  f_equal. apply map_ext_in. intros q Hq.
  rewrite filter_filter_andb, (existsb_id_filter _ _ _ Hnd Hq).
  case_bool_decide; simpl; [|done].
  destruct (Poll.active q) eqn:Hact; [done|]. rewrite <- Hact. symmetry. apply set_active_same.
Qed.

(** [activatePoll] completed: the polls it leaves. *)
Lemma activatePoll_completed env pollId userId w w' :
  PollHelpers.activatePoll env pollId userId w = (Ok tt, w') →
  ∃ poll,
    find (databases.hasId COLLECTIONS.POLLS pollId) (polls (db w)) = Some poll
    ∧ Poll.creatorId poll = userId
    ∧ polls (db w') =
        map (fun q =>
               if bool_decide (Poll.id q = pollId) then Poll.set_active true q
               else if existsb (fun a => bool_decide (Poll.id a = Poll.id q))
                         (List.filter (fun p => negb (bool_decide (Poll.id p = pollId)))
                            (List.filter (activeIn (Poll.groupId poll)) (polls (db w))))
                    then Poll.set_active false q else q) (polls (db w)).
Proof.
  unfold PollHelpers.activatePoll, try_catch, bind. intros H.
  destruct (databases.getDocument _ _ _ w) as [[poll|e] w1] eqn:H1;
    apply getDocument_inv in H1 as [Hdb1 Hr1]; [|by inversion H].
  destruct Hr1 as [[? ?]|(? & [= <-] & Hfind)]; [done|]. simpl in Hfind.
  case_bool_decide as Hcreator; simpl in H; [|by inversion H].
  destruct (databases.listDocuments _ _ _ w1) as [[existing|e] w2] eqn:H2;
    apply listDocuments_inv in H2 as [Hdb2 Hr2]; [|by inversion H].
  destruct Hr2 as [(? & ? & _)|Hr2]; [done|]. inversion Hr2 as [Hex]; clear Hr2.
  rewrite run_active, Hdb1 in Hex.
  destruct (Promise_all _ w2) as [[x|e] w3] eqn:H3; [|by inversion H].
  apply deactivate_all_exact in H3. rewrite Hdb2, Hdb1 in H3.
  destruct (databases.updateDocument _ _ _ _ w3) as [r4 w4] eqn:H4.
  apply updateDocument_inv in H4 as [[[e4 ->] _]|(-> & _ & _ & Hdb4)]; [by inversion H|].
  inversion H; subst. exists poll. split; [done|]. split; [done|].
  rewrite Hdb4. simpl. rewrite H3, map_map. apply map_ext. intros q.
  unfold databases.hasId. simpl.
  destruct (existsb _ _) eqn:Hex; simpl; by case_bool_decide.
Qed.

Lemma activatePoll_exact env pollId userId w w' :
  uniquePollIds w →
  PollHelpers.activatePoll env pollId userId w = (Ok tt, w') →
  ∃ poll,
    find (databases.hasId COLLECTIONS.POLLS pollId) (polls (db w)) = Some poll
    ∧ Poll.creatorId poll = userId
    ∧ polls (db w') =
        map (fun q =>
               if bool_decide (Poll.id q = pollId) then Poll.set_active true q
               else if bool_decide (Poll.groupId q = Poll.groupId poll)
                    then Poll.set_active false q else q) (polls (db w)).
Proof.
  intros Hnd H. destruct (activatePoll_completed _ _ _ _ _ H) as (poll & Hfind & Hc & ->).
  exists poll. split; [done|]. split; [done|].
  apply map_ext_in. intros q Hq. case_bool_decide as Hid; [done|].
  rewrite filter_filter_andb, (existsb_id_filter _ _ _ Hnd Hq).
  rewrite (bool_decide_eq_false_2 _ Hid), andb_true_r. unfold activeIn.
  case_bool_decide; simpl; [|done].
  destruct (Poll.active q) eqn:Hact; [done|]. rewrite <- Hact. symmetry. apply set_active_same.
Qed.

(** With an accepting backend [activatePoll] by the creator completes. *)
Lemma activatePoll_accepting env pollId userId w poll :
  accepting env →
  find (databases.hasId COLLECTIONS.POLLS pollId) (polls (db w)) = Some poll →
  Poll.creatorId poll = userId →
  ∃ w', PollHelpers.activatePoll env pollId userId w = (Ok tt, w').
Proof.
  intros Hacc Hfind Hcreator. unfold PollHelpers.activatePoll, try_catch, bind.
  unfold databases.getDocument. rewrite request_accept by done. simpl. rewrite Hfind.
  rewrite bool_decide_eq_true_2 by done. simpl.
  unfold databases.listDocuments at 1. rewrite request_accept by done. simpl.
  match goal with |- context [Promise_all (map ?f ?ps) ?w1] =>
    destruct (deactivate_all_accepting env ps w1 Hacc) as (x & w2 & H2);
      [|pose proof (deactivate_all env ps w1 _ _ H2) as [Hd _]] end.
  { intros p Hp. apply filter_In in Hp as [Hp _]. rewrite run_active in Hp.
    apply filter_In in Hp as [Hp _]. by apply in_map. }
  rewrite H2. simpl in Hd.
  unfold databases.updateDocument. rewrite request_accept by done. simpl.
  assert (existsb (databases.hasId COLLECTIONS.POLLS pollId) (polls (db w2)) = true) as ->.
  { apply find_some in Hfind as [Hin Hid].
    destruct (deactivated_In _ _ _ Hd Hin) as (p' & Hp' & Hrel).
    apply existsb_exists. exists p'. split; [done|].
    unfold databases.hasId in *. simpl in *. by destruct Hrel as [->| ->]. }
  eauto.
Qed.

(** ** What a command leaves in the chat *)

Lemma hoare_and {A} (P1 P2 : World → Prop) (m : M A) Q1 Q2 E1 E2 :
  hoare P1 m Q1 E1 → hoare P2 m Q2 E2 →
  hoare (fun w => P1 w ∧ P2 w) m (fun a w => Q1 a w ∧ Q2 a w) (fun e w => E1 e w ∧ E2 e w).
Proof.
  intros H1 H2 w [Hw1 Hw2]. specialize (H1 w Hw1). specialize (H2 w Hw2).
  by destruct (m w) as [[a|e] w'].
Qed.


Lemma ignores_messages_polls : ignores messages COLLECTIONS.POLLS.
Proof. done. Qed.

Lemma ignores_messages_notifications : ignores messages COLLECTIONS.NOTIFICATIONS.
Proof. done. Qed.

Section Chat.

Variable env : Env.
Variable G : string.
Variable l0 : list Message.t.













(** *** The commands *)








End Chat.


(** * The properties of the specification *)

(** C1. For every group, every operation of the poll lifecycle manager
    preserves "at most one active poll per group", whether it completes or
    throws on the way, and the uniqueness of poll ids it rests on (for
    [createPoll], when the id handed out is new).  A completed [createPoll]
    has made every stored poll of the draft's group inactive, left the
    polls of other groups as they were, and appended one new document,
    built from the draft and active, which is then the only active poll of
    the group; a [createPoll] that throws has at most deactivated polls.  A
    completed [activatePoll] has found the target, owned by the caller, set
    it active and made every other poll of the target's group inactive,
    leaving the polls of other groups as they were.  With an accepting
    backend both complete. *)
Theorem single_active_poll_preserved (env : Env) (w : World) :
  uniquePollIds w →
  (∀ pollData r w', PollHelpers.createPoll env pollData w = (r, w') →
     (singleActivePoll w → singleActivePoll w')
     ∧ (∀ p, r = Ok p → activePolls (PollData.groupId pollData) w' = [p])
     ∧ (∀ p, r = Ok p → Poll.id p ∉ map Poll.id (polls (db w)) → uniquePollIds w')
     ∧ (∀ p, r = Ok p →
          polls (db w')
          = map (fun q => if bool_decide (Poll.groupId q = PollData.groupId pollData)
                          then Poll.set_active false q else q) (polls (db w))
            ++ [p]
          ∧ ∃ id createdAt,
              p = Poll.mk id createdAt (PollData.groupId pollData)
                    (PollData.creatorId pollData) (PollData.creatorName pollData)
                    (pollTypeString (PollData.type pollData)) (PollData.externalId pollData)
                    (PollData.title pollData) (orString (PollData.description pollData) "")
                    (orString (PollData.image pollData) "") ["join"; "maybe"; "no"] true
                    (MetaString (JSON_stringify
                                   (default Metadata.empty (PollData.metadata pollData)))))
     ∧ (∀ e, r = Throw e → deactivated (polls (db w)) (polls (db w'))))
  ∧ (accepting env → ∀ pollData, ∃ p w', PollHelpers.createPoll env pollData w = (Ok p, w'))
  ∧ (∀ pollId userId r w', PollHelpers.activatePoll env pollId userId w = (r, w') →
     (singleActivePoll w → singleActivePoll w')
     ∧ uniquePollIds w'
     ∧ (singleActivePoll w → r = Ok tt →
          ∃ p, Poll.id p = pollId ∧ activePolls (Poll.groupId p) w' = [p])
     ∧ (r = Ok tt →
          ∃ poll,
            find (databases.hasId COLLECTIONS.POLLS pollId) (polls (db w)) = Some poll
            ∧ Poll.creatorId poll = userId
            ∧ polls (db w')
              = map (fun q => if bool_decide (Poll.id q = pollId) then Poll.set_active true q
                              else if bool_decide (Poll.groupId q = Poll.groupId poll)
                                   then Poll.set_active false q else q) (polls (db w)))
     ∧ (∀ e, r = Throw e → deactivated (polls (db w)) (polls (db w'))))
  ∧ (accepting env → ∀ pollId poll,
       find (databases.hasId COLLECTIONS.POLLS pollId) (polls (db w)) = Some poll →
       ∃ w', PollHelpers.activatePoll env pollId (Poll.creatorId poll) w = (Ok tt, w'))
  ∧ (∀ pollId userId r w', PollHelpers.deactivatePoll env pollId userId w = (r, w') →
     (singleActivePoll w → singleActivePoll w') ∧ uniquePollIds w')
  ∧ (∀ pollId userId r w', PollHelpers.deletePoll env pollId userId w = (r, w') →
     (singleActivePoll w → singleActivePoll w') ∧ uniquePollIds w').
Proof.
  intros Hnd. repeat apply conj.
  - intros pollData r w' H. repeat apply conj.
    + intros Hinv. by eapply createPoll_single_active.
    + intros p ->. by eapply createPoll_active.
    + intros p -> Hfresh. by eapply createPoll_unique_ids.
    + intros p ->. split; [by eapply createPoll_exact|].
      destruct (createPoll_completed _ _ _ _ _ H) as (id & createdAt & Hp & _). eauto.
    + intros e ->. by apply createPoll_inv in H as [(e' & _ & Hd)|(p & l1 & [=] & _)].
  - intros Hacc pollData. by apply createPoll_accepting.
  - intros pollId userId r w' H. repeat apply conj.
    + intros Hinv. by eapply activatePoll_single_active.
    + apply activatePoll_inv in H as [(e & -> & Hd)|(poll & l1 & -> & _ & _ & Hd & _ & Hl)].
      * by eapply uniquePollIds_deactivated.
      * unfold uniquePollIds. by rewrite Hl, map_activate_ids, (deactivated_ids _ _ Hd).
    + intros Hinv. by eapply activatePoll_single_active.
    + intros ->. by eapply activatePoll_exact.
    + intros e ->. by apply activatePoll_inv in H as [(e' & _ & Hd)|(p & l1 & [=] & _)].
  - intros Hacc pollId poll Hfind. by eapply activatePoll_accepting.
  - intros pollId userId r w' H. split.
    + intros Hinv. eapply singleActivePoll_deactivated; [done|]. by eapply deactivatePoll_inv.
    + eapply uniquePollIds_deactivated; [done|]. by eapply deactivatePoll_inv.
  - intros pollId userId r w' H. split.
    + intros Hinv G. unfold activePolls.
      apply deletePoll_inv in H as [->| ->]; [apply Hinv|].
      etrans; [apply filter_filter_length_le|apply Hinv].
    + unfold uniquePollIds. apply deletePoll_inv in H as [->| ->]; [done|].
      by apply NoDup_ids_filter.
Qed.

Lemma single_active_poll_preserved_witness :
  uniquePollIds Sample.onePerGroup
  ∧ (∃ p w',
       PollHelpers.createPoll Sample.env Sample.draft Sample.onePerGroup = (Ok p, w')
       ∧ polls (db w')
         = [Poll.set_active false Sample.older; Sample.poll "p2" 2 "g1" "Cafe B" false;
            Sample.poll "p3" 3 "g2" "Cafe C" true; p]
       ∧ activePolls "g1" w' = [p])
  ∧ (∃ w',
       PollHelpers.activatePoll Sample.env "p2" "u1" Sample.onePerGroup = (Ok tt, w')
       ∧ polls (db w')
         = [Poll.set_active false Sample.older; Sample.poll "p2" 2 "g1" "Cafe B" true;
            Sample.poll "p3" 3 "g2" "Cafe C" true]).
Proof.
  assert (Hu : uniquePollIds Sample.onePerGroup).
  { apply (bool_decide_unpack _). vm_compute. exact I. }
  assert (Hacc : accepting Sample.env) by (intros c n; reflexivity).
  destruct (single_active_poll_preserved Sample.env Sample.onePerGroup Hu)
    as (Hcreate & Hcreated & Hactivate & Hactivated & _).
  split; [exact Hu|]. split.
  - destruct (Hcreated Hacc Sample.draft) as (p & w' & E).
    destruct (Hcreate _ _ _ E) as (_ & Hactive & _ & Hexact & _).
    exists p, w'. split; [exact E|]. split.
    + exact (proj1 (Hexact p eq_refl)).
    + exact (Hactive p eq_refl).
  - destruct (Hactivated Hacc "p2" (Sample.poll "p2" 2 "g1" "Cafe B" false) eq_refl)
      as (w' & E).
    destruct (Hactivate _ _ _ _ E) as (_ & _ & _ & Hexact & _).
    exists w'. split; [exact E|].
    destruct (Hexact eq_refl) as (poll & Hfind & _ & Hpolls).
    injection Hfind as <-. exact Hpolls.
Defined.



(** C3, as amended.  [createPoll] validates nothing itself: the draft's type
    is one of movie and place by its TypeScript type, and whatever the
    title, the empty one included, an accepting backend makes [createPoll]
    deactivate the polls of the draft's group and return the poll it has
    inserted after them, active, the only active poll of the group and
    carrying the draft's group, title and type. *)
Theorem createPoll_accepts_any_title (env : Env) (pollData : PollData.t) (w : World) :
  accepting env →
  ∃ p w', PollHelpers.createPoll env pollData w = (Ok p, w')
    ∧ In p (polls (db w'))
    ∧ Poll.active p = true
    ∧ Poll.title p = PollData.title pollData
    ∧ Poll.type p = pollTypeString (PollData.type pollData)
    ∧ Poll.groupId p = PollData.groupId pollData
    ∧ (∃ l1, polls (db w') = l1 ++ [p]
         ∧ deactivated (polls (db w)) l1
         ∧ Forall (fun q => Poll.groupId q = PollData.groupId pollData →
                            Poll.active q = false) l1)
    ∧ activePolls (PollData.groupId pollData) w' = [p]
    ∧ (uniquePollIds w →
         polls (db w')
         = map (fun q => if bool_decide (Poll.groupId q = PollData.groupId pollData)
                         then Poll.set_active false q else q) (polls (db w))
           ++ [p]).
Proof.
  intros Hacc. destruct (createPoll_accepting env pollData w Hacc) as (p & w' & H).
  exists p, w'. split; [done|].
  pose proof (createPoll_active _ _ _ _ _ H) as Hactive.
  pose proof (fun Hnd => createPoll_exact _ _ _ _ _ Hnd H) as Hexact.
  apply createPoll_inv in H
    as [(e & [=] & _)|(q & l1 & [= <-] & Hl & Hd & Hin & HG & Hact & Ht & Hty)].
  repeat (split; [done|]). split.
  { rewrite Hl. apply in_or_app. right. by left. }
  repeat (split; [done|]). split; [by exists l1|]. done.
Qed.

Lemma createPoll_accepts_any_title_witness :
  accepting Sample.env
  ∧ ∃ p w', PollHelpers.createPoll Sample.env Sample.untitled Sample.onePerGroup = (Ok p, w')
      ∧ Poll.active p = true
      ∧ Poll.title p = ""
      ∧ activePolls "g1" w' = [p]
      ∧ polls (db w')
        = [Poll.set_active false Sample.older; Sample.poll "p2" 2 "g1" "Cafe B" false;
           Sample.poll "p3" 3 "g2" "Cafe C" true; p].
Proof.
  assert (Hacc : accepting Sample.env) by (intros c n; reflexivity).
  assert (Hu : uniquePollIds Sample.onePerGroup).
  { apply (bool_decide_unpack _). vm_compute. exact I. }
  split; [exact Hacc|].
  destruct (createPoll_accepts_any_title Sample.env Sample.untitled Sample.onePerGroup Hacc)
    as (p & w' & E & _ & Hact & Ht & _ & _ & _ & Hactive & Hexact).
  exists p, w'. split; [exact E|]. split; [exact Hact|]. split; [exact Ht|].
  split; [exact Hactive|]. exact (Hexact Hu).
Defined.

(** C3, as stated, fails: a draft with an empty title is not refused; the
    call returns normally and the poll is stored. *)
Lemma createPoll_empty_title_not_rejected :
  PollData.title Sample.untitled = ""
  ∧ (∀ e w', PollHelpers.createPoll Sample.env Sample.untitled Sample.empty ≠ (Throw e, w'))
  ∧ ∃ p, (PollHelpers.createPoll Sample.env Sample.untitled Sample.empty).1 = Ok p
      ∧ Poll.title p = ""
      ∧ polls (db (PollHelpers.createPoll Sample.env Sample.untitled Sample.empty).2) = [p].
Proof.
  split; [reflexivity|]. split.
  - intros e w'. vm_compute. discriminate.
  - eexists. vm_compute. repeat split.
Qed.

(** C4, as amended.  When the listing is not rejected, [getActivePoll]
    returns the first active poll of the group in the order the backend
    lists them, which is creation order: the only active poll when there is
    one, none when there is none, and the earliest listed when there are
    several.  It changes no collection. *)
Theorem getActivePoll_first_listed (env : Env) (G : string) (w : World) :
  rejects env (ListDocuments POLLS) (calls w) = false →
  (PollHelpers.getActivePoll env G w).1 = Ok (head (activePolls G w))
  ∧ db (PollHelpers.getActivePoll env G w).2 = db w.
Proof. intros Hacc. rewrite getActivePoll_eq, Hacc. done. Qed.

Lemma getActivePoll_first_listed_witness :
  rejects Sample.env (ListDocuments POLLS) (calls Sample.onePerGroup) = false
  ∧ (PollHelpers.getActivePoll Sample.env "g2" Sample.onePerGroup).1
    = Ok (head (activePolls "g2" Sample.onePerGroup)).
Proof.
  split; [reflexivity|].
  exact (proj1 (getActivePoll_first_listed Sample.env "g2" Sample.onePerGroup eq_refl)).
Defined.

(** C4, as stated, fails: with two active polls in a group the poll
    returned is the one created first, not the most recently created. *)
Lemma getActivePoll_not_most_recent :
  activePolls "g1" Sample.twoActive = [Sample.older; Sample.newer]
  ∧ (Poll.createdAt Sample.older < Poll.createdAt Sample.newer)%nat
  ∧ (PollHelpers.getActivePoll Sample.env "g1" Sample.twoActive).1 = Ok (Some Sample.older)
  ∧ Sample.older ≠ Sample.newer.
Proof.
  split; [reflexivity|]. split; [vm_compute; lia|]. split; [reflexivity|]. discriminate.
Qed.

(** C5. When [createPoll] for a group has completed and [getActivePoll] for
    that group is called on the state it left, with nothing in between and
    the listing not rejected, the result is the poll just created: the
    document [createPoll] returned, which is the one it appended to the
    collection, after the polls that were there, and which carries the
    draft's fields. *)
Theorem createPoll_then_getActivePoll (env : Env) (pollData : PollData.t) (w w' : World)
    (p : Poll.t) :
  PollHelpers.createPoll env pollData w = (Ok p, w') →
  rejects env (ListDocuments POLLS) (calls w') = false →
  (PollHelpers.getActivePoll env (PollData.groupId pollData) w').1 = Ok (Some p)
  ∧ db (PollHelpers.getActivePoll env (PollData.groupId pollData) w').2 = db w'
  ∧ (∃ l1, polls (db w') = l1 ++ [p]
       ∧ map Poll.id l1 = map Poll.id (polls (db w))
       ∧ deactivated (polls (db w)) l1)
  ∧ ∃ id createdAt,
      p = Poll.mk id createdAt (PollData.groupId pollData)
            (PollData.creatorId pollData) (PollData.creatorName pollData)
            (pollTypeString (PollData.type pollData)) (PollData.externalId pollData)
            (PollData.title pollData) (orString (PollData.description pollData) "")
            (orString (PollData.image pollData) "") ["join"; "maybe"; "no"] true
            (MetaString (JSON_stringify
                           (default Metadata.empty (PollData.metadata pollData)))).
Proof.
  intros H Hacc. rewrite getActivePoll_eq, Hacc. simpl.
  rewrite (createPoll_active _ _ _ _ _ H). split; [done|]. split; [done|]. split.
  - apply createPoll_inv in H as [(e & [=] & _)|(q & l1 & [= <-] & Hl & Hd & _)].
    exists l1. split; [done|]. split; [|done]. by apply deactivated_ids.
  - destruct (createPoll_completed _ _ _ _ _ H) as (id & createdAt & Hp & _). eauto.
Qed.

Lemma createPoll_then_getActivePoll_witness :
  ∃ p w',
    PollHelpers.createPoll Sample.env Sample.draft Sample.onePerGroup = (Ok p, w')
    ∧ (PollHelpers.getActivePoll Sample.env "g1" w').1 = Ok (Some p)
    ∧ (∃ l1, polls (db w') = l1 ++ [p] ∧ map Poll.id l1 = ["p1"; "p2"; "p3"])
    ∧ Poll.title p = "Cafe D".
Proof.
  assert (Hacc : accepting Sample.env) by (intros c n; reflexivity).
  destruct (createPoll_accepting Sample.env Sample.draft Sample.onePerGroup Hacc)
    as (p & w' & H).
  exists p, w'. split; [exact H|].
  destruct (createPoll_then_getActivePoll Sample.env Sample.draft Sample.onePerGroup
              w' p H eq_refl) as (Hget & _ & (l1 & Hl & Hids & _) & (id & at_ & Hp)).
  split; [exact Hget|]. split.
  - exists l1. split; [exact Hl|exact Hids].
  - rewrite Hp. reflexivity.
Defined.

(** C6, as amended.  In a group with an active poll whose metadata decodes,
    with an accepting backend, /lock makes that poll inactive and adds one
    notification for every vote on it whose choice is "join", and no other:
    a user is sent as many notifications as the ledger holds join votes of
    theirs on the poll.  So a user with no join vote on the poll gets none,
    and when the ledger holds at most one vote per poll and user, a user
    whose vote is "join" gets exactly one and a user whose vote is anything
    else gets none. *)
Theorem lock_notifies_once_per_join_vote (env : Env) (ctx : PlanbotContext.t) (w : World)
    (active : Poll.t) (rest : list Poll.t) :
  accepting env →
  activePolls (PlanbotContext.groupId ctx) w = active :: rest →
  validMetadata (Poll.metadata active) = true →
  ∃ w' added,
    Planbot.handlePlanbotCommand env "/lock" ctx w = (Ok (PlanbotResult.mk true), w')
    ∧ In (Poll.set_active false active) (polls (db w'))
    ∧ (∀ p, In p (polls (db w')) → Poll.id p = Poll.id active → Poll.active p = false)
    ∧ notifications (db w') = notifications (db w) ++ added
    ∧ (∀ U, length (notificationsFor U added)
            = length (List.filter (fun v => bool_decide (Vote.choice v = "join"))
                        (votesOf (Poll.id active) U w)))
    ∧ (singleVote w →
       ∀ v, In v (votes (db w)) → Vote.pollId v = Poll.id active →
         length (notificationsFor (Vote.userId v) added)
         = if bool_decide (Vote.choice v = "join") then 1%nat else 0%nat).
Proof.
  intros Hacc Hactive Hvalid.
  destruct (lockDecision_accepting env (PlanbotContext.groupId ctx)
              (Group.name <$> PlanbotContext.group ctx) w active rest Hacc Hactive Hvalid)
    as (w' & added & Hlock & Hpolls & Hnotif & Husers).
  exists w', added. split.
  { unfold Planbot.handlePlanbotCommand. simpl. unfold bind. by rewrite Hlock. }
  assert (Hin : In active (polls (db w))).
  { assert (In active (activePolls (PlanbotContext.groupId ctx) w)) as H
      by (rewrite Hactive; by left).
    by apply filter_In in H as [? _]. }
  split.
  { rewrite Hpolls. apply in_map_iff. exists active. split; [|done].
    unfold databases.hasId. simpl. by rewrite bool_decide_eq_true_2. }
  split.
  { intros p Hp Hid. rewrite Hpolls in Hp. apply in_map_iff in Hp as (q & <- & _).
    unfold databases.hasId in *. simpl in *. case_bool_decide; [done|congruence]. }
  split; [done|].
  assert (Hper : ∀ U, length (notificationsFor U added)
            = length (List.filter (fun v => bool_decide (Vote.choice v = "join"))
                        (votesOf (Poll.id active) U w))).
  { intros U. rewrite (notifications_per_user _ _ _ Husers), !filter_filter_andb.
    unfold votesOf. rewrite filter_filter_andb. f_equal. apply filter_ext. intros x.
    destruct (bool_decide (Vote.pollId x = _)), (bool_decide (Vote.choice x = _)),
      (bool_decide (Vote.userId x = _)); done. }
  split; [exact Hper|].
  intros Hvotes v Hv HP. rewrite Hper.
  assert (Hmine : votesOf (Poll.id active) (Vote.userId v) w = [v]).
  { apply length_le_1_In; [apply Hvotes|]. apply filter_In. split; [done|].
    by rewrite !bool_decide_eq_true_2. }
  rewrite Hmine. simpl. by case_bool_decide.
Qed.

Lemma lock_notifies_once_per_join_vote_witness :
  ∃ w' added,
    Planbot.handlePlanbotCommand Sample.env "/lock" Sample.ctx Sample.voted
      = (Ok (PlanbotResult.mk true), w')
    ∧ In (Poll.set_active false Sample.older) (polls (db w'))
    ∧ notifications (db w') = notifications (db Sample.voted) ++ added
    ∧ length (notificationsFor "u1" added) = 1%nat
    ∧ length (notificationsFor "u2" added) = 0%nat
    ∧ length (notificationsFor "u3" added) = 0%nat.
Proof.
  assert (Hacc : accepting Sample.env) by (intros c n; reflexivity).
  destruct (lock_notifies_once_per_join_vote Sample.env Sample.ctx Sample.voted
              Sample.older [] Hacc eq_refl eq_refl)
    as (w' & added & Hlock & Hin & _ & Hnotif & Hper & _).
  exists w', added. split; [exact Hlock|]. split; [exact Hin|]. split; [exact Hnotif|].
  split; [exact (Hper "u1")|]. split; [exact (Hper "u2")|exact (Hper "u3")].
Defined.

(** C6, as stated, fails: a member whose two presses of "join" both reached
    the ledger has two join votes on the poll, and /lock sends that member
    two notifications, not one. *)
Lemma lock_notifies_double_voter_twice :
  votesOf "p1" "u4" Scenario.votedTwice
  = [Vote.mk "id0" "p1" "u4" "join"; Vote.mk "id1" "p1" "u4" "join"]
  ∧ (Planbot.handlePlanbotCommand Sample.env "/lock" Sample.ctx Scenario.votedTwice).1
    = Ok (PlanbotResult.mk true)
  ∧ map Notification.userId
      (notifications
         (db (Planbot.handlePlanbotCommand Sample.env "/lock" Sample.ctx
                Scenario.votedTwice).2))
    = ["u1"; "u4"; "u4"]
  ∧ length (notificationsFor "u4"
      (notifications
         (db (Planbot.handlePlanbotCommand Sample.env "/lock" Sample.ctx
                Scenario.votedTwice).2))) = 2%nat.
Proof. vm_compute. repeat split. Qed.

(** C7, as amended.  [parseDateTime] looks at every argument, wherever it
    stands: the date it returns is the last argument that matches
    YYYY-MM-DD and the time is the last argument that matches
    H:MM[am|pm], in lower case; each is absent when no argument matches. *)
Theorem parseDateTime_last_match_wins (args : list string) :
  Planbot.parseDateTime args
  = (last (List.filter Planbot.isDate args),
     Js.toLowerCase <$> last (List.filter Planbot.isTime args)).
Proof.
  unfold Planbot.parseDateTime. rewrite parseDateTime_from.
  f_equal; by destruct (last _).
Qed.

(** C7, as stated, fails: of two date tokens and of two time tokens the
    second is used, not the first. *)
Lemma parseDateTime_first_match_loses :
  find Planbot.isDate ["2025-10-30"; "19:30"; "2025-11-01"; "8:15PM"] = Some "2025-10-30"
  ∧ find Planbot.isTime ["2025-10-30"; "19:30"; "2025-11-01"; "8:15PM"] = Some "19:30"
  ∧ Planbot.parseDateTime ["2025-10-30"; "19:30"; "2025-11-01"; "8:15PM"]
    = (Some "2025-11-01", Some "8:15pm").
Proof. repeat split. Qed.




(** C9, as amended.  For a subscriber of group G, a message event and a
    poll event whose payload names another group leave the state as it
    was; over any sequence of events, the state reached is the one reached
    without those events. *)
Theorem handlers_ignore_other_groups (G : string) (st : GroupChat.State) :
  (∀ r : GroupChat.RealtimeResponse Message.t,
     Message.groupId (GroupChat.payload r) ≠ G →
     GroupChat.deliver G (GroupChat.MessageChange r) st = st)
  ∧ (∀ r : GroupChat.RealtimeResponse Poll.t,
     Poll.groupId (GroupChat.payload r) ≠ G →
     GroupChat.deliver G (GroupChat.PollChange r) st = st)
  ∧ (∀ cs, deliverAll G cs st
           = deliverAll G (List.filter (fun c => negb (fromOtherGroup G c)) cs) st).
Proof.
  split; [|split].
  - intros r Hr. apply (deliver_fromOtherGroup G (GroupChat.MessageChange r)).
    simpl. by rewrite bool_decide_eq_false_2.
  - intros r Hr. apply (deliver_fromOtherGroup G (GroupChat.PollChange r)).
    simpl. by rewrite bool_decide_eq_false_2.
  - intros cs. revert st. induction cs as [|c cs IH]; intros st; [done|].
    unfold deliverAll in *. simpl.
    destruct (fromOtherGroup G c) eqn:Hc; simpl.
    + rewrite (deliver_fromOtherGroup _ _ _ Hc). apply IH.
    + apply IH.
Qed.

Lemma handlers_ignore_other_groups_witness :
  GroupChat.deliver "g1"
    (GroupChat.PollChange (GroupChat.mkResponse _ [GroupChat.CREATE]
                             (Sample.poll "p3" 3 "g2" "Cafe C" true)))
    Sample.chat
  = Sample.chat.
Proof.
  apply (proj1 (proj2 (handlers_ignore_other_groups "g1" Sample.chat))).
  simpl. discriminate.
Defined.

(** C9, as stated, fails for votes: a subscriber of g1 applies the
    creation of a vote that was cast on a poll of g2. *)
Lemma vote_of_other_group_applied :
  voteGroup (polls (db Sample.onePerGroup)) Sample.foreignVote = Some "g2"
  ∧ GroupChat.deliver "g1"
      (GroupChat.VoteChange (GroupChat.mkResponse _ [GroupChat.CREATE] Sample.foreignVote))
      Sample.chat
    = GroupChat.mkState [] [] [Sample.foreignVote] []
  ∧ GroupChat.mkState [] [] [Sample.foreignVote] [] ≠ Sample.chat.
Proof. split; [reflexivity|]. split; [reflexivity|discriminate]. Qed.

(** C10. The read helpers never throw.  When the listing they issue is
    rejected, [getActivePoll] returns null and [getGroupPolls] and
    [getPollVotes] return the empty list, the answers they also give when
    the group has no active poll, no poll, or the poll no vote; otherwise
    they return what the listing found. *)
Theorem read_helpers_swallow_failures (env : Env) (G P : string) (w : World) :
  (PollHelpers.getActivePoll env G w).1
    = (if rejects env (ListDocuments POLLS) (calls w) then Ok None
       else Ok (head (activePolls G w)))
  ∧ (PollHelpers.getGroupPolls env G w).1
    = (if rejects env (ListDocuments POLLS) (calls w) then Ok []
       else Ok (Query.run [Query.equal Poll.groupId G; Query.orderDesc Poll.createdAt;
                           Query.limit 100] (polls (db w))))
  ∧ (PollHelpers.getPollVotes env P w).1
    = (if rejects env (ListDocuments VOTES) (calls w) then Ok []
       else Ok (List.filter (fun v => bool_decide (Vote.pollId v = P)) (votes (db w)))).
Proof.
  rewrite getActivePoll_eq, getGroupPolls_eq, getPollVotes_eq.
  repeat split; by destruct (rejects env _ _).
Qed.

(** * Further properties of the code *)

(** ** lib/pollHelpers.ts *)

(** X1. [getVoteCounts] reports, for each of join, maybe and no, the number
    of votes that carry that choice; a vote with any other choice is counted
    nowhere, so the three counts and the number of such votes add up to the
    number of votes. *)
Theorem getVoteCounts_tally (votes : list Vote.t) :
  let counts := PollHelpersRest.getVoteCounts votes in
  VoteCounts.join counts = countChoice "join" votes
  ∧ VoteCounts.maybe counts = countChoice "maybe" votes
  ∧ VoteCounts.no counts = countChoice "no" votes
  ∧ VoteCounts.join counts + VoteCounts.maybe counts + VoteCounts.no counts
    + length (List.filter (fun v => negb (bool_decide (Vote.choice v = "join"))
                                    && negb (bool_decide (Vote.choice v = "maybe"))
                                    && negb (bool_decide (Vote.choice v = "no"))) votes)
    = length votes.
Proof.
  unfold PollHelpersRest.getVoteCounts. rewrite getVoteCounts_from. simpl.
  split; [done|]. split; [done|]. split; [done|]. apply partition_by_choice.
Qed.

(** X2. Whatever the backend does, [castVote] keeps the vote ledger at one
    vote at most per poll and user: it holds after the call, returned or
    thrown, when it held before. *)
Theorem castVote_keeps_one_vote_per_user (env : Env) (P U : string) (c : Choice) (w : World) :
  singleVote w → singleVote (PollHelpers.castVote env P U c w).2.
Proof.
  intros Hs. destruct (PollHelpers.castVote env P U c w) as [r w'] eqn:E.
  by eapply castVote_keeps_singleVote.
Qed.

Lemma castVote_keeps_one_vote_per_user_witness :
  singleVote Sample.voted
  ∧ singleVote (PollHelpers.castVote Sample.env "p1" "u2" No Sample.voted).2.
Proof.
  assert (Hs : singleVote Sample.voted).
  { intros P U. unfold votesOf. simpl.
    repeat case_bool_decide; simpl; try lia; congruence. }
  split; [exact Hs|].
  exact (castVote_keeps_one_vote_per_user Sample.env "p1" "u2" No Sample.voted Hs).
Defined.

(** X3. After [castVote] has completed, [getPollVotes] for the poll, when its
    listing is not rejected, returns votes among which [hasUserVoted] finds
    a vote of the user, and that vote carries the choice just cast. *)
Theorem castVote_then_hasUserVoted (env : Env) (P U : string) (c : Choice) (w w' : World) :
  PollHelpers.castVote env P U c w = (Ok tt, w') →
  rejects env (ListDocuments VOTES) (calls w') = false →
  ∃ votes v,
    (PollHelpers.getPollVotes env P w').1 = Ok votes
    ∧ PollHelpersRest.hasUserVoted votes U = Some v
    ∧ Vote.userId v = U ∧ Vote.pollId v = P ∧ Vote.choice v = choiceString c.
Proof.
  intros Hcast Hlist. rewrite getPollVotes_eq, Hlist. simpl.
  destruct (castVote_first_vote env P U c w w' Hcast) as (v & Hv & Hc & HP & HU).
  eauto 10.
Qed.

Lemma castVote_then_hasUserVoted_witness :
  ∃ w' votes v,
    PollHelpers.castVote Sample.env "p1" "u2" No Sample.voted = (Ok tt, w')
    ∧ (PollHelpers.getPollVotes Sample.env "p1" w').1 = Ok votes
    ∧ PollHelpersRest.hasUserVoted votes "u2" = Some v
    ∧ Vote.userId v = "u2" ∧ Vote.pollId v = "p1" ∧ Vote.choice v = "no".
Proof.
  eexists. 
  destruct (castVote_then_hasUserVoted Sample.env "p1" "u2" No Sample.voted _ eq_refl eq_refl)
    as (votes & v & H).
  exists votes, v. split; [reflexivity|exact H].
Defined.

(** X4. When [deletePoll] has completed, the polls collection holds no poll
    with the id and the votes collection holds no vote on it; nothing else
    was added to either collection. *)
Theorem deletePoll_removes_poll_and_votes (env : Env) (pollId userId : string)
    (w w' : World) :
  PollHelpers.deletePoll env pollId userId w = (Ok tt, w') →
  (∀ p, In p (polls (db w')) → Poll.id p ≠ pollId)
  ∧ (∀ v, In v (votes (db w')) → Vote.pollId v ≠ pollId)
  ∧ (∀ p, In p (polls (db w')) → In p (polls (db w)))
  ∧ (∀ v, In v (votes (db w')) → In v (votes (db w))).
Proof. apply deletePoll_completed. Qed.

Lemma deletePoll_removes_poll_and_votes_witness :
  ∃ w', PollHelpers.deletePoll Sample.env "p1" "u1" Sample.voted = (Ok tt, w')
    ∧ (∀ p, In p (polls (db w')) → Poll.id p ≠ "p1")
    ∧ (∀ v, In v (votes (db w')) → Vote.pollId v ≠ "p1").
Proof.
  eexists. split; [reflexivity|].
  destruct (deletePoll_removes_poll_and_votes Sample.env "p1" "u1" Sample.voted _ eq_refl)
    as (Hp & Hv & _).
  split; [exact Hp|exact Hv].
Defined.

(** X5. Only the creator changes a poll: when no poll with the id exists or
    its creator is another user, [deletePoll], [deactivatePoll] and
    [activatePoll] each throw and leave every collection as it was. *)
Theorem only_creator_changes_poll (env : Env) (pollId userId : string) (w : World) :
  (∀ poll, find (databases.hasId COLLECTIONS.POLLS pollId) (polls (db w)) = Some poll →
           Poll.creatorId poll ≠ userId) →
  (∃ e, (PollHelpers.deletePoll env pollId userId w).1 = Throw e)
  ∧ db (PollHelpers.deletePoll env pollId userId w).2 = db w
  ∧ (∃ e, (PollHelpers.deactivatePoll env pollId userId w).1 = Throw e)
  ∧ db (PollHelpers.deactivatePoll env pollId userId w).2 = db w
  ∧ (∃ e, (PollHelpers.activatePoll env pollId userId w).1 = Throw e)
  ∧ db (PollHelpers.activatePoll env pollId userId w).2 = db w.
Proof.
  intros Hno. pose proof (not_creator_rejected env pollId userId w Hno) as H.
  destruct (H PollHelpers.deletePoll (or_introl eq_refl)) as (e1 & Hd1 & Hd2).
  destruct (H PollHelpers.deactivatePoll (or_intror (or_introl eq_refl))) as (e2 & Hx1 & Hx2).
  destruct (H PollHelpers.activatePoll (or_intror (or_intror eq_refl))) as (e3 & Ha1 & Ha2).
  eauto 10.
Qed.

Lemma only_creator_changes_poll_witness :
  (∃ e, (PollHelpers.deletePoll Sample.env "p1" "u2" Sample.voted).1 = Throw e)
  ∧ db (PollHelpers.deletePoll Sample.env "p1" "u2" Sample.voted).2 = db Sample.voted.
Proof.
  assert (Hno : ∀ poll,
            find (databases.hasId COLLECTIONS.POLLS "p1") (polls (db Sample.voted)) = Some poll →
            Poll.creatorId poll ≠ "u2").
  { intros poll [= <-]. discriminate. }
  destruct (only_creator_changes_poll Sample.env "p1" "u2" Sample.voted Hno) as (H1 & H2 & _).
  split; [exact H1|exact H2].
Defined.

(** X6. [announcePoll] never throws and touches neither polls nor votes.
    When the backend rejects the message, the message list is as before and
    one line is logged; otherwise exactly one message is appended, in the
    group, from the sender, carrying the poll id. *)
Theorem announcePoll_never_throws (env : Env)
    (groupId pollId pollTitle senderId senderName : string) (senderAvatar : option string)
    (w : World) :
  let m := PollHelpersRest.announcePoll env groupId pollId pollTitle senderId senderName
             senderAvatar w in
  m.1 = Ok tt
  ∧ polls (db m.2) = polls (db w) ∧ votes (db m.2) = votes (db w)
  ∧ if rejects env (CreateDocument MESSAGES) (calls w)
    then messages (db m.2) = messages (db w)
         ∧ console m.2 = console w ++ ["Error announcing poll:"]
    else console m.2 = console w
         ∧ ∃ msg, messages (db m.2) = messages (db w) ++ [msg]
             ∧ Message.groupId msg = groupId ∧ Message.senderId msg = senderId
             ∧ Message.pollId msg = Some pollId
             ∧ Message.text msg = NewPollCreated pollTitle.
Proof.
  simpl. rewrite announcePoll_eq.
  destruct (rejects env (CreateDocument MESSAGES) (calls w)); simpl; [done|].
  repeat split; try done. eexists. split; [done|]. done.
Qed.

(** ** lib/planbot.ts *)

(** X7. A line that starts with an exclamation mark is taken for a command
    but never for a known one: only a leading slash is stripped, so the
    command word keeps its exclamation mark and the reply is the
    unknown-command message. *)
Theorem bang_is_unknown_command (env : Env) (input : string) (ctx : PlanbotContext.t)
    (w : World) :
  Js.startsWith (Js.trim input) "!" = true →
  Planbot.handlePlanbotCommand env input ctx w
  = (Planbot.sendSystemMessage env (PlanbotContext.groupId ctx) UnknownCommand ;;;
     ret (PlanbotResult.mk true)) w.
Proof.
  intros Hbang. unfold Planbot.handlePlanbotCommand. cbv zeta.
  rewrite Hbang, orb_true_r. cbn [negb].
  destruct (bang_command_token _ Hbang) as (rest & args & ->).
  repeat (rewrite bool_decide_eq_false_2 by discriminate). done.
Qed.

Lemma bang_is_unknown_command_witness :
  Js.startsWith (Js.trim " !help") "!" = true
  ∧ Planbot.handlePlanbotCommand Sample.env " !help" Sample.ctx Sample.empty
    = (Planbot.sendSystemMessage Sample.env "g1" UnknownCommand ;;;
       ret (PlanbotResult.mk true)) Sample.empty.
Proof.
  split; [reflexivity|].
  exact (bang_is_unknown_command Sample.env " !help" Sample.ctx Sample.empty eq_refl).
Defined.

(** X8. What a PlanBot command can touch, for any input and any backend,
    whether it returns or throws: never the votes, never the users; the
    notifications only when the command word is lock; the polls only when
    it is when or lock. *)
Theorem handlePlanbotCommand_footprint (env : Env) (input : string) (ctx : PlanbotContext.t)
    (w : World) :
  let cmd := (Planbot.parseArgs (Js.trim input)).1 in
  let w' := (Planbot.handlePlanbotCommand env input ctx w).2 in
  votes (db w') = votes (db w)
  ∧ users (db w') = users (db w)
  ∧ (cmd ≠ "lock" → notifications (db w') = notifications (db w))
  ∧ (cmd ≠ "when" → cmd ≠ "lock" → polls (db w') = polls (db w)).
Proof.
  simpl. split; [|split; [|split]].
  - apply (keeps_snd (untouched votes (votes (db w)))); [|done].
    by apply keeps_handlePlanbotCommand.
  - apply (keeps_snd (untouched users (users (db w)))); [|done].
    by apply keeps_handlePlanbotCommand.
  - intros Hlock.
    apply (keeps_snd (untouched notifications (notifications (db w)))); [|done].
    by apply keeps_handlePlanbotCommand.
  - intros Hwhen Hlock.
    apply (keeps_snd (untouched polls (polls (db w)))); [|done].
    apply keeps_handlePlanbotCommand; [done| |done]. by intros [?|?].
Qed.

Lemma handlePlanbotCommand_footprint_witness :
  (Planbot.parseArgs (Js.trim Scenario.padded)).1 = "rsvp"
  ∧ notifications (db (Planbot.handlePlanbotCommand Sample.envNoListing Scenario.padded
                         Sample.ctx Sample.voted).2) = notifications (db Sample.voted)
  ∧ polls (db (Planbot.handlePlanbotCommand Sample.envNoListing Scenario.padded Sample.ctx
                 Sample.voted).2) = polls (db Sample.voted).
Proof.
  destruct (handlePlanbotCommand_footprint Sample.envNoListing Scenario.padded Sample.ctx
              Sample.voted) as (_ & _ & Hn & Hp).
  split; [reflexivity|]. split; [apply Hn; discriminate|apply Hp; discriminate].
Defined.

(** X9. No PlanBot command, on any input and under any backend, returned or
    thrown, leaves a group with two active polls when every group had one
    at most before. *)
Theorem handlePlanbotCommand_keeps_single_active_poll (env : Env) (input : string)
    (ctx : PlanbotContext.t) (w : World) :
  singleActivePoll w →
  singleActivePoll (Planbot.handlePlanbotCommand env input ctx w).2.
Proof.
  intros Hs.
  pose proof (handlePlanbotCommand_superseded env input ctx (polls (db w)) w eq_refl) as H.
  destruct (Planbot.handlePlanbotCommand env input ctx w) as [[a|e] w']; simpl;
    intros G; by eapply supersededBy_single.
Qed.

Lemma handlePlanbotCommand_keeps_single_active_poll_witness :
  singleActivePoll Scenario.selected
  ∧ singleActivePoll
      (Planbot.handlePlanbotCommand Sample.env "/when 2025-12-24 7:30PM" Sample.ctx
         Scenario.selected).2.
Proof.
  assert (Hs : singleActivePoll Scenario.selected).
  { intros G. unfold activePolls, activeIn. simpl.
    repeat case_bool_decide; simpl; try lia; congruence. }
  split; [exact Hs|].
  exact (handlePlanbotCommand_keeps_single_active_poll Sample.env "/when 2025-12-24 7:30PM"
           Sample.ctx Scenario.selected Hs).
Defined.

(** X10. /when with a selected item, a date and a time, under an accepting
    backend: the group is left with exactly one active poll, titled by the
    selected item, created by the user, with the date and the time in its
    metadata; the selection and the search results of the group are
    cleared, no vote is touched, and two messages are posted, the first
    announcing the poll. *)
Theorem when_creates_the_active_poll (env : Env) (G : string) (args : list string)
    (user : User.t) (w : World) (item : Item) (date time : string) :
  accepting env →
  selectedItems w !! G = Some item →
  Planbot.parseDateTime args = (Some date, Some time) →
  ∃ w' p meta,
    Planbot.attachWhen env G args user w = (Ok tt, w')
    ∧ activePolls G w' = [p]
    ∧ Poll.title p = itemName item ∧ Poll.creatorId p = User.id user
    ∧ Poll.metadata p = MetaString (Encoded meta)
    ∧ Metadata.date meta = Some date ∧ Metadata.time meta = Some time
    ∧ selectedItems w' !! G = None ∧ searchResults w' !! G = None
    ∧ votes (db w') = votes (db w)
    ∧ ∃ m1 m2, messages (db w') = messages (db w) ++ [m1; m2]
        ∧ Message.text m1 = NewPollCreated (itemName item)
        ∧ Message.pollId m1 = Some (Poll.id p)
        ∧ Message.senderId m2 = "planbot".
Proof. apply attachWhen_accepting. Qed.

Lemma when_creates_the_active_poll_witness :
  ∃ w' p,
    Planbot.attachWhen Sample.env "g1" ["2025-12-24"; "7:30PM"] (User.mk "u1" "Una" None)
      Scenario.selected = (Ok tt, w')
    ∧ activePolls "g1" w' = [p]
    ∧ Poll.title p = "Third Wave Coffee".
Proof.
  destruct (when_creates_the_active_poll Sample.env "g1" ["2025-12-24"; "7:30PM"]
              (User.mk "u1" "Una" None) Scenario.selected
              (PlaceItem (Scenario.cafe 3 "Third Wave Coffee")) "2025-12-24" "7:30pm"
              (fun _ _ => eq_refl) eq_refl eq_refl)
    as (w' & p & meta & H & Hactive & Htitle & _).
  exists w', p. split; [exact H|]. split; [exact Hactive|exact Htitle].
Defined.

(** X11. /when without a selected item, or without both a date and a time
    among its arguments, only posts one message: no poll is deactivated or
    created, and the selection and the search results stay. *)
Theorem when_incomplete_changes_nothing (env : Env) (G : string) (args : list string)
    (user : User.t) (w : World) :
  selectedItems w !! G = None
  ∨ (Planbot.parseDateTime args).1 = None ∨ (Planbot.parseDateTime args).2 = None →
  let w' := (Planbot.attachWhen env G args user w).2 in
  Planbot.attachWhen env G args user w
  = Planbot.sendSystemMessage env G
      (match selectedItems w !! G with Some _ => UsageWhen | None => NoItemSelected end) w
  ∧ polls (db w') = polls (db w) ∧ votes (db w') = votes (db w)
  ∧ notifications (db w') = notifications (db w)
  ∧ selectedItems w' = selectedItems w ∧ searchResults w' = searchResults w.
Proof.
  intros H. simpl. rewrite (attachWhen_soft env G args user w H). split; [done|].
  apply sendSystemMessage_frame.
Qed.

Lemma when_incomplete_changes_nothing_witness :
  polls (db (Planbot.attachWhen Sample.env "g1" ["2025-12-24"] (User.mk "u1" "Una" None)
               Scenario.selected).2) = polls (db Scenario.selected)
  ∧ selectedItems (Planbot.attachWhen Sample.env "g1" ["2025-12-24"]
                     (User.mk "u1" "Una" None) Scenario.selected).2
    = selectedItems Scenario.selected.
Proof.
  destruct (when_incomplete_changes_nothing Sample.env "g1" ["2025-12-24"]
              (User.mk "u1" "Una" None) Scenario.selected (or_intror (or_intror eq_refl)))
    as (_ & Hp & _ & _ & Hs & _).
  split; [exact Hp|exact Hs].
Defined.

(** X12. /select, whatever the backend does: the selection of the group
    becomes the first stored candidate whose name, in lower case, contains
    the arguments joined by spaces, in lower case; without arguments,
    without stored candidates or without such a candidate the selection
    stays as it was.  The stored candidates, the polls and the votes are
    never changed. *)
Theorem select_picks_first_match (env : Env) (G : string) (args : list string) (w : World) :
  let w' := (Planbot.selectItem env G args w).2 in
  let query := Js.toLowerCase (Js.join " " args) in
  selectedItems w' =
    match args with
    | [] => selectedItems w
    | _ =>
        match searchResults w !! G ≫= fun r =>
                find (fun i => Js.includes (Js.toLowerCase (itemName i)) query) (candidates r)
        with
        | Some item => <[G := item]> (selectedItems w)
        | None => selectedItems w
        end
    end
  ∧ searchResults w' = searchResults w
  ∧ polls (db w') = polls (db w) ∧ votes (db w') = votes (db w).
Proof. apply selectItem_selection. Qed.

Lemma select_picks_first_match_witness :
  Js.toLowerCase Scenario.eclairStored = Scenario.eclairTyped
  ∧ selectedItems (Planbot.selectItem Sample.env "g1" [Scenario.eclairTyped]
                     Scenario.searched).2
    = {[ "g1" := PlaceItem (Scenario.cafe 7 Scenario.eclairStored) ]}.
Proof.
  split; [reflexivity|].
  exact (proj1 (select_picks_first_match Sample.env "g1" [Scenario.eclairTyped]
                  Scenario.searched)).
Defined.

(** X13. /planoutings with an area and a city, when the messages are
    accepted, returns normally and changes neither polls nor selection.
    When the lookup yields places, the first five of them, in the order of
    the lookup, become the candidates of the group and are listed in the
    reply; when it yields none or fails, the candidates stay as they were
    and the reply says that no places were found. *)
Theorem planoutings_stores_first_five (env : Env) (G area city : string)
    (rest : list string) (w : World) :
  (∀ n, rejects env (CreateDocument MESSAGES) n = false) →
  let category := orString (head rest) "cafe" in
  let location := area +:+ " " +:+ city in
  let m := Planbot.suggestOutings env G (area :: city :: rest) w in
  m.1 = Ok tt
  ∧ polls (db m.2) = polls (db w) ∧ selectedItems m.2 = selectedItems w
  ∧ match placesProvider env location category with
    | Ok (p :: places) =>
        searchResults m.2 = <[G := Places (take 5 (p :: places))]> (searchResults w)
        ∧ map Message.text (messages (db m.2))
          = map Message.text (messages (db w))
            ++ [Searching category location;
                PlaceSuggestions category location (take 5 (p :: places))]
    | _ =>
        searchResults m.2 = searchResults w
        ∧ map Message.text (messages (db m.2))
          = map Message.text (messages (db w))
            ++ [Searching category location; NoPlacesFound category location]
    end.
Proof.
  intros Hacc. pose proof (suggestOutings_accepted env G area city rest w Hacc) as H.
  cbv zeta in *.
  destruct (Planbot.suggestOutings env G (area :: city :: rest) w) as [r w']. exact H.
Qed.

Lemma planoutings_stores_first_five_witness :
  length Scenario.cafes = 6%nat
  ∧ searchResults (Planbot.suggestOutings Scenario.envPlaces "g1" ["Koramangala"; "Bangalore"]
                     Sample.empty).2
    = <["g1" := Places (take 5 Scenario.cafes)]> (searchResults Sample.empty).
Proof.
  split; [reflexivity|].
  exact (proj1 (proj2 (proj2 (proj2
    (planoutings_stores_first_five Scenario.envPlaces "g1" "Koramangala" "Bangalore" []
       Sample.empty (fun _ => eq_refl)))))).
Defined.

(** X14. /lock twice: in a group with exactly one active poll and an
    accepting backend, the first /lock leaves the group without an active
    poll, and a second /lock then adds no notification and changes no poll
    and no vote; it only posts the message that there is no active plan. *)
Theorem lock_twice_notifies_once (env : Env) (G : string) (name name' : option string)
    (w : World) (active : Poll.t) :
  accepting env →
  activePolls G w = [active] →
  validMetadata (Poll.metadata active) = true →
  ∃ w1 w2 m,
    Planbot.lockDecision env G name w = (Ok tt, w1)
    ∧ Planbot.lockDecision env G name' w1 = (Ok tt, w2)
    ∧ activePolls G w1 = []
    ∧ polls (db w2) = polls (db w1)
    ∧ votes (db w2) = votes (db w1)
    ∧ notifications (db w2) = notifications (db w1)
    ∧ messages (db w2) = messages (db w1) ++ [m]
    ∧ Message.text m = NoActivePlanToLock.
Proof. apply lockDecision_twice. Qed.

Lemma lock_twice_notifies_once_witness :
  ∃ w1 w2,
    Planbot.lockDecision Sample.env "g1" (Some "Friends") Sample.voted = (Ok tt, w1)
    ∧ Planbot.lockDecision Sample.env "g1" (Some "Friends") w1 = (Ok tt, w2)
    ∧ notifications (db w2) = notifications (db w1).
Proof.
  destruct (lock_twice_notifies_once Sample.env "g1" (Some "Friends") (Some "Friends")
              Sample.voted Sample.older (fun _ _ => eq_refl) eq_refl eq_refl)
    as (w1 & w2 & m & H1 & H2 & _ & _ & _ & Hn & _).
  exists w1, w2. split; [exact H1|]. split; [exact H2|exact Hn].
Defined.

(** X15. /rsvp reports the real numbers: in a group with an active poll
    whose metadata decodes, under an accepting backend, the one message it
    posts carries, for join, maybe and no, the counts that [getVoteCounts]
    gives for the votes stored on that poll. *)
Theorem rsvp_reports_the_tally (env : Env) (G : string) (w : World) (active : Poll.t)
    (rest : list Poll.t) :
  accepting env →
  activePolls G w = active :: rest →
  validMetadata (Poll.metadata active) = true →
  let counts :=
    PollHelpersRest.getVoteCounts
      (List.filter (fun v => bool_decide (Vote.pollId v = Poll.id active)) (votes (db w))) in
  ∃ w' meta m,
    Planbot.rsvpSummary env G w = (Ok tt, w')
    ∧ messages (db w') = messages (db w) ++ [m]
    ∧ Message.text m
      = RsvpSummary active meta (VoteCounts.join counts) (VoteCounts.maybe counts)
          (VoteCounts.no counts)
    ∧ Message.groupId m = G ∧ Message.isSystemMessage m = Some true.
Proof.
  intros Hacc Hactive Hvalid counts.
  unfold counts, PollHelpersRest.getVoteCounts. rewrite getVoteCounts_from. simpl.
  by apply rsvpSummary_accepting with (rest := rest).
Qed.

Lemma rsvp_reports_the_tally_witness :
  ∃ w' meta m,
    Planbot.rsvpSummary Sample.env "g1" Sample.voted = (Ok tt, w')
    ∧ messages (db w') = messages (db Sample.voted) ++ [m]
    ∧ Message.text m = RsvpSummary Sample.older meta 1 1 1.
Proof.
  destruct (rsvp_reports_the_tally Sample.env "g1" Sample.voted Sample.older []
              (fun _ _ => eq_refl) eq_refl eq_refl)
    as (w' & meta & m & H & Hm & Ht & _).
  exists w', meta, m. split; [exact H|]. split; [exact Hm|exact Ht].
Defined.

(** X16. What [parseDateTime] returns is accepted when parsed again: a
    date and a time it found are themselves a date token and a time token,
    and parsing the two, in either order, gives the same pair. *)
Theorem parseDateTime_reparses (args : list string) (date time : string) :
  Planbot.parseDateTime args = (Some date, Some time) →
  Planbot.isDate date = true ∧ Planbot.isTime time = true
  ∧ Planbot.parseDateTime [date; time] = (Some date, Some time)
  ∧ Planbot.parseDateTime [time; date] = (Some date, Some time).
Proof.
  unfold Planbot.parseDateTime at 1. rewrite parseDateTime_from.
  destruct (last (List.filter Planbot.isDate args)) as [d|] eqn:Hd; [|done].
  destruct (last (List.filter Planbot.isTime args)) as [t|] eqn:Ht; [|done].
  intros [= <- <-]. apply last_filter_holds in Hd, Ht.
  assert (Ht' : Planbot.isTime (Js.toLowerCase t) = true) by (by apply isTime_toLowerCase).
  split; [done|]. split; [done|].
  destruct (parseDateTime_either_order d (Js.toLowerCase t) Hd Ht') as [H1 H2].
  rewrite toLowerCase_idem in H1, H2 by done. done.
Qed.

Lemma parseDateTime_reparses_witness :
  Planbot.parseDateTime ["7:30PM"; "on"; "2025-12-24"] = (Some "2025-12-24", Some "7:30pm")
  ∧ Planbot.parseDateTime ["2025-12-24"; "7:30pm"] = (Some "2025-12-24", Some "7:30pm").
Proof.
  split; [reflexivity|].
  exact (proj1 (proj2 (proj2
    (parseDateTime_reparses ["7:30PM"; "on"; "2025-12-24"] "2025-12-24" "7:30pm" eq_refl)))).
Defined.

(** ** pages/group-chat.tsx *)

(** X17. [handleVote] never throws: either it shows the vote as recorded,
    or it shows the failure toast and then no collection has changed. *)
Theorem handleVote_never_throws (env : Env) (user : User.t) (state : list Vote.t)
    (pollId choice : string) (w : World) :
  (GroupChatPage.handleVote env user state pollId choice w).1 = Ok (VoteRecorded choice)
  ∨ ((GroupChatPage.handleVote env user state pollId choice w).1 = Ok FailedToVote
     ∧ db (GroupChatPage.handleVote env user state pollId choice w).2 = db w).
Proof. apply handleVote_outcome. Qed.

(** X18. While the votes the page holds agree with the collection on the
    user's vote on the poll, voting from the page does to the collections
    what [castVote] does, and reports the vote as recorded. *)
Theorem handleVote_agrees_with_castVote (env : Env) (user : User.t) (state : list Vote.t)
    (poll : Poll.t) (c : Choice) (w : World) :
  accepting env →
  GroupChatPage.userVote user state poll = head (votesOf (Poll.id poll) (User.id user) w) →
  (GroupChatPage.handleVote env user state (Poll.id poll) (choiceString c) w).1
  = Ok (VoteRecorded (choiceString c))
  ∧ db (GroupChatPage.handleVote env user state (Poll.id poll) (choiceString c) w).2
    = db (PollHelpers.castVote env (Poll.id poll) (User.id user) c w).2.
Proof. intros Hacc Hstate. by apply handleVote_in_step. Qed.

Lemma handleVote_agrees_with_castVote_witness :
  db (GroupChatPage.handleVote Sample.env (User.mk "u2" "Dev" None)
        (votes (db Sample.voted)) "p1" "join" Sample.voted).2
  = db (PollHelpers.castVote Sample.env "p1" "u2" Join Sample.voted).2.
Proof.
  exact (proj2 (handleVote_agrees_with_castVote Sample.env (User.mk "u2" "Dev" None)
                  (votes (db Sample.voted)) Sample.older Join Sample.voted
                  (fun _ _ => eq_refl) eq_refl)).
Defined.

(** X19. The page decides between update and insert from the votes it
    holds, not from the collection: when it holds no vote of the user on
    the poll, voting inserts a vote, so a user whose vote the page has not
    received ends up with more than one vote on the poll. *)
Theorem handleVote_stale_state_duplicates (env : Env) (user : User.t) (state : list Vote.t)
    (poll : Poll.t) (choice : string) (w : World) :
  accepting env →
  GroupChatPage.userVote user state poll = None →
  let w' := (GroupChatPage.handleVote env user state (Poll.id poll) choice w).2 in
  votes (db w')
  = votes (db w) ++ [Vote.mk (unique env (issued w)) (Poll.id poll) (User.id user) choice]
  ∧ length (votesOf (Poll.id poll) (User.id user) w')
    = S (length (votesOf (Poll.id poll) (User.id user) w))
  ∧ (votesOf (Poll.id poll) (User.id user) w ≠ [] → ¬ singleVote w').
Proof.
  intros Hacc Hstate w'.
  destruct (handleVote_stale env user state (Poll.id poll) choice w Hacc Hstate) as [Hv Hl].
  split; [done|]. split; [done|]. intros Hne Hs.
  specialize (Hs (Poll.id poll) (User.id user)). fold w' in Hl.
  destruct (votesOf (Poll.id poll) (User.id user) w); [done|]. simpl in Hl. lia.
Qed.

Lemma handleVote_stale_state_duplicates_witness :
  length (votesOf "p1" "u2"
            (GroupChatPage.handleVote Sample.env (User.mk "u2" "Dev" None) [] "p1" "no"
               Sample.voted).2) = 2%nat.
Proof.
  exact (proj1 (proj2 (handleVote_stale_state_duplicates Sample.env (User.mk "u2" "Dev" None)
                         [] Sample.older "no" Sample.voted (fun _ _ => eq_refl) eq_refl))).
Defined.

(** X20. The tally the chat page shows for a poll depends on the votes of
    that poll only: a vote event whose payload is on another poll, and
    which replaces no vote of this poll, leaves the tally as it was. *)
Theorem vote_on_other_poll_keeps_tally (G : string)
    (r : GroupChat.RealtimeResponse Vote.t) (st : GroupChat.State) (poll : Poll.t) :
  Vote.pollId (GroupChat.payload r) ≠ Poll.id poll →
  (∀ v, In v (GroupChat.votes st) → Vote.id v = Vote.id (GroupChat.payload r) →
        Vote.pollId v ≠ Poll.id poll) →
  GroupChatPage.getVoteCounts
    (GroupChat.votes (GroupChat.deliver G (GroupChat.VoteChange r) st)) poll
  = GroupChatPage.getVoteCounts (GroupChat.votes st) poll.
Proof. apply tally_other_poll. Qed.

Lemma vote_on_other_poll_keeps_tally_witness :
  GroupChatPage.getVoteCounts
    (GroupChat.votes
       (GroupChat.deliver "g1"
          (GroupChat.VoteChange (GroupChat.mkResponse _ [GroupChat.CREATE] Sample.foreignVote))
          Sample.chat)) Sample.older
  = GroupChatPage.getVoteCounts (GroupChat.votes Sample.chat) Sample.older.
Proof.
  apply (vote_on_other_poll_keeps_tally "g1"
           (GroupChat.mkResponse _ [GroupChat.CREATE] Sample.foreignVote) Sample.chat
           Sample.older).
  - discriminate.
  - intros v [].
Defined.

(** ** pages/notifications.tsx *)

(** X21. [markAsRead] never throws and touches neither polls nor votes; a
    stored notification is either left as it was or, when it has the id,
    set to read; and when the backend does not reject the update, no
    stored notification with that id is left unread. *)
Theorem markAsRead_marks_only_that_one (env : Env) (notificationId : string) (w : World) :
  let m := NotificationsPanel.markAsRead env notificationId w in
  m.1 = Ok tt
  ∧ polls (db m.2) = polls (db w) ∧ votes (db m.2) = votes (db w)
  ∧ Forall2 (fun a b => b = a ∨ (Notification.id a = notificationId
                                 ∧ b = NotificationsPanel.set_read true a))
      (notifications (db w)) (notifications (db m.2))
  ∧ (rejects env (UpdateDocument NOTIFICATIONS) (calls w) = false →
     Forall (fun s => Notification.id s = notificationId → Notification.read s = true)
       (notifications (db m.2))).
Proof.
  pose proof (markAsRead_inv env notificationId w) as H. simpl.
  by destruct (NotificationsPanel.markAsRead env notificationId w) as [r w'].
Qed.

Lemma markAsRead_marks_only_that_one_witness :
  Forall (fun s => Notification.id s = "n1" → Notification.read s = true)
    (notifications (db (NotificationsPanel.markAsRead Sample.env "n1" Scenario.notified).2)).
Proof.
  exact (proj2 (proj2 (proj2 (proj2
    (markAsRead_marks_only_that_one Sample.env "n1" Scenario.notified)))) eq_refl).
Defined.

(** X22. [markAllAsRead] never throws; it only ever sets read flags, so no
    notification is added, removed or reordered; and when it reports
    success, every stored notification that has the id of an unread
    notification of the panel is read. *)
Theorem markAllAsRead_marks_listed_unread (env : Env) (local : list Notification.t)
    (w : World) :
  let m := NotificationsPanel.markAllAsRead env local w in
  (m.1 = Ok AllMarkedAsRead ∨ m.1 = Ok FailedToMarkAsRead)
  ∧ Forall2 (fun a b => b = a ∨ b = NotificationsPanel.set_read true a)
      (notifications (db w)) (notifications (db m.2))
  ∧ (m.1 = Ok AllMarkedAsRead →
     ∀ n s, In n local → Notification.read n = false →
            In s (notifications (db m.2)) → Notification.id s = Notification.id n →
            Notification.read s = true).
Proof.
  pose proof (markAllAsRead_inv env local w) as H. simpl.
  by destruct (NotificationsPanel.markAllAsRead env local w) as [r w'].
Qed.

Lemma markAllAsRead_marks_listed_unread_witness :
  (NotificationsPanel.markAllAsRead Sample.env Scenario.inbox Scenario.notified).1
  = Ok AllMarkedAsRead
  ∧ ∀ s, In s (notifications
                 (db (NotificationsPanel.markAllAsRead Sample.env Scenario.inbox
                        Scenario.notified).2)) →
         Notification.id s = "n3" → Notification.read s = true.
Proof.
  split; [reflexivity|]. intros s Hs Hid.
  exact (proj2 (proj2 (markAllAsRead_marks_listed_unread Sample.env Scenario.inbox
                         Scenario.notified))
           eq_refl (Scenario.notice "n3" "u1" false) s (or_introl eq_refl) eq_refl Hs Hid).
Defined.

(** X23. The unread badge follows the realtime channel: when the panel of
    a signed-in user holds an unread notification of that user, under ids
    that identify notifications, the update event that carries it as read
    shows no toast and lowers the unread count by one. *)
Theorem unread_count_drops_on_update (U : string) (n : Notification.t) (evs : list string)
    (local : list Notification.t) :
  U ≠ "" →
  NoDup (map Notification.id local) →
  In n local → Notification.read n = false → Notification.userId n = U →
  GroupChat.includes evs GroupChat.CREATE = false →
  GroupChat.includes evs GroupChat.UPDATE = true →
  (NotificationsPanel.onNotification U
     (GroupChat.mkResponse _ evs (NotificationsPanel.set_read true n)) local).2 = None
  ∧ S (NotificationsPanel.unreadCount
         (NotificationsPanel.onNotification U
            (GroupChat.mkResponse _ evs (NotificationsPanel.set_read true n)) local).1)
    = NotificationsPanel.unreadCount local.
Proof. apply unread_after_update. Qed.

Lemma unread_count_drops_on_update_witness :
  NotificationsPanel.unreadCount Scenario.inbox = 2%nat
  ∧ S (NotificationsPanel.unreadCount
         (NotificationsPanel.onNotification "u1"
            (GroupChat.mkResponse _ [GroupChat.UPDATE]
               (NotificationsPanel.set_read true (Scenario.notice "n1" "u1" false)))
            Scenario.inbox).1)
    = NotificationsPanel.unreadCount Scenario.inbox.
Proof.
  split; [reflexivity|].
  refine (proj2 (unread_count_drops_on_update "u1" (Scenario.notice "n1" "u1" false)
                   [GroupChat.UPDATE] Scenario.inbox _ _ _ eq_refl eq_refl eq_refl eq_refl)).
  - discriminate.
  - apply (bool_decide_unpack _). vm_compute. exact I.
  - right. right. left. reflexivity.
Defined.

(** ** pages/poll-management.tsx *)

Lemma listed_in_step : inStep Scenario.listed Sample.onePerGroup.
Proof.
  intros lp [<-|[<-|[]]].
  - exists (Sample.poll "p2" 2 "g1" "Cafe B" false).
    split; [right; left; reflexivity|]. by repeat split.
  - exists Sample.older. split; [left; reflexivity|]. by repeat split.
Qed.



(** X25. The buttons the page offers and the helpers agree: for a stored
    poll that [canManagePoll] denies to the user, deleting and toggling
    from the page both end in the failure toast, with the list and every
    collection as they were. *)
Theorem page_refuses_non_creator (env : Env) (user : User.t) (local : list PollWithVotes.t)
    (pollId : string) (currentActive : bool) (sp : Poll.t) (vs : list Vote.t) (w : World) :
  find (databases.hasId COLLECTIONS.POLLS pollId) (polls (db w)) = Some sp →
  PollManagement.canManagePoll user (PollWithVotes.mk sp vs) = false →
  (∃ e, (PollManagement.handleDeletePoll env user local pollId w).1
        = Ok (local, FailedToDeletePoll e))
  ∧ db (PollManagement.handleDeletePoll env user local pollId w).2 = db w
  ∧ (∃ e, (PollManagement.handleTogglePoll env user local pollId currentActive w).1
          = Ok (local, FailedToTogglePoll e))
  ∧ db (PollManagement.handleTogglePoll env user local pollId currentActive w).2 = db w.
Proof. apply page_rejects_non_creator. Qed.

Lemma page_refuses_non_creator_witness :
  db (PollManagement.handleDeletePoll Sample.env (User.mk "u2" "Dev" None) Scenario.listed
        "p1" Sample.onePerGroup).2 = db Sample.onePerGroup.
Proof.
  exact (proj1 (proj2 (page_refuses_non_creator Sample.env (User.mk "u2" "Dev" None)
                         Scenario.listed "p1" true Sample.older [] Sample.onePerGroup
                         eq_refl eq_refl))).
Defined.

(** X26. Deleting from the page never throws and keeps the list in step
    with the collection: every listed poll is still stored with the
    activity the list shows; and after the success toast neither the list
    nor the collection holds a poll with the id. *)
Theorem handleDeletePoll_keeps_list_in_step (env : Env) (user : User.t)
    (local : list PollWithVotes.t) (pollId : string) (w : World) :
  inStep local w →
  let m := PollManagement.handleDeletePoll env user local pollId w in
  ∃ local' t, m.1 = Ok (local', t) ∧ inStep local' m.2
    ∧ (t = PollDeleted →
       (∀ lp, In lp local' → Poll.id (PollWithVotes.poll lp) ≠ pollId)
       ∧ (∀ p, In p (polls (db m.2)) → Poll.id p ≠ pollId)).
Proof.
  intros Hstep. pose proof (handleDeletePoll_in_step env user local pollId w Hstep) as H.
  simpl. by destruct (PollManagement.handleDeletePoll env user local pollId w) as [r w'].
Qed.

Lemma handleDeletePoll_keeps_list_in_step_witness :
  inStep Scenario.listed Sample.onePerGroup
  ∧ ∃ local' t,
      (PollManagement.handleDeletePoll Sample.env (User.mk "u1" "Una" None) Scenario.listed
         "p2" Sample.onePerGroup).1 = Ok (local', t)
      ∧ inStep local'
          (PollManagement.handleDeletePoll Sample.env (User.mk "u1" "Una" None)
             Scenario.listed "p2" Sample.onePerGroup).2.
Proof.
  pose proof listed_in_step as Hstep.
  split; [exact Hstep|].
  destruct (handleDeletePoll_keeps_list_in_step Sample.env (User.mk "u1" "Una" None)
              Scenario.listed "p2" Sample.onePerGroup Hstep) as (local' & t & H1 & H2 & _).
  exists local', t. split; [exact H1|exact H2].
Defined.

(** X27. Toggling from the page keeps the list in step with the
    collection: when the list shows polls of one group as the collection
    has them, under ids that identify polls, and the toggle of a listed
    poll succeeds, every listed poll is stored with the activity the new
    list shows; the toggled poll shows the opposite of its former state,
    and after an activation every other listed poll shows inactive. *)
Theorem handleTogglePoll_keeps_list_in_step (env : Env) (user : User.t)
    (local : list PollWithVotes.t) (pollId : string) (currentActive : bool) (G : string)
    (w : World) (local' : list PollWithVotes.t) (w' : World) :
  uniquePollIds w →
  inStep local w →
  (∀ lp, In lp local → Poll.groupId (PollWithVotes.poll lp) = G) →
  In pollId (map (fun lp => Poll.id (PollWithVotes.poll lp)) local) →
  PollManagement.handleTogglePoll env user local pollId currentActive w
    = (Ok (local', PollToggled currentActive), w') →
  inStep local' w'
  ∧ (∀ lp, In lp local' →
       if bool_decide (Poll.id (PollWithVotes.poll lp) = pollId)
       then Poll.active (PollWithVotes.poll lp) = negb currentActive
       else currentActive = false → Poll.active (PollWithVotes.poll lp) = false).
Proof. apply handleTogglePoll_in_step. Qed.

Lemma handleTogglePoll_keeps_list_in_step_witness :
  ∃ local' w',
    PollManagement.handleTogglePoll Sample.env (User.mk "u1" "Una" None) Scenario.listed
      "p2" false Sample.onePerGroup = (Ok (local', PollToggled false), w')
    ∧ inStep local' w'.
Proof.
  assert (Hu : uniquePollIds Sample.onePerGroup).
  { apply (bool_decide_unpack _). vm_compute. exact I. }
  pose proof listed_in_step as Hstep.
  assert (Hg : ∀ lp, In lp Scenario.listed → Poll.groupId (PollWithVotes.poll lp) = "g1").
  { intros lp [<-|[<-|[]]]; reflexivity. }
  eexists _, _. split; [reflexivity|].
  exact (proj1 (handleTogglePoll_keeps_list_in_step Sample.env (User.mk "u1" "Una" None)
                  Scenario.listed "p2" false "g1" Sample.onePerGroup _ _ Hu Hstep Hg
                  (or_introl eq_refl) eq_refl)).
Defined.

(** ** Partial failures *)

(** X28. When [deactivatePoll] has completed, the stored polls are those
    from before with the poll of that id set inactive: no other poll and no
    other field has changed. *)
Theorem deactivatePoll_changes_only_that_poll (env : Env) (pollId userId : string)
    (w w' : World) :
  PollHelpers.deactivatePoll env pollId userId w = (Ok tt, w') →
  polls (db w') =
    map (fun x => if bool_decide (Poll.id x = pollId) then Poll.set_active false x else x)
      (polls (db w)).
Proof. apply deactivatePoll_completed. Qed.

Lemma deactivatePoll_changes_only_that_poll_witness :
  ∃ w', PollHelpers.deactivatePoll Sample.env "p1" "u1" Sample.onePerGroup = (Ok tt, w')
    ∧ polls (db w')
      = [Poll.set_active false Sample.older; Sample.poll "p2" 2 "g1" "Cafe B" false;
         Sample.poll "p3" 3 "g2" "Cafe C" true].
Proof.
  eexists. split; [reflexivity|].
  exact (deactivatePoll_changes_only_that_poll Sample.env "p1" "u1" Sample.onePerGroup _
           eq_refl).
Defined.

(** X29. /lock deactivates the poll before it posts the summary.  When the
    backend rejects message writes and nothing else, /lock on a group whose
    one active poll has metadata that decodes throws; the poll is inactive
    all the same, the group is left without an active poll, and no
    notification and no message has been written. *)
Theorem lock_failure_leaves_poll_inactive (env : Env) (G : string) (name : option string)
    (w : World) (active : Poll.t) :
  (∀ n, rejects env (CreateDocument MESSAGES) n = true) →
  (∀ c n, c ≠ CreateDocument MESSAGES → rejects env c n = false) →
  activePolls G w = [active] →
  validMetadata (Poll.metadata active) = true →
  ∃ w',
    Planbot.lockDecision env G name w
      = (Throw (AppwriteException (CreateDocument MESSAGES)), w')
    ∧ activePolls G w' = []
    ∧ (∀ p, In p (polls (db w')) → Poll.id p = Poll.id active → Poll.active p = false)
    ∧ votes (db w') = votes (db w)
    ∧ messages (db w') = messages (db w)
    ∧ notifications (db w') = notifications (db w).
Proof.
  intros Hrej Hacc Hactive Hvalid.
  destruct (lockDecision_message_rejected env G name w active [] Hrej Hacc Hactive Hvalid)
    as (w' & H & Hp & Hv & Hm & Hn).
  exists w'. split; [done|]. split.
  { unfold activePolls. rewrite Hp. by apply activePolls_after_lock. }
  split; [|done]. intros p Hin Hid. rewrite Hp in Hin.
  apply in_map_iff in Hin as (x & <- & _). unfold databases.hasId in *. simpl in *.
  case_bool_decide as Hx; [done|]. by destruct Hx.
Qed.

Lemma lock_failure_leaves_poll_inactive_witness :
  ∃ w',
    Planbot.lockDecision Sample.envNoMessages "g1" (Some "Friends") Sample.voted
      = (Throw (AppwriteException (CreateDocument MESSAGES)), w')
    ∧ activePolls "g1" w' = []
    ∧ notifications (db w') = notifications (db Sample.voted).
Proof.
  assert (Hacc : ∀ c n, c ≠ CreateDocument MESSAGES →
                        rejects Sample.envNoMessages c n = false).
  { intros [[]|[]|[]|[]|[]] n Hc; try reflexivity. by destruct Hc. }
  destruct (lock_failure_leaves_poll_inactive Sample.envNoMessages "g1" (Some "Friends")
              Sample.voted Sample.older (fun _ => eq_refl) Hacc eq_refl eq_refl)
    as (w' & H & Hnone & _ & _ & _ & Hn).
  exists w'. split; [exact H|]. split; [exact Hnone|exact Hn].
Defined.

(** X30. A notification that cannot be written does not stop /lock.  When
    the backend rejects notification writes and nothing else, /lock on a
    group with an active poll whose metadata decodes returns normally: the
    poll is inactive and the summary is posted, no notification exists, and
    one line is logged for each join vote on the poll. *)
Theorem lock_survives_notification_failure (env : Env) (G : string) (name : option string)
    (w : World) (active : Poll.t) (rest : list Poll.t) :
  (∀ n, rejects env (CreateDocument NOTIFICATIONS) n = true) →
  (∀ c n, c ≠ CreateDocument NOTIFICATIONS → rejects env c n = false) →
  activePolls G w = active :: rest →
  validMetadata (Poll.metadata active) = true →
  ∃ w' m,
    Planbot.lockDecision env G name w = (Ok tt, w')
    ∧ polls (db w') =
        map (fun x => if databases.hasId COLLECTIONS.POLLS (Poll.id active) x
                      then Poll.set_active false x else x) (polls (db w))
    ∧ votes (db w') = votes (db w)
    ∧ messages (db w') = messages (db w) ++ [m]
    ∧ notifications (db w') = notifications (db w)
    ∧ console w'
      = console w
        ++ replicate
             (countChoice "join"
                (List.filter (fun v => bool_decide (Vote.pollId v = Poll.id active))
                   (votes (db w))))
             "Failed to send notification:".
Proof. apply lockDecision_notifications_rejected. Qed.

Lemma lock_survives_notification_failure_witness :
  ∃ w',
    Planbot.lockDecision Scenario.envNoNotifications "g1" (Some "Friends") Sample.voted
      = (Ok tt, w')
    ∧ notifications (db w') = []
    ∧ console w' = ["Failed to send notification:"].
Proof.
  assert (Hacc : ∀ c n, c ≠ CreateDocument NOTIFICATIONS →
                        rejects Scenario.envNoNotifications c n = false).
  { intros [[]|[]|[]|[]|[]] n Hc; try reflexivity. by destruct Hc. }
  destruct (lock_survives_notification_failure Scenario.envNoNotifications "g1"
              (Some "Friends") Sample.voted Sample.older [] (fun _ => eq_refl) Hacc
              eq_refl eq_refl)
    as (w' & m & H & _ & _ & _ & Hn & Hc).
  exists w'. split; [exact H|]. split; [exact Hn|exact Hc].
Defined.
